(** * Base Swiper API: the refresh job, the Zora client, the token store
      and the HTTP handlers, embedded from the JavaScript sources.

    Layout
    - [Js]: the fragment of JavaScript the sources rely on (strings as
      sequences of code units, numbers, JSON values, [parseInt], [slice]).
    - the effect monad [M]: explicit world passing with exceptions; the
      world keeps the job object, the Mongo collection, the token file and
      a trace of every outside call.
    - [ZoraService], the [Token] model, [TokenService], [DataRefreshJob],
      [TokenController]: src/config/database.js (second part),
      unnamed/part_003, src/services/tokenService.js, src/jobs/dataRefresh.js
      and unnamed/part_004.
    - [SimpleServer]: the file-backed server of unnamed/part_001.
    - the theorems. *)

From Stdlib Require Import ZArith List String Ascii Bool Lia.
From Stdlib Require Import Permutation Sorted DecimalString.
Import ListNotations.
Open Scope string_scope.
Open Scope Z_scope.
Set Warnings "-register-all".

(* ===================================================================== *)
(** ** The JavaScript fragment *)
(* ===================================================================== *)

Module Js.

(** A string is a sequence of UTF-16 code units; the model covers the code
    units below 256 (one [ascii] each, read as Latin-1), which is where hex
    addresses and query strings live. *)

Definition code (c : ascii) : N := N_of_ascii c.

(** [String.prototype.toLowerCase], one code unit at a time: A-Z and the
    Latin-1 capitals U+00C0..U+00DE (without the multiplication sign
    U+00D7) move up by 32, everything else stays. *)
Definition lower_unit (c : ascii) : ascii :=
  let n := code c in
  if (((65 <=? n) && (n <=? 90)) ||
      ((192 <=? n) && (n <=? 222) && negb (n =? 215)))%N
  then ascii_of_N (n + 32) else c.

Fixpoint toLowerCase (s : string) : string :=
  match s with
  | EmptyString => EmptyString
  | String c r => String (lower_unit c) (toLowerCase r)
  end.

(** White space in the sense of [trim] and of [parseInt]: TAB, LF, VT, FF,
    CR, SPACE and NO-BREAK SPACE. *)
Definition is_space (c : ascii) : bool :=
  let n := code c in
  (((9 <=? n) && (n <=? 13)) || (n =? 32) || (n =? 160))%N.

Fixpoint trimStart (s : string) : string :=
  match s with
  | EmptyString => EmptyString
  | String c r => if is_space c then trimStart r else s
  end.

Fixpoint trimEnd (s : string) : string :=
  match s with
  | EmptyString => EmptyString
  | String c r =>
      match trimEnd r with
      | EmptyString => if is_space c then EmptyString else String c EmptyString
      | r' => String c r'
      end
  end.

Definition trim (s : string) : string := trimEnd (trimStart s).

(** [s.length] *)
Definition strlen (s : string) : Z := Z.of_nat (String.length s).

(** Numbers: the integer-valued doubles together with the non-finite
    values.  Minus zero is identified with zero.  Sums and products of
    finite numbers are those of the integers; [parseInt], where numbers of
    any size come in, rounds to a double. *)
Inductive Num : Type :=
| NaN
| PInf
| NInf
| Fin (z : Z).

Definition nneg (a : Num) : Num :=
  match a with
  | NaN => NaN | PInf => NInf | NInf => PInf | Fin z => Fin (- z)
  end.

Definition nadd (a b : Num) : Num :=
  match a, b with
  | NaN, _ | _, NaN => NaN
  | PInf, NInf | NInf, PInf => NaN
  | PInf, _ | _, PInf => PInf
  | NInf, _ | _, NInf => NInf
  | Fin x, Fin y => Fin (x + y)
  end.

Definition nsub (a b : Num) : Num := nadd a (nneg b).

Definition nsign (a : Num) : Z :=
  match a with
  | NaN => 0 | PInf => 1 | NInf => -1 | Fin z => Z.sgn z
  end.

Definition nmul (a b : Num) : Num :=
  match a, b with
  | NaN, _ | _, NaN => NaN
  | Fin x, Fin y => Fin (x * y)
  | _, _ =>
      match nsign a * nsign b with
      | 0 => NaN
      | Zpos _ => PInf
      | Zneg _ => NInf
      end
  end.

(** [a < b]; a comparison with NaN is false. *)
Definition nlt (a b : Num) : bool :=
  match a, b with
  | NaN, _ | _, NaN => false
  | _, NInf => false
  | NInf, _ => true
  | PInf, _ => false
  | Fin _, PInf => true
  | Fin x, Fin y => x <? y
  end.

Definition ngt (a b : Num) : bool := nlt b a.

(** [Math.ceil(a / b)] *)
Definition ceil_div (a b : Num) : Num :=
  match a, b with
  | NaN, _ | _, NaN => NaN
  | Fin x, Fin y =>
      if y =? 0 then
        match x with
        | Z0 => NaN
        | Zpos _ => PInf
        | Zneg _ => NInf
        end
      else Fin (- ((- x) / y))
  | Fin _, _ => Fin 0
  | _, Fin y =>
      match nsign a * (if y <? 0 then -1 else 1) with
      | Zneg _ => NInf
      | _ => PInf
      end
  | _, _ => NaN
  end.

(** [Math.min(a, b)] *)
Definition nmin (a b : Num) : Num :=
  match a, b with
  | NaN, _ | _, NaN => NaN
  | NInf, _ | _, NInf => NInf
  | PInf, x | x, PInf => x
  | Fin x, Fin y => Fin (Z.min x y)
  end.

(** Digits of [parseInt]: the value of one code unit in the given radix. *)
Definition digit_val (radix : N) (c : ascii) : option N :=
  let n := code c in
  let v :=
    if ((48 <=? n) && (n <=? 57))%N then Some (n - 48)%N
    else if ((97 <=? n) && (n <=? 122))%N then Some (n - 87)%N
    else if ((65 <=? n) && (n <=? 90))%N then Some (n - 55)%N
    else None in
  match v with
  | Some d => if (d <? radix)%N then Some d else None
  | None => None
  end.

(** The longest prefix of digits, accumulated from the left; [None] when
    there is no digit at all. *)
Fixpoint digits (radix : N) (acc : option N) (s : string) : option N :=
  match s with
  | EmptyString => acc
  | String c r =>
      match digit_val radix c with
      | None => acc
      | Some d =>
          digits radix
            (Some (match acc with None => d | Some a => a * radix + d end)%N) r
      end
  end.

(** The Number value of a natural number: itself below 2^53, otherwise
    the nearest number with 53 significant bits, ties going to the even
    one, and [Infinity] when that is 2^1024 or more. *)
Definition to_double (n : N) : Num :=
  if (n <? 9007199254740992)%N then Fin (Z.of_N n)
  else
    let sh := (N.log2 n - 52)%N in
    let q := N.shiftr n sh in
    let r := (n - N.shiftl q sh)%N in
    let half := N.shiftl 1 (sh - 1) in
    let q' := if (half <? r)%N || ((r =? half)%N && N.odd q) then (q + 1)%N else q in
    let v := N.shiftl q' sh in
    if (N.log2 v <? 1024)%N then Fin (Z.of_N v) else PInf.

(** [parseInt(s)] with no radix argument: leading white space, a sign, an
    optional [0x] prefix, then digits; NaN when no digit follows, and the
    Number value of the integer the digits spell otherwise. *)
Definition parseInt (s : string) : Num :=
  let s1 := trimStart s in
  let '(neg, s2) :=
    match s1 with
    | String "-" r => (true, r)
    | String "+" r => (false, r)
    | _ => (false, s1)
    end in
  let '(radix, s3) :=
    match s2 with
    | String "0" (String "x" r) => (16%N, r)
    | String "0" (String "X" r) => (16%N, r)
    | _ => (10%N, s2)
    end in
  match digits radix None s3 with
  | None => NaN
  | Some n => if neg then nneg (to_double n) else to_double n
  end.

(** Values that travel through the program: what [JSON.parse] produces,
    [undefined], and [Date] objects ([JDate v] is [new Date(v)], kept
    unevaluated).  An object lists its own properties, each key once;
    numbers in a body are integers. *)
Inductive Value : Type :=
| JUndefined
| JNull
| JBool (b : bool)
| JNum (n : Z)
| JStr (s : string)
| JArr (items : list Value)
| JObj (fields : list (string * Value))
| JDate (src : Value).

(** ToBoolean *)
Definition truthy (v : Value) : bool :=
  match v with
  | JUndefined | JNull => false
  | JBool b => b
  | JNum n => negb (n =? 0)
  | JStr s => negb (String.eqb s "")
  | _ => true
  end.

Definition nullish (v : Value) : bool :=
  match v with
  | JUndefined | JNull => true
  | _ => false
  end.

Fixpoint assoc (k : string) (fields : list (string * Value)) : Value :=
  match fields with
  | [] => JUndefined
  | (k', v) :: r => if String.eqb k k' then v else assoc k r
  end.

(** [v.k] for a value that is not nullish.  Only own properties of objects
    are found; none of the keys read by the sources is a prototype
    property, so every other receiver answers [undefined]. *)
Definition prop (v : Value) (k : string) : Value :=
  match v with
  | JObj fields => assoc k fields
  | _ => JUndefined
  end.

(** [v?.k] *)
Definition opt_prop (v : Value) (k : string) : Value :=
  if nullish v then JUndefined else prop v k.

(** [a || b] on values *)
Definition or_else (a b : Value) : Value := if truthy a then a else b.

(** Relative index of [Array.prototype.slice]: ToIntegerOrInfinity, then
    clamped into [0, len]. *)
Definition rel_index (len : Z) (k : Num) : Z :=
  match k with
  | NaN => 0
  | NInf => 0
  | PInf => len
  | Fin z => if z <? 0 then Z.max (len + z) 0 else Z.min z len
  end.

(** [l.slice(start, stop)] *)
Definition slice {A : Type} (l : list A) (start stop : Num) : list A :=
  let len := Z.of_nat (List.length l) in
  let k := rel_index len start in
  let final := rel_index len stop in
  firstn (Z.to_nat (final - k)) (skipn (Z.to_nat k) l).

End Js.
Import Js.

(* ===================================================================== *)
(** ** Data model *)
(* ===================================================================== *)

(** A token: the object literal built by [transformTokens], field for
    field, and the document the collection keeps under the same fields.
    [listType] is a string, [lastUpdated] a date (milliseconds here) and
    [isActive] a boolean; the fields copied from the upstream node are raw
    values in the object and cast values in the document.  What the store
    adds of its own to a document ([_id], [__v], [updatedAt], the [_id] of
    a subdocument) is left out. *)
Record Token : Type := mkToken {
  zoraId : Value;
  name : Value;
  description : Value;
  address : Value;
  symbol : Value;
  totalSupply : Value;
  totalVolume : Value;
  volume24h : Value;
  createdAt : Value;
  creatorAddress : Value;
  poolCurrencyToken : Value;
  tokenPrice : Value;
  marketCap : Value;
  marketCapDelta24h : Value;
  chainId : Value;
  tokenUri : Value;
  platformReferrerAddress : Value;
  payoutRecipientAddress : Value;
  creatorProfile : Value;
  mediaContent : Value;
  uniqueHolders : Value;
  uniswapV4PoolKey : Value;
  listType : string;
  lastUpdated : Z;
  isActive : bool
}.

(** The fields of a [DataRefreshJob] instance.  [interval] is the handle of
    the timer, here the period in milliseconds it was created with. *)
Record Job : Type := mkJob {
  isRunning : bool;
  lastRun : option Z;
  nextRun : option Z;
  interval : option Z
}.

(** [new DataRefreshJob()] *)
Definition new_job : Job :=
  {| isRunning := false; lastRun := None; nextRun := None; interval := None |}.

(** The process of src/server.js: the job singleton and the [tokens]
    collection, in natural (insertion) order. *)
Record App : Type := mkApp {
  job : Job;
  tokens : list Token
}.

Definition set_job (j : Job) (a : App) : App := {| job := j; tokens := tokens a |}.
Definition set_tokens (l : list Token) (a : App) : App := {| job := job a; tokens := l |}.

(* ===================================================================== *)
(** ** Effects *)
(* ===================================================================== *)

(** The query of one GET sent to the Zora API. *)
Record Request : Type := mkRequest {
  url : string;
  q_listType : string;
  q_count : Num;
  q_cursor : option string
}.

(** What axios answers: the parsed body of a 2xx response, or a rejection
    (network error, timeout, non-2xx) carrying its message. *)
Inductive Reply : Type :=
| Data (body : Value)
| Rejected (message : string).

(** Operations on the Mongo collection and on the token file. *)
Inductive StoreOp : Type :=
| DeleteMany (lt : string)
| InsertMany (n : nat)
| Find (lt : string)
| CountDocuments (lt : string)
| FindOne (addr : string)
| Search (pattern : string)
| ReadFile
| WriteFile.

(** Every call that leaves the process. *)
Inductive Event : Type :=
| EvGet (r : Request)
| EvStore (op : StoreOp).

(** Thrown values: an [Error] (or a subclass, named) and its message. *)
Record Exn : Type := mkExn {
  exn_name : string;
  message : string
}.

Definition Error (msg : string) : Exn := mkExn "Error" msg.
Definition TypeError (msg : string) : Exn := mkExn "TypeError" msg.

(** What the process cannot decide: the successive readings of the clock,
    the answer of the upstream to its k-th request and the instant at
    which that answer arrives, the regular expression engine
    ([regexp_i p] is [new RegExp(p, "i")]: [None] for a SyntaxError,
    otherwise the test it performs on a string), and the conversions of
    Mongoose ([cast path v] is the value that the schema path [path] makes
    of [v] when [v] is not yet of the type of the path: a number on a
    string path, a string on a date path, an object on a subdocument path;
    [None] for a CastError). *)
Record Env : Type := mkEnv {
  clock : nat -> Z;
  upstream : nat -> Request -> Reply;
  arrival : nat -> nat;
  regexp_i : string -> option (string -> bool);
  cast : string -> Value -> option Value
}.

(** The world: the program state [S], the trace of outside calls in
    chronological order, and how many times the clock and the upstream
    have been consulted. *)
Record World (S : Type) : Type := mkWorld {
  state : S;
  trace : list Event;
  reads : nat;
  calls : nat
}.
Arguments mkWorld {S}.
Arguments state {S}.
Arguments trace {S}.
Arguments reads {S}.
Arguments calls {S}.

Inductive Outcome (A : Type) : Type :=
| Return (a : A)
| Throw (e : Exn).
Arguments Return {A}.
Arguments Throw {A}.

(** A computation reads the environment, transforms the world, and either
    returns or throws; what it did to the world before throwing stays
    done.  [await] is sequencing: one handler runs at a time. *)
Definition M (S A : Type) : Type := Env -> World S -> Outcome A * World S.

Definition ret {S A} (a : A) : M S A := fun _ w => (Return a, w).

Definition bind {S A B} (c : M S A) (k : A -> M S B) : M S B :=
  fun env w =>
    match c env w with
    | (Return a, w') => k a env w'
    | (Throw e, w') => (Throw e, w')
    end.

Definition throw {S A} (e : Exn) : M S A := fun _ w => (Throw e, w).

(** [try { c } catch (error) { handler error }] *)
Definition try_catch {S A} (c : M S A) (handler : Exn -> M S A) : M S A :=
  fun env w =>
    match c env w with
    | (Return a, w') => (Return a, w')
    | (Throw e, w') => handler e env w'
    end.

Declare Scope js_scope.
Delimit Scope js_scope with js.
Notation "x <- c ;; k" := (bind c (fun x => k))
  (at level 100, c at next level, right associativity) : js_scope.
Notation "' pat <- c ;; k" := (bind c (fun x => match x with pat => k end))
  (at level 100, pat pattern, c at next level, right associativity) : js_scope.
Notation "c ;;; k" := (bind c (fun _ => k))
  (at level 100, right associativity) : js_scope.
Open Scope js_scope.

Definition get_state {S} : M S S := fun _ w => (Return (state w), w).

Definition put_state {S} (s : S) : M S unit :=
  fun _ w => (Return tt, mkWorld s (trace w) (reads w) (calls w)).

Definition emit {S} (e : Event) : M S unit :=
  fun _ w => (Return tt, mkWorld (state w) (trace w ++ [e]) (reads w) (calls w)).

(** [Date.now()], and the time of [new Date()] *)
Definition now {S} : M S Z :=
  fun env w =>
    (Return (clock env (reads w)),
     mkWorld (state w) (trace w) (Nat.succ (reads w)) (calls w)).

(** [await axios.get(url, { params })]: resolves to [response.data] *)
Definition http_get {S} (r : Request) : M S Value :=
  fun env w =>
    let w' := mkWorld (state w) (trace w ++ [EvGet r]) (reads w) (Nat.succ (calls w)) in
    match upstream env (calls w) r with
    | Data body => (Return body, w')
    | Rejected msg => (Throw (Error msg), w')
    end.

(** [l.map(f)] with an effectful callback, left to right *)
Fixpoint mapM {S A B} (f : A -> M S B) (l : list A) : M S (list B) :=
  match l with
  | [] => ret []
  | a :: r => b <- f a ;; bs <- mapM f r ;; ret (b :: bs)
  end.

(** [v.k]: a TypeError when [v] is [null] or [undefined] *)
Definition member {S} (v : Value) (k : string) : M S Value :=
  match v with
  | JUndefined =>
      throw (TypeError ("Cannot read properties of undefined (reading '" ++ k ++ "')"))
  | JNull =>
      throw (TypeError ("Cannot read properties of null (reading '" ++ k ++ "')"))
  | _ => ret (prop v k)
  end.

(** [v?.length]: the length of an array or of a string, the own property
    of an object, [undefined] for anything else. *)
Definition opt_length (v : Value) : Value :=
  match v with
  | JArr items => JNum (Z.of_nat (List.length items))
  | JStr s => JNum (strlen s)
  | JObj fields => assoc "length" fields
  | _ => JUndefined
  end.

(** Promises that were all started, run to their settlement in order. *)
Fixpoint settle_all {S A} (cs : list (M S A)) (env : Env) (w : World S)
    : list (Outcome A) * World S :=
  match cs with
  | [] => ([], w)
  | c :: r =>
      let '(o, w1) := c env w in
      let '(os, w2) := settle_all r env w1 in
      (o :: os, w2)
  end.

(** The values of the promises that were fulfilled. *)
Fixpoint fulfilled {A} (os : list (Outcome A)) : list A :=
  match os with
  | [] => []
  | Return a :: r => a :: fulfilled r
  | Throw _ :: r => fulfilled r
  end.

(** Among promises that settle at the instants [time k], [time (k + 1)],
    ..., the rejection that comes first and its instant; of two that come
    at the same instant, the one of the promise created first. *)
Fixpoint first_rejection {A} (time : nat -> nat) (k : nat) (os : list (Outcome A))
    : option (nat * Exn) :=
  match os with
  | [] => None
  | Return _ :: r => first_rejection time (Nat.succ k) r
  | Throw e :: r =>
      match first_rejection time (Nat.succ k) r with
      | Some (t, e') => if (time k <=? t)%nat then Some (time k, e) else Some (t, e')
      | None => Some (time k, e)
      end
  end.

(** [await Promise.all(cs)] for promises that each send one request when
    they are created and settle when its answer arrives: every one is
    started, all the values come back when none is rejected, and otherwise
    the rejection that arrives first wins. *)
Definition Promise_all {S A} (cs : list (M S A)) : M S (list A) :=
  fun env w =>
    let '(os, w') := settle_all cs env w in
    match first_rejection (arrival env) (calls w) os with
    | Some (_, e) => (Throw e, w')
    | None => (Return (fulfilled os), w')
    end.

(** [l.find(p)] with a callback that may throw *)
Fixpoint findM {S A} (p : A -> M S bool) (l : list A) : M S (option A) :=
  match l with
  | [] => ret None
  | a :: r => b <- p a ;; if b then ret (Some a) else findM p r
  end.

(* ===================================================================== *)
(** ** ZoraService (src/config/database.js, second part) *)
(* ===================================================================== *)

Module ZoraService.

(** [fetchExploreTokens(listType = "FEATURED", count = 100, cursor = null)];
    an omitted argument is [None]. *)
Definition fetchExploreTokens {S} (listType : option string) (count : option Num)
    (cursor : option string) : M S Value :=
  let listType := match listType with Some l => l | None => "FEATURED" end in
  let count := match count with Some c => c | None => Fin 100 end in
  try_catch
    (let params :=
       {| url := "/explore";
          q_listType := listType;
          q_count := nmin count (Fin 100);
          q_cursor :=
            match cursor with
            | Some c => if String.eqb c "" then None else Some c
            | None => None
            end |} in
     response <- http_get params ;;
     ret response)
    (fun error =>
       throw (Error ("Failed to fetch " ++ listType ++ " tokens: " ++ message error))).

(** The callback of [edges.map] in [transformTokens] *)
Definition transformEdge {S} (listType : string) (edge : Value) : M S Token :=
  node <- member edge "node" ;;
  id <- member node "id" ;;
  name <- member node "name" ;;
  description <- member node "description" ;;
  address <-
    (a <- member node "address" ;;
     if nullish a then ret JUndefined
     else match a with
          | JStr s => ret (JStr (toLowerCase s))
          | _ => throw (TypeError "node.address?.toLowerCase is not a function")
          end) ;;
  symbol <- member node "symbol" ;;
  totalSupply <- member node "totalSupply" ;;
  totalVolume <- member node "totalVolume" ;;
  volume24h <- member node "volume24h" ;;
  created <- member node "createdAt" ;;
  creatorAddress <- member node "creatorAddress" ;;
  poolCurrencyToken <- member node "poolCurrencyToken" ;;
  tokenPrice <- member node "tokenPrice" ;;
  marketCap <- member node "marketCap" ;;
  marketCapDelta24h <- member node "marketCapDelta24h" ;;
  chain <- member node "chainId" ;;
  tokenUri <- member node "tokenUri" ;;
  platformReferrerAddress <- member node "platformReferrerAddress" ;;
  payoutRecipientAddress <- member node "payoutRecipientAddress" ;;
  creatorProfile <- member node "creatorProfile" ;;
  mediaContent <- member node "mediaContent" ;;
  uniqueHolders <- member node "uniqueHolders" ;;
  uniswapV4PoolKey <- member node "uniswapV4PoolKey" ;;
  date <- now ;;
  ret {| zoraId := id;
         name := name;
         description := description;
         address := address;
         symbol := symbol;
         totalSupply := totalSupply;
         totalVolume := totalVolume;
         volume24h := volume24h;
         createdAt := if truthy created then JDate created else JNull;
         creatorAddress := creatorAddress;
         poolCurrencyToken := poolCurrencyToken;
         tokenPrice := tokenPrice;
         marketCap := marketCap;
         marketCapDelta24h := marketCapDelta24h;
         chainId := or_else chain (JNum 8453);
         tokenUri := tokenUri;
         platformReferrerAddress := platformReferrerAddress;
         payoutRecipientAddress := payoutRecipientAddress;
         creatorProfile := creatorProfile;
         mediaContent := mediaContent;
         uniqueHolders := uniqueHolders;
         uniswapV4PoolKey := uniswapV4PoolKey;
         listType := listType;
         lastUpdated := date;
         isActive := true |}.

(** [transformTokens(zoraResponse, listType)] *)
Definition transformTokens {S} (zoraResponse : Value) (listType : string)
    : M S (list Token) :=
  let edges := opt_prop (opt_prop zoraResponse "exploreList") "edges" in
  if negb (truthy edges) then ret []
  else
    match edges with
    | JArr items => mapM (transformEdge listType) items
    | _ => throw (TypeError "zoraResponse.exploreList.edges.map is not a function")
    end.

(** What [getPaginationInfo] returns *)
Record PaginationInfo : Type := mkPaginationInfo {
  hasNextPage : Value;
  endCursor : Value;
  totalCount : Value
}.

(** [getPaginationInfo(zoraResponse)] *)
Definition getPaginationInfo (zoraResponse : Value) : PaginationInfo :=
  let pageInfo := opt_prop (opt_prop zoraResponse "exploreList") "pageInfo" in
  {| hasNextPage := or_else (opt_prop pageInfo "hasNextPage") (JBool false);
     endCursor := or_else (opt_prop pageInfo "endCursor") JNull;
     totalCount :=
       or_else
         (let edges := opt_prop (opt_prop zoraResponse "exploreList") "edges" in
          if nullish edges then JUndefined else opt_length edges)
         (JNum 0) |}.

(** [fetchAllListTypes(count = 100)]: the object it builds, as the list of
    its entries in the order they are set. *)
Definition fetchAllListTypes {S} (count : option Num) : M S (list (string * Value)) :=
  let count := match count with Some c => c | None => Fin 100 end in
  let listTypes := ["NEW"; "MOST_VALUABLE"; "TOP_GAINERS"; "FEATURED"] in
  try_catch
    (let promises :=
       map (fun listType => fetchExploreTokens (S := S) (Some listType) (Some count) None)
           listTypes in
     results <- Promise_all promises ;;
     ret (combine listTypes results))
    (fun error =>
       throw (Error ("Failed to fetch all list types: " ++ message error))).

End ZoraService.

(* ===================================================================== *)
(** ** The Token model (unnamed/part_003) on its collection *)
(* ===================================================================== *)

Definition ask {S} : M S Env := fun env w => (Return env, w).

(** Run a promise to its settlement. *)
Definition settled {S A} (c : M S A) : M S (Outcome A) :=
  fun env w => let '(o, w') := c env w in (Return o, w').

Definition unsettle {S A} (o : Outcome A) : M S A :=
  match o with
  | Return a => ret a
  | Throw e => throw e
  end.

(** [await Promise.all([c1, c2])]: both are started, the first rejection
    wins. *)
Definition Promise_all2 {S A B} (c1 : M S A) (c2 : M S B) : M S (A * B) :=
  o1 <- settled c1 ;;
  o2 <- settled c2 ;;
  a <- unsettle o1 ;;
  b <- unsettle o2 ;;
  ret (a, b).

Module TokenModel.

(** The collection is that of a server that answers: an operation fails
    for what it is asked (a document the schema refuses, a duplicate key,
    a skip that is not a count), not for a connection that is lost. *)

(** Casting a value to the type of its schema path.  [null] and
    [undefined] stay; a string on a [String] path and a number on a
    [Number] path stay; every other value goes through the conversions of
    Mongoose. *)
Definition cast_path (env : Env) (path : string) (v : Value) : option Value :=
  if nullish v then Some v else cast env path v.

Definition cast_String (env : Env) (path : string) (v : Value) : option Value :=
  match v with
  | JStr _ => Some v
  | _ => cast_path env path v
  end.

Definition cast_Number (env : Env) (path : string) (v : Value) : option Value :=
  match v with
  | JNum _ => Some v
  | _ => cast_path env path v
  end.

(** [{ type: String, required: true }] on the cast value: a string that
    is not empty *)
Definition required_string (v : Value) : bool :=
  match v with
  | JStr s => negb (String.eqb s "")
  | _ => false
  end.

(** [enum: ["NEW", "MOST_VALUABLE", "TOP_GAINERS", "FEATURED"]] *)
Definition listTypes : list string :=
  ["NEW"; "MOST_VALUABLE"; "TOP_GAINERS"; "FEATURED"].

(** The validators of the schema on a cast document: [zoraId] and
    [address] required, [listType] required and in the enum. *)
Definition validates (d : Token) : bool :=
  required_string (zoraId d) && required_string (address d) &&
  existsb (String.eqb (listType d)) listTypes.

Notation "x <-? c ;; k" :=
  (match c with Some x => k | None => None end)
  (at level 100, c at next level, right associativity, only parsing).

(** [new Token(obj)] and its validation: every path cast to its type
    ([chainId] taking its default 8453 when it is [undefined]), then the
    validators; [None] when a value does not cast or a validator fails.
    [listType], [lastUpdated] and [isActive] are of their types already. *)
Definition document (env : Env) (t : Token) : option Token :=
  zoraId' <-? cast_String env "zoraId" (zoraId t) ;;
  name' <-? cast_String env "name" (name t) ;;
  description' <-? cast_String env "description" (description t) ;;
  address' <-? cast_String env "address" (address t) ;;
  symbol' <-? cast_String env "symbol" (symbol t) ;;
  totalSupply' <-? cast_String env "totalSupply" (totalSupply t) ;;
  totalVolume' <-? cast_String env "totalVolume" (totalVolume t) ;;
  volume24h' <-? cast_String env "volume24h" (volume24h t) ;;
  createdAt' <-? cast_path env "createdAt" (createdAt t) ;;
  creatorAddress' <-? cast_String env "creatorAddress" (creatorAddress t) ;;
  poolCurrencyToken' <-? cast_path env "poolCurrencyToken" (poolCurrencyToken t) ;;
  tokenPrice' <-? cast_path env "tokenPrice" (tokenPrice t) ;;
  marketCap' <-? cast_String env "marketCap" (marketCap t) ;;
  marketCapDelta24h' <-? cast_String env "marketCapDelta24h" (marketCapDelta24h t) ;;
  chainId' <-? match chainId t with
               | JUndefined => Some (JNum 8453)
               | v => cast_Number env "chainId" v
               end ;;
  tokenUri' <-? cast_String env "tokenUri" (tokenUri t) ;;
  platformReferrerAddress' <-?
    cast_String env "platformReferrerAddress" (platformReferrerAddress t) ;;
  payoutRecipientAddress' <-?
    cast_String env "payoutRecipientAddress" (payoutRecipientAddress t) ;;
  creatorProfile' <-? cast_path env "creatorProfile" (creatorProfile t) ;;
  mediaContent' <-? cast_path env "mediaContent" (mediaContent t) ;;
  uniqueHolders' <-? cast_Number env "uniqueHolders" (uniqueHolders t) ;;
  uniswapV4PoolKey' <-? cast_path env "uniswapV4PoolKey" (uniswapV4PoolKey t) ;;
  let d :=
    {| zoraId := zoraId'; name := name'; description := description';
       address := address'; symbol := symbol'; totalSupply := totalSupply';
       totalVolume := totalVolume'; volume24h := volume24h';
       createdAt := createdAt'; creatorAddress := creatorAddress';
       poolCurrencyToken := poolCurrencyToken'; tokenPrice := tokenPrice';
       marketCap := marketCap'; marketCapDelta24h := marketCapDelta24h';
       chainId := chainId'; tokenUri := tokenUri';
       platformReferrerAddress := platformReferrerAddress';
       payoutRecipientAddress := payoutRecipientAddress';
       creatorProfile := creatorProfile'; mediaContent := mediaContent';
       uniqueHolders := uniqueHolders'; uniswapV4PoolKey := uniswapV4PoolKey';
       listType := listType t; lastUpdated := lastUpdated t;
       isActive := isActive t |} in
  if validates d then Some d else None.

(** The documents of a batch, when every one of them validates. *)
Fixpoint documents (env : Env) (docs : list Token) : option (list Token) :=
  match docs with
  | [] => Some []
  | t :: r =>
      d <-? document env t ;;
      ds <-? documents env r ;;
      Some (d :: ds)
  end.

(** [initializeTimestamps()] of [timestamps: true], on the fields kept
    here: a document without a [createdAt] gets the current date. *)
Definition initializeTimestamps (date : Z) (d : Token) : Token :=
  {| zoraId := zoraId d; name := name d; description := description d;
     address := address d; symbol := symbol d; totalSupply := totalSupply d;
     totalVolume := totalVolume d; volume24h := volume24h d;
     createdAt := if truthy (createdAt d) then createdAt d else JDate (JNum date);
     creatorAddress := creatorAddress d;
     poolCurrencyToken := poolCurrencyToken d; tokenPrice := tokenPrice d;
     marketCap := marketCap d; marketCapDelta24h := marketCapDelta24h d;
     chainId := chainId d; tokenUri := tokenUri d;
     platformReferrerAddress := platformReferrerAddress d;
     payoutRecipientAddress := payoutRecipientAddress d;
     creatorProfile := creatorProfile d; mediaContent := mediaContent d;
     uniqueHolders := uniqueHolders d; uniswapV4PoolKey := uniswapV4PoolKey d;
     listType := listType d; lastUpdated := lastUpdated d;
     isActive := isActive d |}.

(** [zoraId: { unique: true }]: the unique index on the stored key *)
Definition same_zoraId (a b : Token) : bool :=
  match zoraId a, zoraId b with
  | JStr x, JStr y => String.eqb x y
  | _, _ => false
  end.

Definition ValidationError (msg : string) : Exn := mkExn "ValidationError" msg.
Definition MongoError (msg : string) : Exn := mkExn "MongoServerError" msg.

(** An ordered insert: documents go in one by one and the first duplicate
    key stops the batch, the earlier ones staying in. *)
Fixpoint insert_ordered (coll docs : list Token) : list Token * bool :=
  match docs with
  | [] => (coll, true)
  | d :: r =>
      if existsb (same_zoraId d) coll then (coll, false)
      else insert_ordered (coll ++ [d]) r
  end.

(** [Token.insertMany(docs)]: every object is made a document and
    validated first, and nothing is sent when one fails; the documents
    then get their timestamps, one reading of the clock each, and go to
    the server as one ordered insert. *)
Definition insertMany (docs : list Token) : M App (list Token) :=
  env <- ask ;;
  match documents env docs with
  | None => throw (ValidationError "Token validation failed")
  | Some ds =>
      stamped <- mapM (fun d => date <- now ;; ret (initializeTimestamps date d)) ds ;;
      emit (EvStore (InsertMany (List.length docs))) ;;;
      a <- get_state ;;
      let '(coll, ok) := insert_ordered (tokens a) stamped in
      put_state (set_tokens coll a) ;;;
      if ok then ret stamped
      else throw (MongoError "E11000 duplicate key error collection: tokens index: zoraId_1")
  end.

(** [Token.deleteMany({ listType })]: resolves to the deleted count *)
Definition deleteMany (lt : string) : M App Z :=
  emit (EvStore (DeleteMany lt)) ;;;
  a <- get_state ;;
  let hit := fun t => String.eqb (listType t) lt in
  put_state (set_tokens (filter (fun t => negb (hit t)) (tokens a)) a) ;;;
  ret (Z.of_nat (List.length (filter hit (tokens a)))).

(** [.sort({ lastUpdated: -1 })]: newest first; documents with the same
    date keep their natural order. *)
Fixpoint insert_desc (t : Token) (l : list Token) : list Token :=
  match l with
  | [] => [t]
  | x :: r =>
      if lastUpdated x <=? lastUpdated t then t :: l else x :: insert_desc t r
  end.

Definition sort_desc (l : list Token) : list Token := fold_right insert_desc [] l.

(** [.skip(n)]: the server refuses what is not a non-negative integer. *)
Definition skip_docs {S A} (n : Num) (l : list A) : M S (list A) :=
  match n with
  | Fin k =>
      if k <? 0 then throw (MongoError "Skip value must be non-negative")
      else ret (skipn (Z.to_nat k) l)
  | _ => throw (MongoError "Failed to parse skip")
  end.

(** [.limit(n)]: zero means no limit, a negative limit counts as its
    absolute value. *)
Definition limit_docs {S A} (n : Num) (l : list A) : M S (list A) :=
  match n with
  | Fin k => ret (if k =? 0 then l else firstn (Z.to_nat (Z.abs k)) l)
  | _ => throw (MongoError "Failed to parse limit")
  end.

Definition live_of (lt : string) (t : Token) : bool :=
  String.eqb (listType t) lt && isActive t.

(** [Token.find({ listType, isActive: true }).sort({ lastUpdated: -1 })
      .skip(skip).limit(limit).lean()] *)
Definition find_page (lt : string) (skip limit : Num) : M App (list Token) :=
  emit (EvStore (Find lt)) ;;;
  a <- get_state ;;
  docs <- skip_docs skip (sort_desc (filter (live_of lt) (tokens a))) ;;
  limit_docs limit docs.

(** [Token.countDocuments({ listType, isActive: true })] *)
Definition countDocuments (lt : string) : M App Z :=
  emit (EvStore (CountDocuments lt)) ;;;
  a <- get_state ;;
  ret (Z.of_nat (List.length (filter (live_of lt) (tokens a)))).

Definition has_address (addr : string) (t : Token) : bool :=
  match address t with
  | JStr s => String.eqb s addr && isActive t
  | _ => false
  end.

(** [Token.findOne({ address, isActive: true }).lean()] *)
Definition findOne (addr : string) : M App (option Token) :=
  emit (EvStore (FindOne addr)) ;;;
  a <- get_state ;;
  ret (List.find (has_address addr) (tokens a)).

Definition field_matches (test : string -> bool) (v : Value) : bool :=
  match v with
  | JStr s => test s
  | _ => false
  end.

(** [Token.find({ isActive: true, $or: [...], listType? })
      .sort({ marketCapNumeric: -1 }).limit(limit).lean()].  No write path
    of the service sets [marketCapNumeric], so the sort leaves the natural
    order. *)
Definition find_matching (pattern : string) (test : string -> bool)
    (lt : option string) (limit : Num) : M App (list Token) :=
  emit (EvStore (Search pattern)) ;;;
  a <- get_state ;;
  let hit := fun t =>
    isActive t &&
    (field_matches test (name t) || field_matches test (symbol t) ||
     field_matches test (description t)) &&
    match lt with
    | Some l => String.eqb (listType t) l
    | None => true
    end in
  limit_docs limit (filter hit (tokens a)).

(** The operations below serve the statistics, the lookup by several
    addresses and the aging sweep; the trace, which follows the refresh
    and read paths, has no entry for them. *)

Definition among (addrs : list string) (t : Token) : bool :=
  match address t with
  | JStr s => existsb (String.eqb s) addrs && isActive t
  | _ => false
  end.

(** [Token.find({ address: { $in: addrs }, isActive: true }).lean()] *)
Definition find_addresses (addrs : list string) : M App (list Token) :=
  a <- get_state ;;
  ret (filter (among addrs) (tokens a)).

(** [Token.countDocuments({ isActive: true })] *)
Definition count_live : M App Z :=
  a <- get_state ;;
  ret (Z.of_nat (List.length (filter isActive (tokens a)))).

(** [Token.countDocuments({ isActive: true, lastUpdated: { $gte: since } })] *)
Definition count_since (since : Z) : M App Z :=
  a <- get_state ;;
  ret (Z.of_nat (List.length
         (filter (fun t => isActive t && (since <=? lastUpdated t)) (tokens a)))).

(** The groups of [$group: { _id: "$listType", count: { $sum: 1 } }]: one
    per list type, in the order the types first occur. *)
Fixpoint group_count (l : list Token) : list (string * Z) :=
  match l with
  | [] => []
  | t :: r =>
      let rest := group_count r in
      let here := Z.of_nat (List.length
                    (filter (fun u => String.eqb (listType u) (listType t)) r)) in
      (listType t, 1 + here) ::
      filter (fun g => negb (String.eqb (fst g) (listType t))) rest
  end.

(** [Token.aggregate([{ $match: { isActive: true } }, { $group: ... }])] *)
Definition aggregate_by_listType : M App (list (string * Z)) :=
  a <- get_state ;;
  ret (group_count (filter isActive (tokens a))).

Definition retire (t : Token) : Token :=
  {| zoraId := zoraId t; name := name t; description := description t;
     address := address t; symbol := symbol t; totalSupply := totalSupply t;
     totalVolume := totalVolume t; volume24h := volume24h t;
     createdAt := createdAt t; creatorAddress := creatorAddress t;
     poolCurrencyToken := poolCurrencyToken t; tokenPrice := tokenPrice t;
     marketCap := marketCap t; marketCapDelta24h := marketCapDelta24h t;
     chainId := chainId t; tokenUri := tokenUri t;
     platformReferrerAddress := platformReferrerAddress t;
     payoutRecipientAddress := payoutRecipientAddress t;
     creatorProfile := creatorProfile t; mediaContent := mediaContent t;
     uniqueHolders := uniqueHolders t; uniswapV4PoolKey := uniswapV4PoolKey t;
     listType := listType t; lastUpdated := lastUpdated t;
     isActive := false |}.

Definition aged (cutoff : Z) (t : Token) : bool :=
  isActive t && (lastUpdated t <? cutoff).

(** [Token.updateMany({ isActive: true, lastUpdated: { $lt: cutoff } },
      { $set: { isActive: false } })]: resolves to the modified count *)
Definition updateMany_retire (cutoff : Z) : M App Z :=
  a <- get_state ;;
  put_state (set_tokens
               (map (fun t => if aged cutoff t then retire t else t) (tokens a)) a) ;;;
  ret (Z.of_nat (List.length (filter (aged cutoff) (tokens a)))).

End TokenModel.

(* ===================================================================== *)
(** ** TokenService (src/services/tokenService.js) *)
(* ===================================================================== *)

Record Pagination : Type := mkPagination {
  page : Num;
  limit : Num;
  total : Z;
  pages : Num;
  hasNext : bool;
  hasPrev : bool
}.

Module TokenService.

(** What [replaceFeaturedTokens] resolves to: [{ success: false, message }]
    or [{ success: true, deleted, inserted, total }]. *)
Inductive ReplaceResult : Type :=
| NotStored (message : string)
| Replaced (deleted inserted total : Z).

Definition success (r : ReplaceResult) : bool :=
  match r with
  | NotStored _ => false
  | Replaced _ _ _ => true
  end.

(** [replaceFeaturedTokens(tokens)]; [None] is a missing ([null] or
    [undefined]) argument. *)
Definition replaceFeaturedTokens (tokens : option (list Token)) : M App ReplaceResult :=
  match tokens with
  | None | Some [] => ret (NotStored "No tokens to store")
  | Some tokens =>
      try_catch
        (deleteResult <- TokenModel.deleteMany "FEATURED" ;;
         insertResult <- TokenModel.insertMany tokens ;;
         ret (Replaced deleteResult
                (Z.of_nat (List.length insertResult))
                (Z.of_nat (List.length tokens))))
        (fun error =>
           throw (Error ("Failed to replace FEATURED tokens: " ++ message error)))
  end.

Record TokenPage : Type := mkTokenPage {
  page_tokens : list Token;
  pagination : Pagination
}.

(** [getTokensByListType(listType, page = 1, limit = 20)] *)
Definition getTokensByListType (listType : string) (page limit : option Num)
    : M App TokenPage :=
  let page := match page with Some p => p | None => Fin 1 end in
  let limit := match limit with Some l => l | None => Fin 20 end in
  try_catch
    (let skip := nmul (nsub page (Fin 1)) limit in
     '(tokens, total) <-
        Promise_all2 (TokenModel.find_page listType skip limit)
                     (TokenModel.countDocuments listType) ;;
     ret {| page_tokens := tokens;
            pagination :=
              {| page := page;
                 limit := limit;
                 total := total;
                 pages := ceil_div (Fin total) limit;
                 hasNext := nlt (nadd skip limit) (Fin total);
                 hasPrev := ngt page (Fin 1) |} |})
    (fun error =>
       throw (Error ("Failed to fetch " ++ listType ++ " tokens: " ++ message error))).

(** [getTokenByAddress(address)] *)
Definition getTokenByAddress (address : string) : M App (option Token) :=
  try_catch
    (TokenModel.findOne (toLowerCase address))
    (fun error => throw (Error ("Failed to fetch token: " ++ message error))).

(** [searchTokens(query, listType = null, limit = 20)] *)
Definition searchTokens (query : string) (listType : option string)
    (limit : option Num) : M App (list Token) :=
  let limit := match limit with Some l => l | None => Fin 20 end in
  try_catch
    (env <- ask ;;
     match regexp_i env query with
     | None => throw (mkExn "SyntaxError" "Invalid regular expression")
     | Some searchRegex =>
         let listType :=
           match listType with
           | Some l => if String.eqb l "" then None else Some l
           | None => None
           end in
         TokenModel.find_matching query searchRegex listType limit
     end)
    (fun error => throw (Error ("Failed to search tokens: " ++ message error))).

(** [getTokensByAddresses(addresses)] *)
Definition getTokensByAddresses (addresses : list string) : M App (list Token) :=
  try_catch
    (let normalizedAddresses := map toLowerCase addresses in
     TokenModel.find_addresses normalizedAddresses)
    (fun error => throw (Error ("Failed to fetch tokens: " ++ message error))).

Record Stats : Type := mkStats {
  totalTokens : Z;
  byListType : list (string * Z);
  recentTokens : Z;
  stats_lastUpdated : Z
}.

(** [getStats()]: the three queries of its [Promise.all], the date of the
    third being read when the array is built, then the date of the
    answer.  [byListType] is the object the [reduce] fills, as the list of
    its entries. *)
Definition getStats : M App Stats :=
  try_catch
    (o1 <- settled TokenModel.count_live ;;
     o2 <- settled TokenModel.aggregate_by_listType ;;
     n <- now ;;
     o3 <- settled (TokenModel.count_since (n - 24 * 60 * 60 * 1000)) ;;
     totalTokens <- unsettle o1 ;;
     byListType <- unsettle o2 ;;
     recentTokens <- unsettle o3 ;;
     date <- now ;;
     ret {| totalTokens := totalTokens;
            byListType := byListType;
            recentTokens := recentTokens;
            stats_lastUpdated := date |})
    (fun error => throw (Error ("Failed to fetch stats: " ++ message error))).

(** What [cleanupOldTokens] resolves to: [{ success: true, cleaned }] *)
Record Cleanup : Type := mkCleanup {
  cleanup_success : bool;
  cleaned : Z
}.

(** [cleanupOldTokens(daysOld = 7)], for a whole number of days *)
Definition cleanupOldTokens (daysOld : option Z) : M App Cleanup :=
  let daysOld := match daysOld with Some d => d | None => 7 end in
  try_catch
    (n <- now ;;
     let cutoffDate := n - daysOld * 24 * 60 * 60 * 1000 in
     result <- TokenModel.updateMany_retire cutoffDate ;;
     ret {| cleanup_success := true; cleaned := result |})
    (fun error => throw (Error ("Failed to cleanup tokens: " ++ message error))).

End TokenService.

(* ===================================================================== *)
(** ** DataRefreshJob (src/jobs/dataRefresh.js) *)
(* ===================================================================== *)

Module DataRefreshJob.

Import TokenService.

Definition this : M App Job := a <- get_state ;; ret (job a).

Definition update (f : Job -> Job) : M App unit :=
  a <- get_state ;; put_state (set_job (f (job a)) a).

(** The cooldown window of [runRefresh], in milliseconds *)
Definition cooldown : Z := 2 * 60 * 1000.

(** The guard of [runRefresh]:
    [this.isRunning && this.lastRun && Date.now() - this.lastRun < cooldown].
    The clock is read only when the first two conjuncts are truthy; a
    [lastRun] of zero is falsy like [null]. *)
Definition in_cooldown : M App bool :=
  j <- this ;;
  if isRunning j then
    match lastRun j with
    | Some t =>
        if t =? 0 then ret false
        else (n <- now ;; ret (n - t <? cooldown))
    | None => ret false
    end
  else ret false.

(** [runRefresh()]; [None] is the [undefined] of the skipped call. *)
Definition runRefresh : M App (option ReplaceResult) :=
  skip <- in_cooldown ;;
  if skip then ret None
  else
    n <- now ;;
    update (fun j => {| isRunning := isRunning j; lastRun := Some n;
                        nextRun := nextRun j; interval := interval j |}) ;;;
    try_catch
      (zoraData <- ZoraService.fetchExploreTokens (Some "FEATURED") (Some (Fin 100)) None ;;
       transformedTokens <- ZoraService.transformTokens zoraData "FEATURED" ;;
       result <- replaceFeaturedTokens (Some transformedTokens) ;;
       ret (Some result))
      (fun error => throw error).

(** [start(intervalMinutes = 30)].  The immediate [this.runRefresh()] is
    not awaited: its settlement is dropped.  The ticks of the timer are
    calls of [runRefresh] made by whoever drives the world. *)
Definition start (intervalMinutes : option Z) : M App unit :=
  let intervalMinutes := match intervalMinutes with Some m => m | None => 30 end in
  j <- this ;;
  if isRunning j then ret tt
  else
    update (fun j => {| isRunning := true; lastRun := lastRun j;
                        nextRun := nextRun j;
                        interval := Some (intervalMinutes * 60 * 1000) |}) ;;;
    _ <- settled runRefresh ;;
    ret tt.

(** [stop()] *)
Definition stop : M App unit :=
  update (fun j => {| isRunning := false; lastRun := lastRun j;
                      nextRun := nextRun j; interval := None |}).

Record Status : Type := mkStatus {
  st_isRunning : bool;
  st_lastRun : option Z;
  st_nextRun : option Z;
  st_interval : string
}.

(** [getStatus()] *)
Definition getStatus : M App Status :=
  j <- this ;;
  ret {| st_isRunning := isRunning j;
         st_lastRun := lastRun j;
         st_nextRun := nextRun j;
         st_interval := match interval j with Some _ => "active" | None => "inactive" end |}.

(** [forceRefresh()] *)
Definition forceRefresh : M App (option ReplaceResult) := runRefresh.

(** [refreshFeaturedTokens()] *)
Definition refreshFeaturedTokens : M App ReplaceResult :=
  try_catch
    (zoraData <- ZoraService.fetchExploreTokens (Some "FEATURED") (Some (Fin 100)) None ;;
     transformedTokens <- ZoraService.transformTokens zoraData "FEATURED" ;;
     result <- replaceFeaturedTokens (Some transformedTokens) ;;
     ret result)
    (fun error => throw error).

End DataRefreshJob.

(* ===================================================================== *)
(** ** HTTP handlers *)
(* ===================================================================== *)

(** [req.query], for the parameters the handlers read; each is absent or a
    string. *)
Record Query : Type := mkQuery {
  query_q : option string;
  query_page : option string;
  query_limit : option string;
  query_listType : option string
}.

(** What a handler sends: [res.json(body)] with status 200, or
    [res.status(code).json({ success: false, message, error })]. *)
Inductive Response (B : Type) : Type :=
| Ok (body : B)
| Failed (code : Z) (msg : string) (error : option string).
Arguments Ok {B}.
Arguments Failed {B}.

Definition status {B} (r : Response B) : Z :=
  match r with
  | Ok _ => 200
  | Failed code _ _ => code
  end.

(** [const { p = d } = req.query; ... parseInt(p)] *)
Definition parse_param (d : Z) (p : option string) : Num :=
  match p with
  | Some s => parseInt s
  | None => Fin d
  end.

(** [!query]: missing or empty *)
Definition no_query (query : option string) : bool :=
  match query with
  | Some s => String.eqb s ""
  | None => true
  end.

Definition text (query : option string) : string :=
  match query with
  | Some s => s
  | None => ""
  end.

(** The TokenController of unnamed/part_004 *)
Module TokenController.

Record Featured : Type := mkFeatured {
  f_data : list Token;
  f_pagination : Pagination;
  f_listType : string
}.

(** [getFeaturedTokens(req, res)] *)
Definition getFeaturedTokens (req : Query) : M App (Response Featured) :=
  try_catch
    (result <- TokenService.getTokensByListType "FEATURED"
                 (Some (parse_param 1 (query_page req)))
                 (Some (parse_param 20 (query_limit req))) ;;
     ret (Ok {| f_data := TokenService.page_tokens result;
                f_pagination := TokenService.pagination result;
                f_listType := "FEATURED" |}))
    (fun error =>
       ret (Failed 500 "Failed to fetch FEATURED tokens" (Some (message error)))).

Record Found : Type := mkFound {
  s_data : list Token;
  s_query : string;
  s_listType : string;
  s_count : Z
}.

(** [searchTokens(req, res)] *)
Definition searchTokens (req : Query) : M App (Response Found) :=
  try_catch
    (let query := query_q req in
     let listType := query_listType req in
     if no_query query || (strlen (trim (text query)) <? 2) then
       ret (Failed 400 "Search query must be at least 2 characters long" None)
     else
       tokens <- TokenService.searchTokens (trim (text query)) listType
                   (Some (parse_param 20 (query_limit req))) ;;
       ret (Ok {| s_data := tokens;
                  s_query := trim (text query);
                  s_listType :=
                    match listType with
                    | Some l => if String.eqb l "" then "all" else l
                    | None => "all"
                    end;
                  s_count := Z.of_nat (List.length tokens) |}))
    (fun error =>
       ret (Failed 500 "Failed to search tokens" (Some (message error)))).

(** [refreshTokens(req, res)] *)
Definition refreshTokens : M App (Response TokenService.ReplaceResult) :=
  try_catch
    (zoraData <- ZoraService.fetchExploreTokens (Some "FEATURED") (Some (Fin 100)) None ;;
     transformedTokens <- ZoraService.transformTokens zoraData "FEATURED" ;;
     result <- TokenService.replaceFeaturedTokens (Some transformedTokens) ;;
     ret (Ok result))
    (fun error =>
       ret (Failed 500 "Failed to refresh FEATURED tokens" (Some (message error)))).

Definition is_hex (c : ascii) : bool :=
  let n := code c in
  (((48 <=? n) && (n <=? 57)) || ((97 <=? n) && (n <=? 102)) ||
   ((65 <=? n) && (n <=? 70)))%N.

Fixpoint hex_digits (n : nat) (s : string) : bool :=
  match n, s with
  | O, EmptyString => true
  | Datatypes.S n', String c r => is_hex c && hex_digits n' r
  | _, _ => false
  end.

(** [/^0x[a-fA-F0-9]{40}$/.test(address)] *)
Definition address_format (address : string) : bool :=
  match address with
  | String c0 (String c1 r) =>
      Ascii.eqb c0 "0" && Ascii.eqb c1 "x" && hex_digits 40 r
  | _ => false
  end.

(** [getTokenByAddress(req, res)], [address] being [req.params.address] *)
Definition getTokenByAddress (address : string) : M App (Response Token) :=
  try_catch
    (if String.eqb address "" || negb (address_format address) then
       ret (Failed 400 "Invalid address format" None)
     else
       token <- TokenService.getTokenByAddress address ;;
       match token with
       | None => ret (Failed 404 "Token not found" None)
       | Some token => ret (Ok token)
       end)
    (fun error => ret (Failed 500 "Failed to fetch token" (Some (message error)))).

End TokenController.

(* ===================================================================== *)
(** ** The file-backed server (unnamed/part_001) *)
(* ===================================================================== *)

Module SimpleServer.

(** One entry of [tokens.json], as [fetchTokens] builds it *)
Record Entry : Type := mkEntry {
  id : Z;
  name : Value;
  description : Value;
  address : Value;
  symbol : Value;
  marketCap : Value;
  volume24h : Value;
  uniqueHolders : Value;
  creatorProfile : Value;
  mediaContent : Value;
  createdAt : Value;
  lastUpdated : Z
}.

(** The content of [tokens.json]; serialisation is transparent. *)
Record TokensFile : Type := mkTokensFile {
  tokens : list Entry;
  file_lastUpdated : Z;
  count : Z
}.

(** The state of this server is its file; [None] when it does not exist. *)
Definition Disk : Type := option TokensFile.

(** [l.map((x, index) => f index x)] from a given first index *)
Fixpoint mapM_from {S A B} (f : Z -> A -> M S B) (index : Z) (l : list A)
    : M S (list B) :=
  match l with
  | [] => ret []
  | a :: r => b <- f index a ;; bs <- mapM_from f (index + 1) r ;; ret (b :: bs)
  end.

(** The callback of [edges.map] in [fetchTokens] *)
Definition entryOf (index : Z) (edge : Value) : M Disk Entry :=
  node <- member edge "node" ;;
  name <- member node "name" ;;
  description <- member node "description" ;;
  address <-
    (a <- member node "address" ;;
     if nullish a then ret JUndefined
     else match a with
          | JStr s => ret (JStr (toLowerCase s))
          | _ => throw (TypeError "node.address?.toLowerCase is not a function")
          end) ;;
  symbol <- member node "symbol" ;;
  marketCap <- member node "marketCap" ;;
  volume24h <- member node "volume24h" ;;
  uniqueHolders <- member node "uniqueHolders" ;;
  creatorProfile <- member node "creatorProfile" ;;
  mediaContent <- member node "mediaContent" ;;
  createdAt <- member node "createdAt" ;;
  date <- now ;;
  ret {| id := index + 1;
         name := or_else name (JStr "Unnamed Token");
         description := or_else description (JStr "");
         address := address;
         symbol := symbol;
         marketCap := marketCap;
         volume24h := volume24h;
         uniqueHolders := uniqueHolders;
         creatorProfile := creatorProfile;
         mediaContent := mediaContent;
         createdAt := createdAt;
         lastUpdated := date |}.

(** [fetchTokens()]: the tokens, or [null] ([None]) from the catch block. *)
Definition fetchTokens : M Disk (option (list Entry)) :=
  try_catch
    (data <- http_get {| url := "https://api-sdk.zora.engineering/explore";
                         q_listType := "FEATURED";
                         q_count := Fin 100;
                         q_cursor := None |} ;;
     let edges := opt_prop (opt_prop data "exploreList") "edges" in
     tokens <-
       (if nullish edges then ret []
        else match edges with
             | JArr items => mapM_from entryOf 0 items
             | _ => throw (TypeError "edges.map is not a function")
             end) ;;
     date <- now ;;
     emit (EvStore WriteFile) ;;;
     put_state (Some {| tokens := tokens;
                        file_lastUpdated := date;
                        count := Z.of_nat (List.length tokens) |}) ;;;
     ret (Some tokens))
    (fun error => ret None).

Record Loaded : Type := mkLoaded {
  l_tokens : list Entry;
  l_lastUpdated : option Z
}.

(** [loadTokens()] *)
Definition loadTokens : M Disk Loaded :=
  emit (EvStore ReadFile) ;;;
  disk <- get_state ;;
  match disk with
  | Some f => ret {| l_tokens := tokens f; l_lastUpdated := Some (file_lastUpdated f) |}
  | None => ret {| l_tokens := []; l_lastUpdated := None |}
  end.

Record Featured : Type := mkFeatured {
  f_data : list Entry;
  f_pagination : Pagination;
  f_lastUpdated : option Z
}.

(** [GET /api/tokens/featured] *)
Definition getFeatured (req : Query) : M Disk (Response Featured) :=
  try_catch
    (let page := parse_param 1 (query_page req) in
     let limit := parse_param 20 (query_limit req) in
     data <- loadTokens ;;
     let startIndex := nmul (nsub page (Fin 1)) limit in
     let endIndex := nadd startIndex limit in
     let paginatedTokens := slice (l_tokens data) startIndex endIndex in
     let length := Z.of_nat (List.length (l_tokens data)) in
     ret (Ok {| f_data := paginatedTokens;
                f_pagination :=
                  {| page := page;
                     limit := limit;
                     total := length;
                     pages := ceil_div (Fin length) limit;
                     hasNext := nlt endIndex (Fin length);
                     hasPrev := ngt page (Fin 1) |};
                f_lastUpdated := l_lastUpdated data |}))
    (fun error => ret (Failed 500 "Failed to fetch tokens" (Some (message error)))).

(** [field?.match(searchRegex)] as a condition *)
Definition matches (test : string -> bool) (field : Value) : M Disk bool :=
  if nullish field then ret false
  else match field with
       | JStr s => ret (test s)
       | _ => throw (TypeError "match is not a function")
       end.

(** [l.filter(p)] with a callback that may throw *)
Fixpoint filterM {S A} (p : A -> M S bool) (l : list A) : M S (list A) :=
  match l with
  | [] => ret []
  | a :: r => b <- p a ;; rest <- filterM p r ;; ret (if b then a :: rest else rest)
  end.

Record Found : Type := mkFound {
  s_data : list Entry;
  s_query : string;
  s_count : Z
}.

(** [GET /api/tokens/search] *)
Definition search (req : Query) : M Disk (Response Found) :=
  try_catch
    (let query := query_q req in
     let limit := parse_param 20 (query_limit req) in
     data <- loadTokens ;;
     if no_query query || (strlen (text query) <? 2) then
       ret (Failed 400 "Search query must be at least 2 characters long" None)
     else
       env <- ask ;;
       match regexp_i env (text query) with
       | None => throw (mkExn "SyntaxError" "Invalid regular expression")
       | Some searchRegex =>
           hits <- filterM (fun token =>
                      a <- matches searchRegex (name token) ;;
                      if a then ret true
                      else (b <- matches searchRegex (symbol token) ;;
                            if b then ret true
                            else matches searchRegex (description token)))
                    (l_tokens data) ;;
           let results := slice hits (Fin 0) limit in
           ret (Ok {| s_data := results;
                      s_query := text query;
                      s_count := Z.of_nat (List.length results) |})
       end)
    (fun error => ret (Failed 500 "Failed to search tokens" (Some (message error)))).

Record Refreshed : Type := mkRefreshed {
  r_message : string
}.

(** [POST /api/tokens/refresh] *)
Definition refresh : M Disk (Response Refreshed) :=
  try_catch
    (_ <- fetchTokens ;;
     ret (Ok {| r_message := "Tokens refreshed successfully" |}))
    (fun error => ret (Failed 500 "Failed to refresh tokens" (Some (message error)))).

(** [t.address && t.address.toLowerCase() === address.toLowerCase()] *)
Definition same_address (address : string) (t : Entry) : M Disk bool :=
  if truthy (SimpleServer.address t) then
    match SimpleServer.address t with
    | JStr s => ret (String.eqb (toLowerCase s) (toLowerCase address))
    | _ => throw (TypeError "t.address.toLowerCase is not a function")
    end
  else ret false.

(** [GET /api/tokens/address/:address] *)
Definition getByAddress (address : string) : M Disk (Response Entry) :=
  try_catch
    (data <- loadTokens ;;
     token <- findM (same_address address) (l_tokens data) ;;
     match token with
     | None => ret (Failed 404 "Token not found" None)
     | Some token => ret (Ok token)
     end)
    (fun error => ret (Failed 500 "Failed to fetch token" (Some (message error)))).

End SimpleServer.

(* ===================================================================== *)
(** ** Vocabulary of the statements *)
(* ===================================================================== *)

(** The world after one more request [r] has gone out. *)
Definition sent {S} (r : Request) (w : World S) : World S :=
  mkWorld (state w) (trace w ++ [EvGet r]) (reads w) (Nat.succ (calls w)).

(** The world after [n] more readings of the clock. *)
Definition later {S} (n : nat) (w : World S) : World S :=
  mkWorld (state w) (trace w) (n + reads w)%nat (calls w).

(** The request of every refresh path of the job and the controller. *)
Definition featured_request : Request :=
  {| url := "/explore"; q_listType := "FEATURED"; q_count := Fin 100; q_cursor := None |}.

(** The request that [fetchExploreTokens] builds from its arguments. *)
Definition request_of (listType : option string) (count : option Num)
    (cursor : option string) : Request :=
  {| url := "/explore";
     q_listType := match listType with Some l => l | None => "FEATURED" end;
     q_count := nmin (match count with Some c => c | None => Fin 100 end) (Fin 100);
     q_cursor := match cursor with
                 | Some c => if String.eqb c "" then None else Some c
                 | None => None
                 end |}.


(** The body of a response and its list of edges, as both transformers
    read it: [data?.exploreList?.edges]. *)
Definition edges_of (body : Value) : Value :=
  opt_prop (opt_prop body "exploreList") "edges".

(** The world after [this.lastRun = n]. *)
Definition stamped (n : Z) (w : World App) : World App :=
  mkWorld
    (set_job {| isRunning := isRunning (job (state w)); lastRun := Some n;
                nextRun := nextRun (job (state w));
                interval := interval (job (state w)) |} (state w))
    (trace w) (reads w) (calls w).

(** Events that reach the store. *)
Definition is_store (e : Event) : bool :=
  match e with
  | EvStore _ => true
  | EvGet _ => false
  end.

Definition is_get (e : Event) : bool := negb (is_store e).

(** Concrete environments and worlds for the examples: a clock that starts
    at [t0] and advances one millisecond per reading, an upstream that
    always answers [body] or always rejects and whose answers arrive in
    the order of the requests, a regular expression engine that accepts
    every pattern and matches everything, and a schema that converts
    nothing (the tokens of the examples hold strings on string paths, a
    number on [chainId] and nothing elsewhere: they need no conversion). *)
Definition ticking (t0 : Z) : nat -> Z := fun k => t0 + Z.of_nat k.

Definition answering (body : Value) : Env :=
  {| clock := ticking 1000;
     upstream := fun _ _ => Data body;
     arrival := fun k => k;
     regexp_i := fun _ => Some (fun _ => true);
     cast := fun _ _ => None |}.

Definition rejecting (msg : string) : Env :=
  {| clock := ticking 1000;
     upstream := fun _ _ => Rejected msg;
     arrival := fun k => k;
     regexp_i := fun _ => Some (fun _ => true);
     cast := fun _ _ => None |}.

Definition fresh {S} (s : S) : World S := mkWorld s [] 0 0.

(** [node.address?.toLowerCase()] when it does not throw. *)
Definition lowered (a : Value) : Value :=
  match a with
  | JStr s => JStr (toLowerCase s)
  | _ => JUndefined
  end.

(** An edge the callback of [transformTokens] gets through: the edge and
    its node are objects or other non-nullish values, and the node's
    address is absent or a string. *)
Definition well_formed_edge (edge : Value) : bool :=
  negb (nullish edge) && negb (nullish (prop edge "node")) &&
  match prop (prop edge "node") "address" with
  | JUndefined | JNull | JStr _ => true
  | _ => false
  end.

(** The object literal of [transformTokens] for a node, a list type and
    the date read for [lastUpdated]. *)
Definition record_of (listType : string) (node : Value) (date : Z) : Token :=
  {| zoraId := prop node "id";
     name := prop node "name";
     description := prop node "description";
     address := lowered (prop node "address");
     symbol := prop node "symbol";
     totalSupply := prop node "totalSupply";
     totalVolume := prop node "totalVolume";
     volume24h := prop node "volume24h";
     createdAt := if truthy (prop node "createdAt")
                  then JDate (prop node "createdAt") else JNull;
     creatorAddress := prop node "creatorAddress";
     poolCurrencyToken := prop node "poolCurrencyToken";
     tokenPrice := prop node "tokenPrice";
     marketCap := prop node "marketCap";
     marketCapDelta24h := prop node "marketCapDelta24h";
     chainId := or_else (prop node "chainId") (JNum 8453);
     tokenUri := prop node "tokenUri";
     platformReferrerAddress := prop node "platformReferrerAddress";
     payoutRecipientAddress := prop node "payoutRecipientAddress";
     creatorProfile := prop node "creatorProfile";
     mediaContent := prop node "mediaContent";
     uniqueHolders := prop node "uniqueHolders";
     uniswapV4PoolKey := prop node "uniswapV4PoolKey";
     listType := listType;
     lastUpdated := date;
     isActive := true |}.

(** The records of a list of edges whose dates are the successive
    readings of the clock from the [k]-th on. *)
Fixpoint records_of (listType : string) (clk : nat -> Z) (k : nat)
    (items : list Value) : list Token :=
  match items with
  | [] => []
  | edge :: r =>
      record_of listType (prop edge "node") (clk k) ::
      records_of listType clk (Nat.succ k) r
  end.

(** Documents of the FEATURED partition, live or not. *)
Definition featured (t : Token) : bool := String.eqb (listType t) "FEATURED".

(** The world after [deleteMany({ listType: "FEATURED" })]. *)
Definition purged (w : World App) : World App :=
  mkWorld (set_tokens (filter (fun t => negb (featured t)) (tokens (state w))) (state w))
          (trace w ++ [EvStore (DeleteMany "FEATURED")]) (reads w) (calls w).

(** Values that a [String] path and a [Number] path keep as they are. *)
Definition plain_String (v : Value) : bool :=
  match v with
  | JUndefined | JNull | JStr _ => true
  | _ => false
  end.

Definition plain_Number (v : Value) : bool :=
  match v with
  | JUndefined | JNull | JNum _ => true
  | _ => false
  end.

(** A token whose values are all of the types of their paths already:
    strings (or nothing) on the fourteen string paths, a number on
    [chainId], a number or nothing on [uniqueHolders], and nothing on the
    date and subdocument paths. *)
Definition schema_typed (t : Token) : bool :=
  plain_String (zoraId t) && plain_String (name t) && plain_String (description t) &&
  plain_String (address t) && plain_String (symbol t) && plain_String (totalSupply t) &&
  plain_String (totalVolume t) && plain_String (volume24h t) &&
  nullish (createdAt t) && plain_String (creatorAddress t) &&
  nullish (poolCurrencyToken t) && nullish (tokenPrice t) &&
  plain_String (marketCap t) && plain_String (marketCapDelta24h t) &&
  match chainId t with JNum _ | JNull => true | _ => false end &&
  plain_String (tokenUri t) && plain_String (platformReferrerAddress t) &&
  plain_String (payoutRecipientAddress t) &&
  nullish (creatorProfile t) && nullish (mediaContent t) &&
  plain_Number (uniqueHolders t) && nullish (uniswapV4PoolKey t).

(** Documents with their timestamps, the dates being the successive
    readings of the clock from the [k]-th on. *)
Fixpoint dated (clk : nat -> Z) (k : nat) (ds : list Token) : list Token :=
  match ds with
  | [] => []
  | d :: r => TokenModel.initializeTimestamps (clk k) d :: dated clk (Nat.succ k) r
  end.

(** The world after an [insertMany] of [n] documents left [coll] behind. *)
Definition stored (n : nat) (coll : list Token) (w : World App) : World App :=
  mkWorld (set_tokens coll (state w))
          (trace w ++ [EvStore (InsertMany n)]) (n + reads w) (calls w).

(** The three steps shared by [runRefresh], [refreshFeaturedTokens] and the
    controller's [refreshTokens]: fetch, transform, replace. *)
Definition cycle : M App TokenService.ReplaceResult :=
  zoraData <- ZoraService.fetchExploreTokens (Some "FEATURED") (Some (Fin 100)) None ;;
  transformedTokens <- ZoraService.transformTokens zoraData "FEATURED" ;;
  TokenService.replaceFeaturedTokens (Some transformedTokens).

(** The request of the file-backed server. *)
Definition simple_request : Request :=
  {| url := "https://api-sdk.zora.engineering/explore";
     q_listType := "FEATURED"; q_count := Fin 100; q_cursor := None |}.

(** How many requests a trace holds. *)
Definition requests (tr : list Event) : nat := List.length (filter is_get tr).

(** Sample data for the examples: an upstream node, its edge, a response
    around a list of edges, and a document already in the collection. *)
Definition node_of (i : Z) (addr : string) : Value :=
  JObj [("id", JStr ("zora-" ++ NilZero.string_of_int (Z.to_int i)));
        ("name", JStr "Token");
        ("address", JStr addr)].

Definition edge_of (node : Value) : Value := JObj [("node", node)].

Definition response_of (edges : list Value) : Value :=
  JObj [("exploreList", JObj [("edges", JArr edges)])].

Definition old_token : Token := record_of "FEATURED" (node_of 7 "0x0a") 500.

Definition started (t0 : Z) : Job :=
  {| isRunning := true; lastRun := Some t0; nextRun := None;
     interval := Some (5 * 60 * 1000) |}.

(** The job as [start] leaves it just before its first [runRefresh]. *)
Definition starting : Job :=
  {| isRunning := true; lastRun := None; nextRun := None;
     interval := Some (5 * 60 * 1000) |}.

(** Two code units that are the same letter, in whatever case. *)
Definition same_letter (c d : ascii) : bool :=
  Ascii.eqb c d || Ascii.eqb (lower_unit c) d || Ascii.eqb (lower_unit d) c.

(** [q] spells [a] letter for letter, each letter in either case. *)
Fixpoint case_variant (a q : string) : bool :=
  match a, q with
  | EmptyString, EmptyString => true
  | String c a', String d q' => same_letter c d && case_variant a' q'
  | _, _ => false
  end.

(** The world after [findOne] looked an address up. *)
Definition looked_up (addr : string) (w : World App) : World App :=
  mkWorld (state w) (trace w ++ [EvStore (FindOne addr)]) (reads w) (calls w).

(** The live documents of a list type in the order the listing serves
    them. *)
Definition listing (lt : string) (w : World App) : list Token :=
  TokenModel.sort_desc (filter (TokenModel.live_of lt) (tokens (state w))).

(** The world after the [find] and the [countDocuments] of a listing. *)
Definition queried (lt : string) (w : World App) : World App :=
  mkWorld (state w)
          ((trace w ++ [EvStore (Find lt)]) ++ [EvStore (CountDocuments lt)])
          (reads w) (calls w).

(** The world after [loadTokens]. *)
Definition loaded (d : World SimpleServer.Disk) : World SimpleServer.Disk :=
  mkWorld (state d) (trace d ++ [EvStore ReadFile]) (reads d) (calls d).

(** Forty-five live FEATURED documents, and as many file entries. *)
Definition many_tokens : list Token :=
  map (fun i => record_of "FEATURED" (node_of (Z.of_nat i) "0xAB") (Z.of_nat i))
      (seq 1 45).

Definition many_entries : list SimpleServer.Entry :=
  map (fun i =>
         SimpleServer.mkEntry (Z.of_nat i) (JStr "Token") (JStr "") (JStr "0xab")
           JUndefined JUndefined JUndefined JUndefined JUndefined JUndefined
           JUndefined 1000)
      (seq 1 45).

(** The public methods of the job, as calls whose settlement is dropped,
    and a sequence of such calls. *)
Inductive JobCall : Type :=
| CallStart (intervalMinutes : option Z)
| CallStop
| CallRunRefresh
| CallForceRefresh
| CallRefreshFeaturedTokens.

Definition perform (c : JobCall) : M App unit :=
  match c with
  | CallStart m => DataRefreshJob.start m
  | CallStop => DataRefreshJob.stop
  | CallRunRefresh => (_ <- settled DataRefreshJob.runRefresh ;; ret tt)
  | CallForceRefresh => (_ <- settled DataRefreshJob.forceRefresh ;; ret tt)
  | CallRefreshFeaturedTokens =>
      (_ <- settled DataRefreshJob.refreshFeaturedTokens ;; ret tt)
  end.

Fixpoint perform_all (cs : list JobCall) : M App unit :=
  match cs with
  | [] => ret tt
  | c :: r => perform c ;;; perform_all r
  end.

(** The job with another [lastRun]. *)
Definition with_lastRun (l : option Z) (j : Job) : Job :=
  {| isRunning := isRunning j; lastRun := l; nextRun := nextRun j;
     interval := interval j |}.

(** What holds of the job after any sequence of calls of its methods on a
    new instance: [nextRun] was never set, and the timer is armed exactly
    when [isRunning] is set. *)
Definition job_invariant (j : Job) : Prop :=
  nextRun j = None /\ (isRunning j = true <-> interval j <> None).

(** The tokens of one page of a listing, as [getTokensByListType] serves
    them (nothing when it throws). *)
Definition page_of (env : Env) (lt : string) (p l : Z) (w : World App) : list Token :=
  match fst (TokenService.getTokensByListType lt (Some (Fin p)) (Some (Fin l)) env w) with
  | Return pg => TokenService.page_tokens pg
  | Throw _ => []
  end.

(** The entries of one page of the file-backed listing. *)
Definition file_page_of (env : Env) (p l : string) (d : World SimpleServer.Disk)
    : list SimpleServer.Entry :=
  match fst (SimpleServer.getFeatured (mkQuery None (Some p) (Some l) None) env d) with
  | Return (Ok body) => SimpleServer.f_data body
  | _ => []
  end.

(** The world after the store was searched for a pattern. *)
Definition searched (pattern : string) (w : World App) : World App :=
  mkWorld (state w) (trace w ++ [EvStore (Search pattern)]) (reads w) (calls w).

(** A token that a search keeps: live, one of its three text fields
    passing the test, and of the list type when one is given. *)
Definition search_hit (test : string -> bool) (lt : option string) (t : Token) : bool :=
  isActive t &&
  (TokenModel.field_matches test (name t) || TokenModel.field_matches test (symbol t) ||
   TokenModel.field_matches test (description t)) &&
  match lt with
  | Some l => String.eqb (listType t) l
  | None => true
  end.

(** [if (listType)]: an empty list type is no filter. *)
Definition given (lt : option string) : option string :=
  match lt with
  | Some l => if String.eqb l "" then None else Some l
  | None => None
  end.

(** The cutoff of an aging sweep of [days] days that reads the clock at
    [n]. *)
Definition cutoff_of (days : option Z) (n : Z) : Z :=
  n - (match days with Some x => x | None => 7 end) * 24 * 60 * 60 * 1000.

(** Newest first. *)
Definition newer (a b : Token) : Prop := lastUpdated b <= lastUpdated a.

(** A clock for the sweep examples: seven days and 600 ms after the
    epoch, so that a sweep of seven days cuts at 600. *)
Definition week_later : Env :=
  {| clock := ticking (7 * 24 * 60 * 60 * 1000 + 600);
     upstream := fun _ _ => Rejected "";
     arrival := fun k => k;
     regexp_i := fun _ => None;
     cast := fun _ _ => None |}.

Definition boundary_token : Token := record_of "FEATURED" (node_of 8 "0x0b") 600.

(** The value an object built by [reduce] holds under a key. *)
Fixpoint entry_of (k : string) (o : list (string * Z)) : option Z :=
  match o with
  | [] => None
  | (k', v) :: r => if String.eqb k k' then Some v else entry_of k r
  end.

Definition sum_of (o : list (string * Z)) : Z :=
  fold_right (fun g acc => snd g + acc) 0 o.

(** How many tokens of a list have the list type [lt]. *)
Definition count_of (lt : string) (l : list Token) : Z :=
  Z.of_nat (List.length (filter (fun t => String.eqb (listType t) lt) l)).

(** What a fetch settles to when its request is the [k]-th: the body, or
    the error that [fetchExploreTokens] makes of the rejection. *)
Definition settles_to (env : Env) (k : nat) (r : Request) : Outcome Value :=
  match upstream env k r with
  | Data body => Return body
  | Rejected msg =>
      Throw (Error ("Failed to fetch " ++ q_listType r ++ " tokens: " ++ msg))
  end.

(** The settlements of fetches whose requests go out from the [k]-th on,
    and the world after those requests. *)
Fixpoint settlements (env : Env) (k : nat) (rs : list Request) : list (Outcome Value) :=
  match rs with
  | [] => []
  | r :: rest => settles_to env k r :: settlements env (Nat.succ k) rest
  end.

Fixpoint sent_all {S} (rs : list Request) (w : World S) : World S :=
  match rs with
  | [] => w
  | r :: rest => sent_all rest (sent r w)
  end.

(** The four list types [fetchAllListTypes] asks for, in its order, and
    the request it sends for each. *)
Definition all_listTypes : list string :=
  ["NEW"; "MOST_VALUABLE"; "TOP_GAINERS"; "FEATURED"].

Definition requests_for (count : Num) : list Request :=
  map (fun lt => request_of (Some lt) (Some count) None) all_listTypes.

(** The object literal of [fetchTokens] for a node, the index of its edge
    and the date read for [lastUpdated]. *)
Definition entry_at (index : Z) (node : Value) (date : Z) : SimpleServer.Entry :=
  {| SimpleServer.id := index + 1;
     SimpleServer.name := or_else (prop node "name") (JStr "Unnamed Token");
     SimpleServer.description := or_else (prop node "description") (JStr "");
     SimpleServer.address := lowered (prop node "address");
     SimpleServer.symbol := prop node "symbol";
     SimpleServer.marketCap := prop node "marketCap";
     SimpleServer.volume24h := prop node "volume24h";
     SimpleServer.uniqueHolders := prop node "uniqueHolders";
     SimpleServer.creatorProfile := prop node "creatorProfile";
     SimpleServer.mediaContent := prop node "mediaContent";
     SimpleServer.createdAt := prop node "createdAt";
     SimpleServer.lastUpdated := date |}.

Fixpoint entries_of (clk : nat -> Z) (k : nat) (index : Z) (items : list Value)
    : list SimpleServer.Entry :=
  match items with
  | [] => []
  | edge :: r =>
      entry_at index (prop edge "node") (clk k) ::
      entries_of clk (Nat.succ k) (index + 1) r
  end.

(** The world after [fetchTokens] wrote [toks], the response having held
    [n] edges. *)
Definition written (env : Env) (n : nat) (toks : list SimpleServer.Entry)
    (d : World SimpleServer.Disk) : World SimpleServer.Disk :=
  mkWorld (Some {| SimpleServer.tokens := toks;
                   SimpleServer.file_lastUpdated := clock env (n + reads d);
                   SimpleServer.count := Z.of_nat (List.length toks) |})
          ((trace d ++ [EvGet simple_request]) ++ [EvStore WriteFile])
          (Nat.succ (n + reads d)) (Nat.succ (calls d)).

(** An entry whose address the address route can compare: falsy, or a
    string. *)
Definition comparable (e : SimpleServer.Entry) : bool :=
  match SimpleServer.address e with
  | JStr _ => true
  | v => negb (truthy v)
  end.

(** The test of the address route on such an entry. *)
Definition answers_to (q : string) (e : SimpleServer.Entry) : bool :=
  match SimpleServer.address e with
  | JStr s => negb (String.eqb s "") && String.eqb (toLowerCase s) (toLowerCase q)
  | _ => false
  end.

(** How many edges at the head of a list are well formed. *)
Fixpoint leading (items : list Value) : nat :=
  match items with
  | [] => 0
  | edge :: r => if well_formed_edge edge then Nat.succ (leading r) else 0
  end.

(** The entries a route of the file-backed server works on: those of the
    file, none when there is no file. *)
Definition file_entries (d : World SimpleServer.Disk) : list SimpleServer.Entry :=
  match state d with
  | Some f => SimpleServer.tokens f
  | None => []
  end.

(** A field [field?.match] accepts: absent or a string. *)
Definition matchable (field : Value) : bool :=
  match field with
  | JUndefined | JNull | JStr _ => true
  | _ => false
  end.

(** An entry the search of the file-backed server gets through. *)
Definition searchable (e : SimpleServer.Entry) : bool :=
  matchable (SimpleServer.name e) && matchable (SimpleServer.symbol e) &&
  matchable (SimpleServer.description e).

(** The condition of that search on such an entry. *)
Definition entry_hit (test : string -> bool) (e : SimpleServer.Entry) : bool :=
  TokenModel.field_matches test (SimpleServer.name e) ||
  TokenModel.field_matches test (SimpleServer.symbol e) ||
  TokenModel.field_matches test (SimpleServer.description e).
(* ===================================================================== *)
(** ** Running computations *)
(* ===================================================================== *)

(** Case analysis on the three steps of a cycle, in order; each goal is
    closed by computation. *)
Ltac by_steps :=
  repeat match goal with
         | |- context [match ?c ?env ?w with _ => _ end] =>
             lazymatch c with
             | ZoraService.fetchExploreTokens _ _ _ => idtac
             | ZoraService.transformTokens _ _ => idtac
             | TokenService.replaceFeaturedTokens _ => idtac
             end;
             let o := fresh "o" in
             let w' := fresh "w" in
             destruct (c env w) as [[o | o] w']
         end;
  reflexivity.

Section Runs.

Variable env : Env.

Lemma bind_Return {S A B} (c : M S A) (k : A -> M S B) (w w' : World S) (a : A) :
  c env w = (Return a, w') -> bind c k env w = k a env w'.
Proof. intros H. unfold bind. rewrite H. reflexivity. Qed.

Lemma bind_Throw {S A B} (c : M S A) (k : A -> M S B) (w w' : World S) (e : Exn) :
  c env w = (Throw e, w') -> bind c k env w = (Throw e, w').
Proof. intros H. unfold bind. rewrite H. reflexivity. Qed.

Lemma member_run {S} (v : Value) (k : string) (w : World S) :
  nullish v = false -> member v k env w = (Return (prop v k), w).
Proof. intros H. destruct v; try discriminate; reflexivity. Qed.

Lemma member_throws {S} (v : Value) (k : string) (w : World S) :
  nullish v = true ->
  exists msg, member v k env w = (Throw (TypeError msg), w).
Proof. intros H. destruct v; try discriminate; eexists; reflexivity. Qed.

Lemma later_later {S} (n m : nat) (w : World S) :
  later n (later m w) = later (n + m) w.
Proof. unfold later. cbn. f_equal. lia. Qed.

Lemma later_0 {S} (w : World S) : later 0 w = w.
Proof. destruct w. reflexivity. Qed.

Lemma fetchExploreTokens_run {S} (listType : option string) (count : option Num)
    (cursor : option string) (w : World S) :
  ZoraService.fetchExploreTokens listType count cursor env w =
  let r := request_of listType count cursor in
  match upstream env (calls w) r with
  | Data body => (Return body, sent r w)
  | Rejected msg =>
      (Throw (Error ("Failed to fetch " ++ q_listType r ++ " tokens: " ++ msg)), sent r w)
  end.
Proof.
  unfold ZoraService.fetchExploreTokens, try_catch, bind, http_get, request_of, sent.
  cbn.
  destruct (upstream env (calls w) _); reflexivity.
Qed.

Lemma nmin_cap (c : Num) : ngt (nmin c (Fin 100)) (Fin 100) = false.
Proof.
  destruct c; cbn; try reflexivity.
  apply Z.ltb_ge. apply Z.le_min_r.
Qed.

Lemma in_cooldown_frame (w w1 : World App) (b : Outcome bool) :
  DataRefreshJob.in_cooldown env w = (b, w1) ->
  state w1 = state w /\ trace w1 = trace w /\ calls w1 = calls w /\
  exists skip, b = Return skip.
Proof.
  unfold DataRefreshJob.in_cooldown, DataRefreshJob.this, bind, get_state, ret, now.
  cbn.
  destruct (isRunning (job (state w))); [| intros [= <- <-]; eauto].
  destruct (lastRun (job (state w))) as [t |]; [| intros [= <- <-]; eauto].
  destruct (t =? 0); intros [= <- <-]; cbn; eauto.
Qed.

(** A started job with a non-zero [lastRun] less than the cooldown ago:
    the guard holds and one reading of the clock is all that happened. *)
Lemma in_cooldown_true (w : World App) (t0 : Z) :
  isRunning (job (state w)) = true ->
  lastRun (job (state w)) = Some t0 ->
  t0 <> 0 ->
  clock env (reads w) - t0 < DataRefreshJob.cooldown ->
  DataRefreshJob.in_cooldown env w = (Return true, later 1 w).
Proof.
  intros Hrun Hlast Hnz Hlt.
  unfold DataRefreshJob.in_cooldown, DataRefreshJob.this, bind, get_state, ret, now.
  cbn. rewrite Hrun, Hlast.
  destruct (Z.eqb_spec t0 0) as [-> | _]; [congruence |].
  apply Z.ltb_lt in Hlt. unfold DataRefreshJob.cooldown in Hlt.
  cbn in Hlt |- *. rewrite Hlt. reflexivity.
Qed.

Lemma runRefresh_skips (w : World App) (t0 : Z) :
  isRunning (job (state w)) = true ->
  lastRun (job (state w)) = Some t0 ->
  t0 <> 0 ->
  clock env (reads w) - t0 < DataRefreshJob.cooldown ->
  DataRefreshJob.runRefresh env w = (Return None, later 1 w).
Proof.
  intros Hrun Hlast Hnz Hlt.
  unfold DataRefreshJob.runRefresh, bind at 1.
  rewrite (in_cooldown_true w t0) by assumption. reflexivity.
Qed.

(** A call that passes the guard stamps [lastRun] and then runs the cycle
    in its try block. *)
Lemma runRefresh_runs (w w1 : World App) :
  DataRefreshJob.in_cooldown env w = (Return false, w1) ->
  DataRefreshJob.runRefresh env w =
  try_catch
    (zoraData <- ZoraService.fetchExploreTokens (Some "FEATURED") (Some (Fin 100)) None ;;
     transformedTokens <- ZoraService.transformTokens zoraData "FEATURED" ;;
     result <- TokenService.replaceFeaturedTokens (Some transformedTokens) ;;
     ret (Some result))
    (fun error => throw error)
    env (stamped (clock env (reads w1)) (later 1 w1)).
Proof.
  intros Hg.
  unfold DataRefreshJob.runRefresh, bind at 1. rewrite Hg.
  reflexivity.
Qed.

Lemma transformEdge_run {S} (listType : string) (edge : Value) (w : World S) :
  well_formed_edge edge = true ->
  ZoraService.transformEdge listType edge env w =
  (Return (record_of listType (prop edge "node") (clock env (reads w))), later 1 w).
Proof.
  unfold well_formed_edge. intros H.
  apply andb_prop in H. destruct H as [H Ha].
  apply andb_prop in H. destruct H as [He Hn].
  apply negb_true_iff in He. apply negb_true_iff in Hn.
  unfold ZoraService.transformEdge.
  rewrite (bind_Return _ _ _ _ _ (member_run edge "node" w He)).
  set (node := prop edge "node") in *.
  repeat rewrite (bind_Return _ _ _ _ _ (member_run node _ w Hn)).
  assert (Haddr :
    (a <- member node "address" ;;
     if nullish a then ret JUndefined
     else match a with
          | JStr s => ret (JStr (toLowerCase s))
          | _ => throw (TypeError "node.address?.toLowerCase is not a function")
          end) env w = (Return (lowered (prop node "address")), w)).
  { rewrite (bind_Return _ _ _ _ _ (member_run node _ w Hn)).
    destruct (prop node "address"); try discriminate; reflexivity. }
  rewrite (bind_Return _ _ _ _ _ Haddr).
  repeat rewrite (bind_Return _ _ _ _ _ (member_run node _ w Hn)).
  reflexivity.
Qed.

Lemma transformEdges_run {S} (listType : string) (items : list Value) :
  forallb well_formed_edge items = true ->
  forall w : World S,
  mapM (ZoraService.transformEdge listType) items env w =
  (Return (records_of listType (clock env) (reads w) items),
   later (List.length items) w).
Proof.
  induction items as [| edge r IH]; intros Hwf w.
  - cbn. rewrite later_0. reflexivity.
  - cbn in Hwf. apply andb_prop in Hwf. destruct Hwf as [He Hr].
    cbn [mapM].
    rewrite (bind_Return _ _ _ _ _ (transformEdge_run listType edge w He)).
    rewrite (bind_Return _ _ _ _ _ (IH Hr (later 1 w))).
    unfold ret. rewrite later_later. cbn [records_of List.length].
    repeat f_equal. lia.
Qed.

Lemma records_of_length (listType : string) (clk : nat -> Z) (items : list Value) :
  forall k, List.length (records_of listType clk k items) = List.length items.
Proof.
  induction items as [| e r IH]; intros k; cbn; [reflexivity | now rewrite IH].
Qed.

(** A response without edges (no list, or an empty one) transforms into
    the empty list and leaves the world alone. *)
Lemma transformTokens_empty {S} (body : Value) (listType : string) (w : World S) :
  truthy (edges_of body) = false \/ edges_of body = JArr [] ->
  ZoraService.transformTokens body listType env w = (Return [], w).
Proof.
  unfold ZoraService.transformTokens. fold (edges_of body).
  intros [H | H]; rewrite H; reflexivity.
Qed.

Lemma replace_nothing (w : World App) (toks : option (list Token)) :
  toks = None \/ toks = Some [] ->
  TokenService.replaceFeaturedTokens toks env w =
  (Return (TokenService.NotStored "No tokens to store"), w).
Proof. intros [-> | ->]; reflexivity. Qed.

Lemma stamping_run (ds : list Token) :
  forall w : World App,
  mapM (fun d => date <- now ;; ret (TokenModel.initializeTimestamps date d)) ds env w =
  (Return (dated (clock env) (reads w) ds), later (List.length ds) w).
Proof.
  induction ds as [| d r IH]; intros w.
  - cbn. rewrite later_0. reflexivity.
  - cbn [mapM dated List.length].
    assert (Hstep : (date <- now ;; ret (TokenModel.initializeTimestamps date d)) env w =
                    (Return (TokenModel.initializeTimestamps (clock env (reads w)) d),
                     later 1 w)) by reflexivity.
    rewrite (bind_Return _ _ _ _ _ Hstep).
    rewrite (bind_Return _ _ _ _ _ (IH (later 1 w))).
    unfold ret. rewrite later_later.
    cbn [later reads]. repeat f_equal; lia.
Qed.

Lemma documents_length (docs : list Token) :
  forall ds, TokenModel.documents env docs = Some ds -> List.length ds = List.length docs.
Proof.
  induction docs as [| t r IH]; intros ds H; cbn in H.
  - injection H as <-. reflexivity.
  - destruct (TokenModel.document env t); [| discriminate].
    destruct (TokenModel.documents env r) as [ds' |]; [| discriminate].
    injection H as <-. cbn. now rewrite (IH ds').
Qed.

Lemma dated_length (clk : nat -> Z) (ds : list Token) :
  forall k, List.length (dated clk k ds) = List.length ds.
Proof.
  induction ds as [| d r IH]; intros k; cbn; [reflexivity | now rewrite IH].
Qed.

(** [insertMany], step by step. *)
Lemma insertMany_run (w : World App) (docs : list Token) :
  TokenModel.insertMany docs env w =
  match TokenModel.documents env docs with
  | None => (Throw (TokenModel.ValidationError "Token validation failed"), w)
  | Some ds =>
      let new := dated (clock env) (reads w) ds in
      let '(coll, ok) := TokenModel.insert_ordered (tokens (state w)) new in
      if ok then (Return new, stored (List.length docs) coll w)
      else (Throw (TokenModel.MongoError
                     "E11000 duplicate key error collection: tokens index: zoraId_1"),
            stored (List.length docs) coll w)
  end.
Proof.
  unfold TokenModel.insertMany.
  rewrite (bind_Return ask _ w w env eq_refl).
  destruct (TokenModel.documents env docs) as [ds |] eqn:Hd; [| reflexivity].
  rewrite (bind_Return _ _ _ _ _ (stamping_run ds w)).
  cbv zeta. unfold bind, emit, get_state, put_state, ret, throw, stored, later.
  cbn [state trace reads calls].
  rewrite (documents_length docs ds Hd).
  destruct (TokenModel.insert_ordered (tokens (state w)) _) as [coll ok].
  destruct ok; reflexivity.
Qed.

(** What a replace with at least one token does, step by step. *)
Lemma replace_run (w : World App) (toks : list Token) :
  toks <> [] ->
  TokenService.replaceFeaturedTokens (Some toks) env w =
  let deleted := Z.of_nat (List.length (filter featured (tokens (state w)))) in
  let n := List.length toks in
  match TokenModel.documents env toks with
  | Some ds =>
      let '(coll, ok) :=
        TokenModel.insert_ordered (tokens (state (purged w)))
          (dated (clock env) (reads w) ds) in
      if ok then
        (Return (TokenService.Replaced deleted (Z.of_nat n) (Z.of_nat n)),
         stored n coll (purged w))
      else
        (Throw (Error ("Failed to replace FEATURED tokens: " ++
                       "E11000 duplicate key error collection: tokens index: zoraId_1")),
         stored n coll (purged w))
  | None =>
      (Throw (Error ("Failed to replace FEATURED tokens: " ++ "Token validation failed")),
       purged w)
  end.
Proof.
  intros Hne. destruct toks as [| t r]; [congruence |].
  assert (Hdel : TokenModel.deleteMany "FEATURED" env w =
                 (Return (Z.of_nat (List.length (filter featured (tokens (state w))))),
                  purged w)) by reflexivity.
  unfold TokenService.replaceFeaturedTokens. cbv iota beta.
  set (docs := t :: r).
  unfold try_catch. rewrite (bind_Return _ _ _ _ _ Hdel).
  unfold bind at 1. rewrite insertMany_run. cbv zeta.
  destruct (TokenModel.documents env docs) as [ds |] eqn:Hd; [| reflexivity].
  change (reads (purged w)) with (reads w).
  destruct (TokenModel.insert_ordered _ _) as [coll ok].
  destruct ok; [| reflexivity].
  unfold ret. rewrite dated_length, (documents_length docs ds Hd). reflexivity.
Qed.

Lemma insert_ordered_ok (docs : list Token) :
  forall coll coll', TokenModel.insert_ordered coll docs = (coll', true) ->
  coll' = (coll ++ docs)%list.
Proof.
  induction docs as [| d r IH]; intros coll coll' H; cbn in H.
  - injection H as <-. now rewrite app_nil_r.
  - destruct (existsb (TokenModel.same_zoraId d) coll); [discriminate |].
    apply IH in H. rewrite H, <- app_assoc. reflexivity.
Qed.

Lemma transformEdge_TypeError {S} (listType : string) (edge : Value) (w : World S) :
  well_formed_edge edge = false ->
  exists msg, ZoraService.transformEdge listType edge env w = (Throw (TypeError msg), w).
Proof.
  unfold well_formed_edge. intros H.
  unfold ZoraService.transformEdge.
  destruct (nullish edge) eqn:He.
  { destruct (member_throws edge "node" w He) as [msg Hm].
    exists msg. apply bind_Throw. exact Hm. }
  rewrite (bind_Return _ _ _ _ _ (member_run edge "node" w He)).
  set (node := prop edge "node") in *.
  destruct (nullish node) eqn:Hn.
  { destruct (member_throws node "id" w Hn) as [msg Hm].
    exists msg. apply bind_Throw. exact Hm. }
  cbn in H.
  repeat rewrite (bind_Return _ _ _ _ _ (member_run node _ w Hn)).
  eexists. apply bind_Throw.
  rewrite (bind_Return _ _ _ _ _ (member_run node _ w Hn)).
  destruct (prop node "address"); try discriminate; reflexivity.
Qed.

Lemma transformEdge_throws {S} (listType : string) (edge : Value) (w : World S) :
  well_formed_edge edge = false ->
  exists e, ZoraService.transformEdge listType edge env w = (Throw e, w).
Proof.
  intros H. destruct (transformEdge_TypeError listType edge w H) as [msg Hm]. eauto.
Qed.

(** Whatever the edges, transforming reads the clock and nothing else. *)
Lemma transformEdges_frame {S} (listType : string) (items : list Value) :
  forall (w w' : World S) o,
  mapM (ZoraService.transformEdge listType) items env w = (o, w') ->
  exists n, w' = later n w.
Proof.
  induction items as [| edge r IH]; intros w w' o H.
  - cbn in H. injection H as <- <-. exists 0%nat. now rewrite later_0.
  - cbn [mapM] in H.
    destruct (well_formed_edge edge) eqn:Hwf.
    + rewrite (bind_Return _ _ _ _ _ (transformEdge_run listType edge w Hwf)) in H.
      unfold bind in H.
      destruct (mapM _ r env (later 1 w)) as [[bs | e] w2] eqn:Hr.
      * apply IH in Hr. destruct Hr as [n ->].
        cbn in H. injection H as <- <-. exists (n + 1)%nat. apply later_later.
      * apply IH in Hr. destruct Hr as [n ->].
        injection H as <- <-. exists (n + 1)%nat. apply later_later.
    + destruct (transformEdge_throws listType edge w Hwf) as [e He].
      rewrite (bind_Throw _ _ _ _ _ He) in H.
      injection H as <- <-. exists 0%nat. now rewrite later_0.
Qed.

Lemma transformTokens_frame {S} (body : Value) (listType : string) (w w' : World S) o :
  ZoraService.transformTokens body listType env w = (o, w') ->
  exists n, w' = later n w.
Proof.
  unfold ZoraService.transformTokens. intros H.
  destruct (negb (truthy _)).
  - injection H as <- <-. exists 0%nat. now rewrite later_0.
  - destruct (opt_prop _ "edges");
      try (injection H as <- <-; exists 0%nat; now rewrite later_0).
    eapply transformEdges_frame; eassumption.
Qed.

(** A replace touches the collection and reads the clock: the job
    stays, no request goes out, and what it adds to the trace are store
    operations. *)
Lemma replace_frame (toks : option (list Token)) (w w' : World App) o :
  TokenService.replaceFeaturedTokens toks env w = (o, w') ->
  job (state w') = job (state w) /\ calls w' = calls w /\
  exists evs, trace w' = (trace w ++ evs)%list /\ forallb is_store evs = true.
Proof.
  intros H.
  assert (Hnil : toks = None \/ toks = Some [] \/ exists l, toks = Some l /\ l <> []).
  { destruct toks as [[| t r] |]; eauto.
    right; right. eexists; split; [reflexivity | congruence]. }
  destruct Hnil as [Hn | [Hn | (l & -> & Hne)]].
  1,2: rewrite replace_nothing in H by auto; injection H as <- <-;
       repeat split; exists []; now rewrite app_nil_r.
  rewrite (replace_run w l Hne) in H. cbv zeta in H.
  destruct (TokenModel.documents env l) as [ds |].
  - destruct (TokenModel.insert_ordered _ _) as [coll ok].
    assert (Hw : w' = stored (List.length l) coll (purged w)) by (destruct ok; congruence).
    subst w'. cbn. repeat split.
    eexists. rewrite <- app_assoc. split; reflexivity.
  - injection H as <- <-. cbn. repeat split. eexists; split; reflexivity.
Qed.

(** One cycle sends exactly one request, the capped FEATURED one, and
    never touches the job. *)
Lemma cycle_frame (w w' : World App) o :
  cycle env w = (o, w') ->
  job (state w') = job (state w) /\
  exists evs, trace w' = (trace w ++ EvGet featured_request :: evs)%list /\
              forallb is_store evs = true.
Proof.
  unfold cycle, bind at 1. rewrite fetchExploreTokens_run. cbv zeta.
  change (request_of (Some "FEATURED") (Some (Fin 100)) None) with featured_request.
  destruct (upstream env (calls w) featured_request) as [body | msg].
  - unfold bind.
    destruct (ZoraService.transformTokens body "FEATURED" env (sent featured_request w))
      as [[toks | e] w2] eqn:Ht.
    + destruct (transformTokens_frame _ _ _ _ _ Ht) as [n ->].
      intros Hr. apply replace_frame in Hr.
      destruct Hr as (Hj & _ & evs & Htr & Hst).
      split; [exact Hj |].
      exists evs. split; [| exact Hst].
      rewrite Htr. cbn. now rewrite <- app_assoc.
    + destruct (transformTokens_frame _ _ _ _ _ Ht) as [n ->].
      intros [= <- <-]. split; [reflexivity |].
      exists []. split; reflexivity.
  - intros [= <- <-]. split; [reflexivity |].
    exists []. split; reflexivity.
Qed.

(** A call of [runRefresh] that passes the guard is the cycle, run after
    the stamp. *)
Lemma runRefresh_cycle (w w1 : World App) :
  DataRefreshJob.in_cooldown env w = (Return false, w1) ->
  DataRefreshJob.runRefresh env w =
  match cycle env (stamped (clock env (reads w1)) (later 1 w1)) with
  | (Return r, w') => (Return (Some r), w')
  | (Throw e, w') => (Throw e, w')
  end.
Proof.
  intros Hg. rewrite (runRefresh_runs w w1 Hg).
  unfold try_catch, cycle, bind, ret, throw.
  by_steps.
Qed.

(** Such a call leaves its own start time in [lastRun]. *)
Lemma runRefresh_stamps (w w0 w1 : World App) o :
  DataRefreshJob.in_cooldown env w = (Return false, w0) ->
  DataRefreshJob.runRefresh env w = (o, w1) ->
  lastRun (job (state w1)) = Some (clock env (reads w0)).
Proof.
  intros Hg H. rewrite (runRefresh_cycle w w0 Hg) in H.
  destruct (cycle env _) as [oc wc] eqn:Hc.
  apply cycle_frame in Hc. destruct Hc as (Hj & _).
  assert (Hw : w1 = wc) by (destruct oc; congruence). subst wc.
  rewrite Hj. reflexivity.
Qed.

Lemma requests_app (tr evs : list Event) :
  requests (tr ++ evs) = (requests tr + requests evs)%nat.
Proof. unfold requests. rewrite filter_app, length_app. reflexivity. Qed.

Lemma requests_store (evs : list Event) :
  forallb is_store evs = true -> requests evs = 0%nat.
Proof.
  induction evs as [| e r IH]; [reflexivity |].
  cbn. intros H. apply andb_prop in H. destruct H as [He Hr].
  unfold requests, is_get in *. cbn. rewrite He. cbn. auto.
Qed.

Lemma store_events_app (tr evs : list Event) :
  forallb is_get evs = true -> filter is_store (tr ++ evs) = filter is_store tr.
Proof.
  intros H. rewrite filter_app.
  assert (Hn : filter is_store evs = []).
  { induction evs as [| e r IH]; [reflexivity |].
    cbn in H. apply andb_prop in H. destruct H as [He Hr].
    cbn. unfold is_get in He. apply negb_true_iff in He. rewrite He. auto. }
  rewrite Hn. apply app_nil_r.
Qed.

Lemma cycle_data (w : World App) (body : Value) :
  upstream env (calls w) featured_request = Data body ->
  cycle env w =
  (transformedTokens <- ZoraService.transformTokens body "FEATURED" ;;
   TokenService.replaceFeaturedTokens (Some transformedTokens))
    env (sent featured_request w).
Proof.
  intros H. unfold cycle, bind at 1. rewrite fetchExploreTokens_run. cbv zeta.
  change (request_of (Some "FEATURED") (Some (Fin 100)) None) with featured_request.
  rewrite H. reflexivity.
Qed.

Lemma cycle_rejected (w : World App) (msg : string) :
  upstream env (calls w) featured_request = Rejected msg ->
  cycle env w =
  (Throw (Error ("Failed to fetch FEATURED tokens: " ++ msg)), sent featured_request w).
Proof.
  intros H. unfold cycle, bind at 1. rewrite fetchExploreTokens_run. cbv zeta.
  change (request_of (Some "FEATURED") (Some (Fin 100)) None) with featured_request.
  rewrite H. reflexivity.
Qed.

Lemma refreshFeaturedTokens_cycle (w : World App) :
  DataRefreshJob.refreshFeaturedTokens env w = cycle env w.
Proof.
  unfold DataRefreshJob.refreshFeaturedTokens, try_catch, cycle, bind, ret, throw.
  by_steps.
Qed.

Lemma refreshTokens_cycle (w : World App) :
  TokenController.refreshTokens env w =
  match cycle env w with
  | (Return r, w') => (Return (Ok r), w')
  | (Throw e, w') =>
      (Return (Failed 500 "Failed to refresh FEATURED tokens" (Some (message e))), w')
  end.
Proof.
  unfold TokenController.refreshTokens, try_catch, cycle, bind, ret, throw.
  by_steps.
Qed.

(** Any call of [runRefresh] keeps [isRunning] and sends at most one
    request. *)
Lemma runRefresh_frame (w w' : World App) o :
  DataRefreshJob.runRefresh env w = (o, w') ->
  isRunning (job (state w')) = isRunning (job (state w)) /\
  (requests (trace w') <= requests (trace w) + 1)%nat.
Proof.
  intros H.
  destruct (DataRefreshJob.in_cooldown env w) as [b w1] eqn:Hg.
  destruct (in_cooldown_frame w w1 b Hg) as (Hs & Ht & _ & skip & ->).
  destruct skip.
  - unfold DataRefreshJob.runRefresh, bind at 1 in H. rewrite Hg in H.
    injection H as <- <-. rewrite Hs, Ht. split; [reflexivity | lia].
  - rewrite (runRefresh_cycle w w1 Hg) in H.
    destruct (cycle env _) as [oc wc] eqn:Hc.
    apply cycle_frame in Hc. destruct Hc as (Hj & evs & Htr & Hst).
    assert (Hw : w' = wc) by (destruct oc; congruence). subst wc.
    assert (Htr0 : trace (stamped (clock env (reads w1)) (later 1 w1)) = trace w)
      by exact Ht.
    split.
    + rewrite Hj. cbn. now rewrite Hs.
    + rewrite Htr, Htr0, requests_app.
      change (EvGet featured_request :: evs) with ([EvGet featured_request] ++ evs)%list.
      rewrite requests_app, (requests_store evs Hst). cbn. lia.
Qed.

End Runs.

(* ===================================================================== *)
(** ** The cooldown of the refresh job *)
(* ===================================================================== *)

(** C1, as the sources have it: on a started job ([isRunning] set), when
    the call before has left a non-zero [lastRun] and the next call starts
    less than the cooldown (two minutes) after it, that next call returns
    [undefined] at once: the job (so [lastRun]) and the collection are
    what they were, the trace has no new entry, and the two calls together
    sent at most one request. *)
Theorem runRefresh_cooldown :
  forall (env : Env) (w w1 w2 : World App) (o1 o2 : Outcome (option TokenService.ReplaceResult))
         (t0 : Z),
    isRunning (job (state w)) = true ->
    DataRefreshJob.runRefresh env w = (o1, w1) ->
    lastRun (job (state w1)) = Some t0 ->
    t0 <> 0 ->
    clock env (reads w1) - t0 < DataRefreshJob.cooldown ->
    DataRefreshJob.runRefresh env w1 = (o2, w2) ->
    o2 = Return None /\
    state w2 = state w1 /\
    trace w2 = trace w1 /\
    (requests (trace w2) <= requests (trace w) + 1)%nat.
Proof.
  intros env w w1 w2 o1 o2 t0 Hrun H1 Hlast Hnz Hlt H2.
  destruct (runRefresh_frame env w w1 o1 H1) as [Hkeep Hreq].
  rewrite Hrun in Hkeep.
  rewrite (runRefresh_skips env w1 t0 Hkeep Hlast Hnz Hlt) in H2.
  injection H2 as <- <-. cbn. auto.
Qed.

(** A job just started: its first call runs at 1000 and the call one
    millisecond later is skipped. *)
Lemma runRefresh_cooldown_witness :
  let env := answering (response_of []) in
  let w := fresh {| job := starting; tokens := [old_token] |} in
  let w1 := snd (DataRefreshJob.runRefresh env w) in
  let w2 := snd (DataRefreshJob.runRefresh env w1) in
  fst (DataRefreshJob.runRefresh env w1) = Return None /\
  state w2 = state w1 /\ trace w2 = trace w1 /\
  (requests (trace w2) <= requests (trace w) + 1)%nat.
Proof.
  cbv zeta.
  set (env := answering (response_of [])).
  set (w := fresh {| job := starting; tokens := [old_token] |}).
  refine (runRefresh_cooldown env w _ _ (fst (DataRefreshJob.runRefresh env w)) _ 1000
            _ _ _ _ _ _).
  - reflexivity.
  - apply surjective_pairing.
  - reflexivity.
  - discriminate.
  - reflexivity.
  - apply surjective_pairing.
Defined.

(** C1 fails as stated: on a job that was never started the guard is off,
    and two calls one millisecond apart both fetch. *)
Lemma runRefresh_unstarted_runs_twice :
  let env := answering (response_of []) in
  let w := fresh {| job := new_job; tokens := [old_token] |} in
  let w1 := snd (DataRefreshJob.runRefresh env w) in
  let w2 := snd (DataRefreshJob.runRefresh env w1) in
  lastRun (job (state w1)) = Some 1000 /\
  lastRun (job (state w2)) = Some 1001 /\
  1001 - 1000 < DataRefreshJob.cooldown /\
  trace w1 = [EvGet featured_request] /\
  trace w2 = [EvGet featured_request; EvGet featured_request] /\
  trace w2 <> trace w1.
Proof.
  cbv zeta. repeat split; try reflexivity.
  vm_compute. discriminate.
Qed.

(** The same through the public methods: after [start] a tick that comes
    at once is skipped; after [stop] the guard is off again. *)
Example tick_after_start_is_skipped :
  let env := answering (response_of []) in
  let w := snd (DataRefreshJob.start (Some 5) env
                  (fresh {| job := new_job; tokens := [old_token] |})) in
  fst (DataRefreshJob.runRefresh env w) = Return None /\
  trace (snd (DataRefreshJob.runRefresh env w)) = [EvGet featured_request].
Proof. cbv zeta. split; reflexivity. Qed.

Example refresh_after_stop_runs :
  let env := answering (response_of []) in
  let w := snd (DataRefreshJob.start (Some 5) env
                  (fresh {| job := new_job; tokens := [old_token] |})) in
  let w' := snd (DataRefreshJob.stop env w) in
  trace (snd (DataRefreshJob.forceRefresh env w')) =
    [EvGet featured_request; EvGet featured_request].
Proof. reflexivity. Qed.

(** C4, as the sources have it: [forceRefresh] is [runRefresh], so on a
    started job it is skipped inside the cooldown window (no request, no
    store operation); [refreshFeaturedTokens] has no guard: whatever the
    job's [lastRun], it sends the FEATURED request first and goes on to
    the replace, and it leaves the job as it was. *)
Theorem forced_refresh_guard :
  forall (env : Env) (w : World App),
    DataRefreshJob.forceRefresh env w = DataRefreshJob.runRefresh env w /\
    (forall t0 : Z,
        isRunning (job (state w)) = true ->
        lastRun (job (state w)) = Some t0 ->
        t0 <> 0 ->
        clock env (reads w) - t0 < DataRefreshJob.cooldown ->
        DataRefreshJob.forceRefresh env w = (Return None, later 1 w)) /\
    (exists o w' evs,
        DataRefreshJob.refreshFeaturedTokens env w = (o, w') /\
        job (state w') = job (state w) /\
        trace w' = (trace w ++ EvGet featured_request :: evs)%list /\
        forallb is_store evs = true).
Proof.
  intros env w. split; [reflexivity |]. split.
  - intros t0 Hrun Hlast Hnz Hlt. now apply (runRefresh_skips env w t0).
  - rewrite refreshFeaturedTokens_cycle.
    destruct (cycle env w) as [o w'] eqn:Hc.
    destruct (cycle_frame env w w' o Hc) as (Hj & evs & Htr & Hst).
    exists o, w', evs. auto.
Qed.

(** A started job that ran at 1000, forced again at 1000: skipped. *)
Lemma forced_refresh_guard_witness :
  let env := answering (response_of [edge_of (node_of 1 "0xAB")]) in
  let w := fresh {| job := started 1000; tokens := [old_token] |} in
  DataRefreshJob.forceRefresh env w = (Return None, later 1 w).
Proof.
  cbv zeta.
  refine (proj1 (proj2 (forced_refresh_guard _ _)) 1000 _ _ _ _).
  - reflexivity.
  - reflexivity.
  - discriminate.
  - reflexivity.
Defined.

(** C4 fails as stated: inside the window in which [runRefresh] is
    skipped, [refreshFeaturedTokens] fetches and replaces. *)
Lemma refreshFeaturedTokens_ignores_cooldown :
  let env := answering (response_of [edge_of (node_of 1 "0xAB")]) in
  let w := fresh {| job := started 1000; tokens := [old_token] |} in
  clock env (reads w) - 1000 < DataRefreshJob.cooldown /\
  fst (DataRefreshJob.runRefresh env w) = Return None /\
  trace (snd (DataRefreshJob.runRefresh env w)) = [] /\
  fst (DataRefreshJob.refreshFeaturedTokens env w) =
    Return (TokenService.Replaced 1 1 1) /\
  trace (snd (DataRefreshJob.refreshFeaturedTokens env w)) =
    [EvGet featured_request; EvStore (DeleteMany "FEATURED"); EvStore (InsertMany 1)].
Proof.
  cbv zeta. repeat split; reflexivity.
Qed.

(* ===================================================================== *)
(** ** Failures of the upstream and empty answers *)
(* ===================================================================== *)

(** C2, as the sources have it: when the upstream rejects the request of
    a cycle, [runRefresh] throws the error of [fetchExploreTokens] to its
    caller and no store operation has run, the collection being what it
    was; [fetchTokens] of the file-backed server leaves its file as it was
    too, without a store operation, but resolves to [null]. *)
Theorem fetch_failure_keeps_store :
  forall (env : Env) (msg : string),
    (forall w w1 : World App,
        DataRefreshJob.in_cooldown env w = (Return false, w1) ->
        upstream env (calls w) featured_request = Rejected msg ->
        exists w',
          DataRefreshJob.runRefresh env w =
            (Throw (Error ("Failed to fetch FEATURED tokens: " ++ msg)), w') /\
          tokens (state w') = tokens (state w) /\
          filter is_store (trace w') = filter is_store (trace w)) /\
    (forall d : World SimpleServer.Disk,
        upstream env (calls d) simple_request = Rejected msg ->
        exists d',
          SimpleServer.fetchTokens env d = (Return None, d') /\
          state d' = state d /\
          filter is_store (trace d') = filter is_store (trace d)).
Proof.
  intros env msg. split.
  - intros w w1 Hg Hrej.
    destruct (in_cooldown_frame env w w1 _ Hg) as (Hs & Ht & Hc & _).
    rewrite (runRefresh_cycle env w w1 Hg).
    rewrite (cycle_rejected env _ msg) by (cbn; now rewrite Hc).
    eexists. split; [reflexivity |]. cbn. rewrite Hs, Ht. split; [reflexivity |].
    now apply store_events_app.
  - intros d Hrej.
    unfold SimpleServer.fetchTokens, try_catch, bind at 1, http_get.
    fold simple_request. rewrite Hrej.
    eexists. split; [reflexivity |]. cbn. split; [reflexivity |].
    now apply store_events_app.
Qed.

(** An upstream that times out, a job that never ran, one stored token. *)
Lemma fetch_failure_keeps_store_witness :
  let env := rejecting "timeout of 10000ms exceeded" in
  let w := fresh {| job := new_job; tokens := [old_token] |} in
  exists w',
    DataRefreshJob.runRefresh env w =
      (Throw (Error "Failed to fetch FEATURED tokens: timeout of 10000ms exceeded"), w') /\
    tokens (state w') = [old_token] /\
    filter is_store (trace w') = [].
Proof.
  cbv zeta.
  refine (proj1 (fetch_failure_keeps_store _ "timeout of 10000ms exceeded") _ _ _ _);
    reflexivity.
Defined.

(** C2 fails as stated on the file-backed server: the catch block of
    [fetchTokens] returns [null], so its caller sees no error and the
    refresh route answers 200. *)
Lemma fetchTokens_swallows_rejection :
  let env := rejecting "timeout of 10000ms exceeded" in
  let d := fresh (None : SimpleServer.Disk) in
  upstream env (calls d) simple_request = Rejected "timeout of 10000ms exceeded" /\
  fst (SimpleServer.fetchTokens env d) = Return None /\
  (forall e d', SimpleServer.fetchTokens env d <> (Throw e, d')) /\
  fst (SimpleServer.refresh env d) =
    Return (Ok {| SimpleServer.r_message := "Tokens refreshed successfully" |}).
Proof.
  cbv zeta. repeat split; try reflexivity.
  intros e d'. vm_compute. discriminate.
Qed.

(** C10: with a missing or empty list, [replaceFeaturedTokens] resolves to
    [{ success: false }] and the world is untouched (no delete, no
    insert); so a cycle of [runRefresh] whose response holds no edge keeps
    every stored document and runs no store operation. *)
Theorem empty_replace_keeps_store :
  forall (env : Env) (w : World App),
    (forall toks : option (list Token),
        toks = None \/ toks = Some [] ->
        exists r,
          TokenService.replaceFeaturedTokens toks env w = (Return r, w) /\
          TokenService.success r = false) /\
    (forall (w1 : World App) (body : Value),
        DataRefreshJob.in_cooldown env w = (Return false, w1) ->
        upstream env (calls w) featured_request = Data body ->
        truthy (edges_of body) = false \/ edges_of body = JArr [] ->
        exists r w',
          DataRefreshJob.runRefresh env w = (Return (Some r), w') /\
          TokenService.success r = false /\
          tokens (state w') = tokens (state w) /\
          filter is_store (trace w') = filter is_store (trace w)).
Proof.
  intros env w. split.
  - intros toks H. eexists. split; [now apply replace_nothing | reflexivity].
  - intros w1 body Hg Hup Hnone.
    destruct (in_cooldown_frame env w w1 _ Hg) as (Hs & Ht & Hc & _).
    rewrite (runRefresh_cycle env w w1 Hg).
    rewrite (cycle_data env _ body) by (cbn; now rewrite Hc).
    rewrite (bind_Return env _ _ _ _ _ (transformTokens_empty env body "FEATURED" _ Hnone)).
    rewrite replace_nothing by auto.
    eexists. eexists. split; [reflexivity |]. split; [reflexivity |].
    cbn. rewrite Hs, Ht. split; [reflexivity |].
    now apply store_events_app.
Qed.

(** The upstream answers an empty list of edges; the stored token stays. *)
Lemma empty_replace_keeps_store_witness :
  let env := answering (response_of []) in
  let w := fresh {| job := new_job; tokens := [old_token] |} in
  exists r w',
    DataRefreshJob.runRefresh env w = (Return (Some r), w') /\
    TokenService.success r = false /\
    tokens (state w') = [old_token] /\
    filter is_store (trace w') = [].
Proof.
  cbv zeta.
  refine (proj2 (empty_replace_keeps_store _ _) _ (response_of []) _ _ _).
  - reflexivity.
  - reflexivity.
  - right. reflexivity.
Defined.

(* ===================================================================== *)
(** ** The request sent upstream *)
(* ===================================================================== *)

(** C6: whatever count the caller passes, [fetchExploreTokens] sends one
    request, and the count it carries is never above 100: a count of 100
    or less goes out as it is, a count above 100 (or infinite) goes out as
    exactly 100 and not as the raw value.  A count that is not a number,
    or minus infinity, goes out as such; a count left out goes out as
    100. *)
Theorem fetchExploreTokens_clamps_count :
  forall (env : Env) (w : World App) (listType : option string) (count : Num)
         (cursor : option string),
    (exists o r,
        ZoraService.fetchExploreTokens listType (Some count) cursor env w = (o, sent r w) /\
        ngt (q_count r) (Fin 100) = false /\
        (forall c, count = Fin c -> c <= 100 -> q_count r = Fin c) /\
        (forall c, count = Fin c -> 100 < c -> q_count r = Fin 100 /\ q_count r <> count) /\
        (count = PInf -> q_count r = Fin 100) /\
        (count = NInf -> q_count r = NInf) /\
        (count = NaN -> q_count r = NaN)) /\
    (exists o r,
        ZoraService.fetchExploreTokens listType None cursor env w = (o, sent r w) /\
        q_count r = Fin 100).
Proof.
  intros env w listType count cursor. split.
  - rewrite fetchExploreTokens_run. cbv zeta.
    set (r := request_of listType (Some count) cursor).
    assert (Hc : q_count r = nmin count (Fin 100)) by reflexivity.
    assert (Hall :
      ngt (q_count r) (Fin 100) = false /\
      (forall c, count = Fin c -> c <= 100 -> q_count r = Fin c) /\
      (forall c, count = Fin c -> 100 < c -> q_count r = Fin 100 /\ q_count r <> count) /\
      (count = PInf -> q_count r = Fin 100) /\
      (count = NInf -> q_count r = NInf) /\
      (count = NaN -> q_count r = NaN)).
    { rewrite Hc. split; [apply nmin_cap |]. split; [| split; [| split; [| split]]].
      - intros c -> Hle. cbn. f_equal. lia.
      - intros c -> Hlt. cbn. split; [f_equal; lia |].
        intros [= H]. lia.
      - intros ->. reflexivity.
      - intros ->. reflexivity.
      - intros ->. reflexivity. }
    destruct (upstream env (calls w) r); eexists; exists r;
      (split; [reflexivity | exact Hall]).
  - rewrite fetchExploreTokens_run. cbv zeta.
    set (r := request_of listType None cursor).
    destruct (upstream env (calls w) r); eexists; exists r; split; reflexivity.
Qed.

(** A caller asking for 500 tokens: the request carries 100; a caller
    asking for 5: the request carries 5. *)
Lemma fetchExploreTokens_clamps_count_witness :
  let env := answering (response_of []) in
  let w := fresh {| job := new_job; tokens := [] |} in
  (exists o r,
      ZoraService.fetchExploreTokens (Some "FEATURED") (Some (Fin 500)) None env w =
        (o, sent r w) /\
      q_count r = Fin 100 /\ q_count r <> Fin 500) /\
  (exists o r,
      ZoraService.fetchExploreTokens (Some "FEATURED") (Some (Fin 5)) None env w =
        (o, sent r w) /\
      q_count r = Fin 5).
Proof.
  cbv zeta. split.
  - destruct (proj1 (fetchExploreTokens_clamps_count (answering (response_of []))
                (fresh {| job := new_job; tokens := [] |})
                (Some "FEATURED") (Fin 500) None))
      as (o & r & Hrun & _ & _ & Habove & _).
    exists o, r. split; [exact Hrun |]. apply (Habove 500); [reflexivity | lia].
  - destruct (proj1 (fetchExploreTokens_clamps_count (answering (response_of []))
                (fresh {| job := new_job; tokens := [] |})
                (Some "FEATURED") (Fin 5) None))
      as (o & r & Hrun & _ & Hbelow & _).
    exists o, r. split; [exact Hrun |]. apply (Hbelow 5); [reflexivity | lia].
Defined.

(* ===================================================================== *)
(** ** The transformer *)
(* ===================================================================== *)

Section Transformer.

Variable env : Env.

Lemma transformTokens_array {S} (body : Value) (lt : string)
    (items : list Value) (w : World S) :
  edges_of body = JArr items ->
  ZoraService.transformTokens body lt env w =
  mapM (ZoraService.transformEdge lt) items env w.
Proof.
  unfold ZoraService.transformTokens. fold (edges_of body).
  intros ->. reflexivity.
Qed.

(** One edge that is not well formed makes the whole [map] throw, a
    TypeError, when the edges before it have been transformed. *)
Lemma transformEdges_TypeError {S} (lt : string) (items : list Value) :
  forallb well_formed_edge items = false ->
  forall w : World S,
  exists msg,
    mapM (ZoraService.transformEdge lt) items env w =
      (Throw (TypeError msg), later (leading items) w).
Proof.
  induction items as [| edge r IH]; intros H w; [discriminate |].
  cbn [mapM leading]. cbn in H.
  destruct (well_formed_edge edge) eqn:Hwf.
  - rewrite (bind_Return env _ _ _ _ _ (transformEdge_run env lt edge w Hwf)).
    destruct (IH H (later 1 w)) as (msg & Hr).
    rewrite (bind_Throw env _ _ _ _ _ Hr). exists msg.
    rewrite later_later. repeat f_equal. unfold Nat.succ. lia.
  - destruct (transformEdge_TypeError env lt edge w Hwf) as [msg He].
    rewrite (bind_Throw env _ _ _ _ _ He). exists msg. now rewrite later_0.
Qed.

Lemma transformEdges_throw {S} (lt : string) (items : list Value) :
  forallb well_formed_edge items = false ->
  forall w : World S,
  exists e w', mapM (ZoraService.transformEdge lt) items env w = (Throw e, w').
Proof.
  intros H w. destruct (transformEdges_TypeError lt items H w) as [msg Hm]. eauto.
Qed.

Lemma records_of_mapped (lt : string) (clk : nat -> Z) (items : list Value) :
  forall k,
  Forall2 (fun edge t =>
             let node := prop edge "node" in
             zoraId t = prop node "id" /\
             name t = prop node "name" /\
             address t = lowered (prop node "address") /\
             createdAt t = (if truthy (prop node "createdAt")
                            then JDate (prop node "createdAt") else JNull) /\
             chainId t = or_else (prop node "chainId") (JNum 8453) /\
             listType t = lt /\
             isActive t = true)
          items (records_of lt clk k items).
Proof.
  induction items as [| edge r IH]; intros k; cbn; constructor; auto.
  repeat split; reflexivity.
Qed.

(** Every record that comes out of the transformer carries the list type
    it was given and is live. *)
Lemma transformTokens_live {S} (body : Value) (lt : string) (w w' : World S)
    (toks : list Token) :
  ZoraService.transformTokens body lt env w = (Return toks, w') ->
  Forall (fun t => listType t = lt /\ isActive t = true) toks.
Proof.
  unfold ZoraService.transformTokens. fold (edges_of body).
  destruct (negb (truthy (edges_of body))); [intros [= <- _]; constructor |].
  destruct (edges_of body) as [| | | | | items | |]; try discriminate.
  destruct (forallb well_formed_edge items) eqn:Hwf.
  - rewrite (transformEdges_run env lt items Hwf w). intros [= <- _].
    generalize (reads w). induction items as [| e r IH]; intros k; cbn.
    + constructor.
    + cbn in Hwf. apply andb_prop in Hwf. constructor; [split; reflexivity |].
      apply IH. tauto.
  - destruct (transformEdges_throw lt items Hwf w) as (e & w2 & Hr).
    rewrite Hr. discriminate.
Qed.

End Transformer.

(** C5, as the sources have it: a response without a list of edges gives
    the empty list; a response whose edges all carry a node (neither the
    edge nor the node is [null] or [undefined]) with an address that is
    absent or a string gives one record per edge, in order, each the object
    literal of the callback: the fields of the node under their names
    ([undefined] for those the node lacks), the address in lower case,
    [null] for [createdAt] when the node has none and otherwise its date,
    8453 for [chainId] when the node has none, the list type, the date of
    the clock and [isActive].  One edge outside this shape makes
    [transformTokens] throw a TypeError when the edges before it have been
    transformed, and so does a truthy [edges] that is not an array. *)
Theorem transformTokens_on_well_formed :
  forall (env : Env) (w : World App) (body : Value) (lt : string),
    (truthy (edges_of body) = false ->
     ZoraService.transformTokens body lt env w = (Return [], w)) /\
    (forall items : list Value,
        edges_of body = JArr items ->
        forallb well_formed_edge items = true ->
        exists toks,
          ZoraService.transformTokens body lt env w =
            (Return toks, later (List.length items) w) /\
          List.length toks = List.length items /\
          toks = records_of lt (clock env) (reads w) items /\
          Forall2 (fun edge t =>
                     let node := prop edge "node" in
                     zoraId t = prop node "id" /\
                     name t = prop node "name" /\
                     address t = lowered (prop node "address") /\
                     createdAt t = (if truthy (prop node "createdAt")
                                    then JDate (prop node "createdAt") else JNull) /\
                     chainId t = or_else (prop node "chainId") (JNum 8453) /\
                     listType t = lt /\
                     isActive t = true)
                  items toks) /\
    (forall items : list Value,
        edges_of body = JArr items ->
        forallb well_formed_edge items = false ->
        exists msg,
          ZoraService.transformTokens body lt env w =
            (Throw (TypeError msg), later (leading items) w)) /\
    (truthy (edges_of body) = true ->
     (forall items, edges_of body <> JArr items) ->
     exists msg, ZoraService.transformTokens body lt env w = (Throw (TypeError msg), w)).
Proof.
  intros env w body lt. split; [| split; [| split]].
  - intros H. apply transformTokens_empty. now left.
  - intros items He Hwf.
    exists (records_of lt (clock env) (reads w) items).
    rewrite (transformTokens_array env body lt items w He).
    rewrite (transformEdges_run env lt items Hwf w).
    split; [reflexivity |]. split; [apply records_of_length |].
    split; [reflexivity | apply records_of_mapped].
  - intros items He Hwf.
    rewrite (transformTokens_array env body lt items w He).
    now apply transformEdges_TypeError.
  - intros Ht Hna. unfold ZoraService.transformTokens. fold (edges_of body).
    rewrite Ht. cbn [negb].
    destruct (edges_of body) as [| | | | | its | |] eqn:E;
      try (eexists; reflexivity).
    now destruct (Hna its).
Qed.

(** Two edges, the first with a node that has no field at all: two
    records, the first with [undefined] for its id, name and address,
    [null] for its [createdAt] and 8453 for its [chainId]. *)
Lemma transformTokens_on_well_formed_witness :
  let items := [edge_of (JObj []); edge_of (node_of 1 "0xAB")] in
  let env := answering (response_of items) in
  let w := fresh {| job := new_job; tokens := [] |} in
  exists toks,
    ZoraService.transformTokens (response_of items) "FEATURED" env w =
      (Return toks, later 2 w) /\
    List.length toks = 2%nat /\
    map zoraId toks = [JUndefined; JStr "zora-1"] /\
    map name toks = [JUndefined; JStr "Token"] /\
    map address toks = [JUndefined; JStr "0xab"] /\
    map createdAt toks = [JNull; JNull] /\
    map chainId toks = [JNum 8453; JNum 8453] /\
    map lastUpdated toks = [1000; 1001].
Proof.
  cbv zeta.
  destruct (proj1 (proj2 (transformTokens_on_well_formed
              (answering (response_of [edge_of (JObj []); edge_of (node_of 1 "0xAB")]))
              (fresh {| job := new_job; tokens := [] |})
              (response_of [edge_of (JObj []); edge_of (node_of 1 "0xAB")]) "FEATURED"))
              [edge_of (JObj []); edge_of (node_of 1 "0xAB")] eq_refl eq_refl)
    as (toks & Hrun & Hlen & -> & _).
  eexists. split; [exact Hrun |]. repeat split; reflexivity.
Defined.

(** C5 fails as stated: an edge without a node makes [transformTokens]
    throw, and with it the whole cycle of [runRefresh]. *)
Lemma transformTokens_throws_on_missing_node :
  let body := response_of [edge_of (node_of 1 "0xAB"); JObj []] in
  let env := answering body in
  let w := fresh {| job := new_job; tokens := [old_token] |} in
  (forall toks w', ZoraService.transformTokens body "FEATURED" env w <> (Return toks, w')) /\
  (exists e, fst (ZoraService.transformTokens body "FEATURED" env w) = Throw e /\
             exn_name e = "TypeError") /\
  (exists e, fst (DataRefreshJob.runRefresh env w) = Throw e /\
             exn_name e = "TypeError").
Proof.
  cbv zeta. split; [| split; eexists; split; reflexivity].
  intros toks w'. vm_compute. discriminate.
Qed.

(** A node without an address gets through the transformer, and the
    schema then refuses the batch ([address] is required) after the
    FEATURED documents were deleted: the cycle throws and the partition is
    empty. *)
Lemma record_without_address_fails_insert :
  let body := response_of [edge_of (JObj [("id", JStr "zora-1")])] in
  let env := answering body in
  let w := fresh {| job := new_job; tokens := [old_token] |} in
  List.length (match fst (ZoraService.transformTokens body "FEATURED" env w) with
               | Return toks => toks
               | Throw _ => []
               end) = 1%nat /\
  (exists msg, fst (DataRefreshJob.runRefresh env w) =
                 Throw (Error ("Failed to replace FEATURED tokens: " ++ msg))) /\
  tokens (state (snd (DataRefreshJob.runRefresh env w))) = [].
Proof.
  cbv zeta. split; [reflexivity |]. split; [eexists; reflexivity | reflexivity].
Qed.

(* ===================================================================== *)
(** ** Lookup by address *)
(* ===================================================================== *)

Lemma lower_unit_idem (c : ascii) : lower_unit (lower_unit c) = lower_unit c.
Proof.
  destruct c as [[] [] [] [] [] [] [] []]; reflexivity.
Qed.

Lemma toLowerCase_idem (s : string) : toLowerCase (toLowerCase s) = toLowerCase s.
Proof.
  induction s as [| c r IH]; cbn; [reflexivity |].
  now rewrite lower_unit_idem, IH.
Qed.

Lemma same_letter_lower (c d : ascii) :
  same_letter c d = true -> lower_unit d = lower_unit c.
Proof.
  unfold same_letter. intros H.
  apply orb_prop in H. destruct H as [H | H].
  - apply orb_prop in H. destruct H as [H | H]; apply Ascii.eqb_eq in H.
    + now subst.
    + subst d. apply lower_unit_idem.
  - apply Ascii.eqb_eq in H. subst c. symmetry. apply lower_unit_idem.
Qed.

(** Spellings of one address that differ in case only have one lower-case
    form. *)
Lemma case_variant_lower (a : string) :
  forall q, case_variant a q = true -> toLowerCase q = toLowerCase a.
Proof.
  induction a as [| c a' IH]; intros [| d q'] H; cbn in H; try discriminate.
  - reflexivity.
  - apply andb_prop in H. destruct H as [Hc Hr].
    cbn. now rewrite (same_letter_lower c d Hc), (IH q' Hr).
Qed.

Lemma getTokenByAddress_run (env : Env) (addr : string) (w : World App) :
  TokenService.getTokenByAddress addr env w =
  (Return (List.find (TokenModel.has_address (toLowerCase addr)) (tokens (state w))),
   looked_up (toLowerCase addr) w).
Proof. reflexivity. Qed.

Lemma find_live (addr : string) (l : list Token) (t : Token) :
  In t l -> isActive t = true -> address t = JStr addr ->
  exists t', List.find (TokenModel.has_address addr) l = Some t'.
Proof.
  intros Hin Hact Haddr.
  destruct (List.find (TokenModel.has_address addr) l) as [t' |] eqn:Hf; [eauto |].
  apply (find_none _ _ Hf) in Hin.
  unfold TokenModel.has_address in Hin. rewrite Haddr, Hact, String.eqb_refl in Hin.
  discriminate.
Qed.

(** C7: the transformer stores the address in lower case (a record's
    address is the lowered address of its node, a fixed point of
    [toLowerCase]); [getTokenByAddress] answers the same for every spelling
    of an address that differs in case only; and when a live token is
    stored under the lower-case form of [a], every such spelling [q] of [a]
    finds a live record with that address, the first one in the
    collection. *)
Theorem address_lookup_any_casing :
  forall (env : Env) (w : World App),
    (forall (lt : string) (edge : Value) (w0 w1 : World App) (t : Token),
        ZoraService.transformEdge lt edge env w0 = (Return t, w1) ->
        address t = lowered (prop (prop edge "node") "address") /\
        forall a, address t = JStr a -> toLowerCase a = a) /\
    (forall a q : string,
        case_variant a q = true ->
        TokenService.getTokenByAddress q env w = TokenService.getTokenByAddress a env w) /\
    (forall (t : Token) (a q : string),
        In t (tokens (state w)) ->
        isActive t = true ->
        address t = JStr (toLowerCase a) ->
        case_variant a q = true ->
        exists t',
          TokenService.getTokenByAddress q env w =
            (Return (Some t'), looked_up (toLowerCase a) w) /\
          List.find (TokenModel.has_address (toLowerCase a)) (tokens (state w)) = Some t' /\
          address t' = JStr (toLowerCase a) /\
          isActive t' = true).
Proof.
  intros env w. split; [| split].
  - intros lt edge w0 w1 t Hrun.
    destruct (well_formed_edge edge) eqn:Hwf.
    + rewrite (transformEdge_run env lt edge w0 Hwf) in Hrun.
      injection Hrun as <- <-. cbn. split; [reflexivity |].
      intros a Ha. destruct (prop (prop edge "node") "address"); try discriminate.
      cbn in Ha. injection Ha as <-. apply toLowerCase_idem.
    + destruct (transformEdge_throws env lt edge w0 Hwf) as [e He].
      rewrite He in Hrun. discriminate.
  - intros a q Hv. rewrite !getTokenByAddress_run.
    now rewrite (case_variant_lower a q Hv).
  - intros t a q Hin Hact Haddr Hv.
    destruct (find_live (toLowerCase a) _ t Hin Hact Haddr) as [t' Hf].
    exists t'. rewrite getTokenByAddress_run, (case_variant_lower a q Hv), Hf.
    split; [reflexivity |]. split; [reflexivity |].
    apply find_some in Hf. destruct Hf as [_ Hh].
    unfold TokenModel.has_address in Hh.
    destruct (address t'); try discriminate.
    apply andb_prop in Hh. destruct Hh as [He Ha].
    apply String.eqb_eq in He. subst. auto.
Qed.

(** An address that came upper-case from the upstream, looked up in mixed
    case. *)
Lemma address_lookup_any_casing_witness :
  let env := answering (response_of []) in
  let stored_token := record_of "FEATURED" (node_of 1 "0xABCDEF0123") 900 in
  let w := fresh {| job := new_job; tokens := [old_token; stored_token] |} in
  exists t',
    TokenService.getTokenByAddress "0xAbCdEf0123" env w =
      (Return (Some t'), looked_up "0xabcdef0123" w) /\
    List.find (TokenModel.has_address "0xabcdef0123") (tokens (state w)) = Some t' /\
    address t' = JStr "0xabcdef0123" /\
    isActive t' = true.
Proof.
  cbv zeta.
  refine (proj2 (proj2 (address_lookup_any_casing _ _))
            (record_of "FEATURED" (node_of 1 "0xABCDEF0123") 900)
            "0xABCDEF0123" "0xAbCdEf0123" _ _ _ _).
  - right. left. reflexivity.
  - reflexivity.
  - reflexivity.
  - reflexivity.
Defined.

(* ===================================================================== *)
(** ** Replace and listing *)
(* ===================================================================== *)

Lemma insert_desc_perm (t : Token) (l : list Token) :
  Permutation (TokenModel.insert_desc t l) (t :: l).
Proof.
  induction l as [| x r IH]; cbn; [apply Permutation_refl |].
  destruct (lastUpdated x <=? lastUpdated t); [apply Permutation_refl |].
  apply perm_trans with (x :: t :: r); [now apply perm_skip | apply perm_swap].
Qed.

Lemma sort_desc_perm (l : list Token) : Permutation (TokenModel.sort_desc l) l.
Proof.
  induction l as [| t r IH]; cbn; [apply perm_nil |].
  apply perm_trans with (t :: TokenModel.sort_desc r);
    [apply insert_desc_perm | now apply perm_skip].
Qed.

Lemma sort_desc_length (l : list Token) :
  List.length (TokenModel.sort_desc l) = List.length l.
Proof. apply Permutation_length, sort_desc_perm. Qed.

(** A page of a listing, for a page number and a limit that are at least
    one. *)
Lemma getTokensByListType_run (env : Env) (lt : string) (p l : Z) (w : World App) :
  1 <= p -> 1 <= l ->
  TokenService.getTokensByListType lt (Some (Fin p)) (Some (Fin l)) env w =
  let count := Z.of_nat (List.length (filter (TokenModel.live_of lt) (tokens (state w)))) in
  (Return
     {| TokenService.page_tokens :=
          firstn (Z.to_nat l) (skipn (Z.to_nat ((p - 1) * l)) (listing lt w));
        TokenService.pagination :=
          {| page := Fin p;
             limit := Fin l;
             total := count;
             pages := ceil_div (Fin count) (Fin l);
             hasNext := (p - 1) * l + l <? count;
             hasPrev := 1 <? p |} |},
   queried lt w).
Proof.
  intros Hp Hl.
  unfold TokenService.getTokensByListType, try_catch, Promise_all2, bind, settled,
    unsettle, TokenModel.find_page, TokenModel.countDocuments, TokenModel.skip_docs,
    TokenModel.limit_docs, bind, emit, get_state, ret, throw, listing, queried.
  cbn -[Z.mul Z.sub Z.add Z.to_nat filter TokenModel.sort_desc ceil_div].
  replace (p + -1) with (p - 1) by lia.
  destruct (Z.ltb_spec ((p - 1) * l) 0) as [Hneg | _]; [nia |].
  destruct (Z.eqb_spec l 0) as [-> | _]; [lia |].
  replace (Z.abs l) with l by lia.
  reflexivity.
Qed.

Lemma filter_none {A} (f : A -> bool) (l : list A) :
  (forall x, In x l -> f x = false) -> filter f l = [].
Proof.
  induction l as [| a r IH]; intros H; cbn; [reflexivity |].
  rewrite (H a (or_introl eq_refl)). apply IH. intros x Hx. apply H. now right.
Qed.

Lemma filter_all {A} (f : A -> bool) (l : list A) :
  (forall x, In x l -> f x = true) -> filter f l = l.
Proof.
  induction l as [| a r IH]; intros H; cbn; [reflexivity |].
  rewrite (H a (or_introl eq_refl)). f_equal. apply IH. intros x Hx. apply H. now right.
Qed.

Lemma In_window {A} (n m : nat) (l : list A) (x : A) :
  In x (firstn n (skipn m l)) -> In x l.
Proof.
  intros H.
  rewrite <- (firstn_skipn m l). apply in_or_app. right.
  rewrite <- (firstn_skipn n (skipn m l)). apply in_or_app. now left.
Qed.

(** What the schema makes of a token keeps its list type, its date and
    its flag, and passes the validators. *)
Lemma document_typed (env : Env) (t d : Token) :
  TokenModel.document env t = Some d ->
  listType d = listType t /\ lastUpdated d = lastUpdated t /\ isActive d = isActive t /\
  TokenModel.validates d = true.
Proof.
  unfold TokenModel.document. intros H.
  repeat match type of H with
         | match ?c with Some _ => _ | None => _ end = _ =>
             destruct c; [| discriminate]
         end.
  match type of H with
  | (if ?b then _ else _) = _ => destruct b eqn:Hv; [| discriminate]
  end.
  injection H as <-. cbn. auto.
Qed.

Lemma cast_String_plain (env : Env) (path : string) (v : Value) :
  plain_String v = true -> TokenModel.cast_String env path v = Some v.
Proof. destruct v; try discriminate; reflexivity. Qed.

Lemma cast_Number_plain (env : Env) (path : string) (v : Value) :
  plain_Number v = true -> TokenModel.cast_Number env path v = Some v.
Proof. destruct v; try discriminate; reflexivity. Qed.

Lemma cast_path_nullish (env : Env) (path : string) (v : Value) :
  nullish v = true -> TokenModel.cast_path env path v = Some v.
Proof. intros H. unfold TokenModel.cast_path. now rewrite H. Qed.

(** A token whose values are of the types of their paths is its own
    document, when it validates. *)
Lemma document_plain (env : Env) (t d : Token) :
  schema_typed t = true ->
  TokenModel.document env t = Some d -> d = t.
Proof.
  unfold schema_typed. intros Hs.
  repeat match type of Hs with
         | (_ && _) = true => apply andb_prop in Hs; destruct Hs as [Hs ?]
         end.
  destruct t. cbn [zoraId name description address symbol totalSupply totalVolume
                   volume24h createdAt creatorAddress poolCurrencyToken tokenPrice
                   marketCap marketCapDelta24h chainId tokenUri platformReferrerAddress
                   payoutRecipientAddress creatorProfile mediaContent uniqueHolders
                   uniswapV4PoolKey listType lastUpdated isActive] in *.
  unfold TokenModel.document.
  cbn [zoraId name description address symbol totalSupply totalVolume
       volume24h createdAt creatorAddress poolCurrencyToken tokenPrice
       marketCap marketCapDelta24h chainId tokenUri platformReferrerAddress
       payoutRecipientAddress creatorProfile mediaContent uniqueHolders
       uniswapV4PoolKey listType lastUpdated isActive].
  rewrite !cast_String_plain by assumption.
  rewrite !cast_path_nullish by assumption.
  rewrite (cast_Number_plain env "uniqueHolders") by assumption.
  match goal with
  | |- context [match ?c with JUndefined => Some (JNum 8453) | _ => _ end] =>
      destruct c; try discriminate
  end;
    cbn [TokenModel.cast_Number TokenModel.cast_path nullish];
    (match goal with
     | |- (if ?b then _ else _) = _ -> _ => destruct b; [| discriminate]
     end);
    intros [= <-]; reflexivity.
Qed.

Lemma documents_Forall2 (env : Env) (toks : list Token) :
  forall ds, TokenModel.documents env toks = Some ds ->
  Forall2 (fun t d => TokenModel.document env t = Some d) toks ds.
Proof.
  induction toks as [| t r IH]; intros ds H; cbn in H.
  - injection H as <-. constructor.
  - destruct (TokenModel.document env t) as [d |] eqn:Hd; [| discriminate].
    destruct (TokenModel.documents env r) as [ds' |]; [| discriminate].
    injection H as <-. constructor; [exact Hd | now apply IH].
Qed.

(** The timestamps leave the list type, the date and the flag alone. *)
Lemma dated_live (lt : string) (clk : nat -> Z) (ds : list Token) :
  forall k,
  Forall (fun d => listType d = lt /\ isActive d = true) ds ->
  Forall (fun d => listType d = lt /\ isActive d = true) (dated clk k ds).
Proof.
  induction ds as [| d r IH]; intros k H; cbn; constructor.
  - inversion H; subst. assumption.
  - inversion H; subst. now apply IH.
Qed.

Lemma documents_live (env : Env) (lt : string) (toks ds : list Token) :
  TokenModel.documents env toks = Some ds ->
  Forall (fun t => listType t = lt /\ isActive t = true) toks ->
  Forall (fun d => listType d = lt /\ isActive d = true) ds.
Proof.
  intros H Hall. apply documents_Forall2 in H.
  induction H as [| t d r ds' Hd _ IH]; constructor.
  - inversion Hall as [| ? ? [Hl Ha] _]; subst.
    destruct (document_typed env t d Hd) as (-> & _ & -> & _). auto.
  - inversion Hall; subst. now apply IH.
Qed.

Lemma dated_nth (clk : nat -> Z) (ds : list Token) :
  forall k i c,
  nth_error ds i = Some c ->
  nth_error (dated clk k ds) i =
    Some (TokenModel.initializeTimestamps (clk (k + i)%nat) c).
Proof.
  induction ds as [| d r IH]; intros k i c H; destruct i as [| i]; try discriminate.
  - injection H as ->. cbn. now replace (k + 0)%nat with k by lia.
  - cbn in H |- *. rewrite (IH (Nat.succ k) i c H).
    now replace (Nat.succ k + i)%nat with (k + Datatypes.S i)%nat
      by (unfold Nat.succ; lia).
Qed.

(** After a replace that resolved, the collection is what was left of it
    by the delete followed by the documents of the tokens, each with its
    timestamps. *)
Lemma replace_stored (env : Env) (w w' : World App) (toks : list Token)
    (r : TokenService.ReplaceResult) :
  toks <> [] ->
  TokenService.replaceFeaturedTokens (Some toks) env w = (Return r, w') ->
  exists ds,
    TokenModel.documents env toks = Some ds /\
    tokens (state w') =
      (filter (fun t => negb (featured t)) (tokens (state w)) ++
       dated (clock env) (reads w) ds)%list /\
    r = TokenService.Replaced
          (Z.of_nat (List.length (filter featured (tokens (state w)))))
          (Z.of_nat (List.length toks)) (Z.of_nat (List.length toks)).
Proof.
  intros Hne Hrun.
  rewrite (replace_run env w toks Hne) in Hrun. cbv zeta in Hrun.
  destruct (TokenModel.documents env toks) as [ds |]; [| discriminate].
  destruct (TokenModel.insert_ordered _ _) as [coll ok] eqn:Hins.
  destruct ok; [| discriminate].
  injection Hrun as <- <-. exists ds. split; [reflexivity |].
  apply insert_ordered_ok in Hins. subst coll. split; reflexivity.
Qed.

(** After a replace that resolved, the live FEATURED documents are the
    documents of the tokens that were passed, provided every one of them
    is a live FEATURED token. *)
Lemma replace_partition (env : Env) (w w' : World App) (toks : list Token)
    (r : TokenService.ReplaceResult) :
  toks <> [] ->
  Forall (fun t => listType t = "FEATURED" /\ isActive t = true) toks ->
  TokenService.replaceFeaturedTokens (Some toks) env w = (Return r, w') ->
  exists ds,
    TokenModel.documents env toks = Some ds /\
    filter (TokenModel.live_of "FEATURED") (tokens (state w')) =
      dated (clock env) (reads w) ds /\
    r = TokenService.Replaced
          (Z.of_nat (List.length (filter featured (tokens (state w)))))
          (Z.of_nat (List.length toks)) (Z.of_nat (List.length toks)).
Proof.
  intros Hne Hall Hrun.
  destruct (replace_stored env w w' toks r Hne Hrun) as (ds & Hd & Hcoll & Hr).
  exists ds. split; [exact Hd |]. split; [| exact Hr].
  pose proof (dated_live "FEATURED" (clock env) ds (reads w)
                (documents_live env "FEATURED" toks ds Hd Hall)) as Hlive.
  rewrite Hcoll, filter_app, filter_none, filter_all; [reflexivity | |].
  - intros t Hin. rewrite Forall_forall in Hlive. destruct (Hlive t Hin) as [Hlt Hact].
    unfold TokenModel.live_of. rewrite Hlt, Hact. reflexivity.
  - intros t Hin. apply filter_In in Hin. destruct Hin as [_ Hnf].
    unfold TokenModel.live_of. unfold featured in Hnf.
    apply negb_true_iff in Hnf. now rewrite Hnf.
Qed.

(** C3, as the sources have it.  The one category the code replaces is
    FEATURED, and [replaceFeaturedTokens] inserts whatever it is given.
    For a non-empty list of records that are live and FEATURED, a replace
    that resolved means that the schema accepted every record; the live
    FEATURED documents are then exactly the documents of the records, one
    per record and in their order: each is its record as the schema casts
    it, with [createdAt] set to the date of the insert when the record has
    none; it keeps the list type, the date and the flag of its record, and
    a record whose values are of the types of their paths is stored as it
    was passed but for that date.  The listing counts them
    ([total] is their number), every page is a window of them sorted by
    date, so every document served is one of them and none is from before
    the replace, and the page that takes them all is a permutation of
    them. *)
Theorem replace_then_listing :
  forall (env : Env) (w w' : World App) (toks : list Token) (r : TokenService.ReplaceResult),
    toks <> [] ->
    Forall (fun t => listType t = "FEATURED" /\ isActive t = true) toks ->
    TokenService.replaceFeaturedTokens (Some toks) env w = (Return r, w') ->
    exists ds,
      TokenModel.documents env toks = Some ds /\
      let docs := dated (clock env) (reads w) ds in
      TokenService.success r = true /\
      List.length docs = List.length toks /\
      filter (TokenModel.live_of "FEATURED") (tokens (state w')) = docs /\
      Forall2 (fun t c =>
                 TokenModel.document env t = Some c /\
                 listType c = listType t /\
                 lastUpdated c = lastUpdated t /\
                 isActive c = isActive t /\
                 (schema_typed t = true -> c = t))
              toks ds /\
      (forall i c,
          nth_error ds i = Some c ->
          exists d,
            nth_error docs i = Some d /\
            createdAt d = (if truthy (createdAt c) then createdAt c
                           else JDate (JNum (clock env (reads w + i)))) /\
            zoraId d = zoraId c /\ name d = name c /\ address d = address c /\
            listType d = listType c /\ lastUpdated d = lastUpdated c /\
            isActive d = isActive c) /\
      (forall p l : Z,
          1 <= p -> 1 <= l ->
          exists pg,
            TokenService.getTokensByListType "FEATURED" (Some (Fin p)) (Some (Fin l)) env w' =
              (Return pg, queried "FEATURED" w') /\
            total (TokenService.pagination pg) = Z.of_nat (List.length toks) /\
            TokenService.page_tokens pg =
              firstn (Z.to_nat l)
                (skipn (Z.to_nat ((p - 1) * l)) (TokenModel.sort_desc docs)) /\
            (forall t, In t (TokenService.page_tokens pg) -> In t docs)) /\
      (exists pg,
          TokenService.getTokensByListType "FEATURED" (Some (Fin 1))
            (Some (Fin (Z.of_nat (List.length toks)))) env w' =
            (Return pg, queried "FEATURED" w') /\
          Permutation (TokenService.page_tokens pg) docs).
Proof.
  intros env w w' toks r Hne Hall Hrun.
  destruct (replace_partition env w w' toks r Hne Hall Hrun) as (ds & Hd & Hlive & ->).
  exists ds. split; [exact Hd |]. cbv zeta.
  set (docs := dated (clock env) (reads w) ds) in *.
  assert (Hlen : List.length docs = List.length toks).
  { subst docs. rewrite dated_length. apply (documents_length env toks ds Hd). }
  split; [reflexivity |]. split; [exact Hlen |]. split; [exact Hlive |].
  assert (Hlisting : listing "FEATURED" w' = TokenModel.sort_desc docs)
    by (unfold listing; now rewrite Hlive).
  split; [| split; [| split]].
  - apply (Forall2_impl _ (fun t c (H : TokenModel.document env t = Some c) =>
             conj H (conj (proj1 (document_typed env t c H))
                    (conj (proj1 (proj2 (document_typed env t c H)))
                    (conj (proj1 (proj2 (proj2 (document_typed env t c H))))
                          (fun Hs => document_plain env t c Hs H)))))).
    now apply documents_Forall2.
  - intros i c Hi.
    exists (TokenModel.initializeTimestamps (clock env (reads w + i)%nat) c).
    split; [subst docs; exact (dated_nth (clock env) ds (reads w) i c Hi) |].
    repeat split; reflexivity.
  - intros p l Hp Hl. eexists.
    rewrite (getTokensByListType_run env "FEATURED" p l w' Hp Hl). cbv zeta.
    split; [reflexivity |]. cbn [TokenService.pagination TokenService.page_tokens total].
    rewrite Hlive, Hlisting, Hlen. split; [reflexivity |]. split; [reflexivity |].
    intros t Hin. apply In_window in Hin.
    apply (Permutation_in t (sort_desc_perm docs) Hin).
  - assert (Hpos : 1 <= Z.of_nat (List.length toks)).
    { destruct toks; [congruence | cbn [List.length]; lia]. }
    eexists.
    rewrite (getTokensByListType_run env "FEATURED" 1 _ w' (Z.le_refl 1) Hpos). cbv zeta.
    split; [reflexivity |]. cbn [TokenService.page_tokens].
    rewrite Hlisting. cbn [Z.sub Z.mul Z.to_nat skipn Z.add Z.opp Z.pos_sub].
    rewrite Nat2Z.id, firstn_all2 by (rewrite sort_desc_length; lia).
    apply sort_desc_perm.
Qed.

(** One stored FEATURED token replaced by two fresh ones, inserted at
    1000 and 1001. *)
Lemma replace_then_listing_witness :
  let env := answering (response_of []) in
  let toks := [record_of "FEATURED" (node_of 1 "0xAB") 2000;
               record_of "FEATURED" (node_of 2 "0xCD") 2001] in
  let w := fresh {| job := new_job; tokens := [old_token] |} in
  let w' := snd (TokenService.replaceFeaturedTokens (Some toks) env w) in
  filter (TokenModel.live_of "FEATURED") (tokens (state w')) = dated (ticking 1000) 0 toks /\
  map createdAt (filter (TokenModel.live_of "FEATURED") (tokens (state w'))) =
    [JDate (JNum 1000); JDate (JNum 1001)].
Proof.
  cbv zeta.
  set (env := answering (response_of [])).
  set (w := fresh {| job := new_job; tokens := [old_token] |}).
  set (toks := [record_of "FEATURED" (node_of 1 "0xAB") 2000;
                record_of "FEATURED" (node_of 2 "0xCD") 2001]).
  destruct (replace_then_listing env w
              (snd (TokenService.replaceFeaturedTokens (Some toks) env w)) toks
              (TokenService.Replaced 1 2 2))
    as (ds & Hd & _ & _ & Hlive & _).
  - discriminate.
  - repeat constructor.
  - reflexivity.
  - rewrite Hlive. injection Hd as <-. split; reflexivity.
Defined.

(** C3 fails as stated.  A record of another category goes through the
    replace, which resolves and counts it as inserted, and the FEATURED
    listing then holds none of the records passed.  And a FEATURED record
    that has no [createdAt] does not come back with the content it was
    passed with: the store has dated it. *)
Lemma replace_returns_other_records :
  let env := answering (response_of []) in
  let w := fresh {| job := new_job; tokens := [old_token] |} in
  let other := [record_of "NEW" (node_of 1 "0xAB") 2000] in
  let toks := [record_of "FEATURED" (node_of 1 "0xAB") 2000] in
  fst (TokenService.replaceFeaturedTokens (Some other) env w) =
    Return (TokenService.Replaced 1 1 1) /\
  listing "FEATURED" (snd (TokenService.replaceFeaturedTokens (Some other) env w)) = [] /\
  fst (TokenService.replaceFeaturedTokens (Some toks) env w) =
    Return (TokenService.Replaced 1 1 1) /\
  map createdAt toks = [JNull] /\
  map createdAt
    (listing "FEATURED" (snd (TokenService.replaceFeaturedTokens (Some toks) env w))) =
    [JDate (JNum 1000)] /\
  listing "FEATURED" (snd (TokenService.replaceFeaturedTokens (Some toks) env w)) <> toks.
Proof.
  cbv zeta. repeat split; try reflexivity.
  intros H. apply (f_equal (map createdAt)) in H. vm_compute in H. discriminate.
Qed.

(* ===================================================================== *)
(** ** Pagination *)
(* ===================================================================== *)

Lemma slice_fin {A} (l : list A) (a b : Z) :
  0 <= a -> 0 <= b ->
  slice l (Fin a) (Fin b) =
  let len := Z.of_nat (List.length l) in
  firstn (Z.to_nat (Z.min b len - Z.min a len)) (skipn (Z.to_nat (Z.min a len)) l).
Proof.
  intros Ha Hb. unfold slice, rel_index.
  destruct (Z.ltb_spec a 0); [lia |].
  destruct (Z.ltb_spec b 0); [lia |].
  reflexivity.
Qed.

(** The featured route of the file-backed server on an existing file, for
    a page and a limit given in decimal. *)
Lemma getFeatured_run (env : Env) (d : World SimpleServer.Disk)
    (f : SimpleServer.TokensFile) (p l : string) (pn ln : Z) :
  state d = Some f ->
  parseInt p = Fin pn -> parseInt l = Fin ln ->
  SimpleServer.getFeatured (mkQuery None (Some p) (Some l) None) env d =
  let len := Z.of_nat (List.length (SimpleServer.tokens f)) in
  (Return (Ok {| SimpleServer.f_data :=
                   slice (SimpleServer.tokens f) (Fin ((pn - 1) * ln))
                         (Fin ((pn - 1) * ln + ln));
                 SimpleServer.f_pagination :=
                   {| page := Fin pn;
                      limit := Fin ln;
                      total := len;
                      pages := ceil_div (Fin len) (Fin ln);
                      hasNext := (pn - 1) * ln + ln <? len;
                      hasPrev := 1 <? pn |};
                 SimpleServer.f_lastUpdated := Some (SimpleServer.file_lastUpdated f) |}),
   loaded d).
Proof.
  intros Hs Hp Hl.
  destruct d as [s tr rd cl]. cbn in Hs. subst s.
  unfold SimpleServer.getFeatured, try_catch, bind, SimpleServer.loadTokens, emit,
    get_state, ret, parse_param, loaded.
  cbn [query_page query_limit state trace reads calls].
  rewrite Hp, Hl.
  cbn [SimpleServer.l_tokens SimpleServer.l_lastUpdated nsub nmul nadd nneg nlt ngt].
  replace (pn + -1) with (pn - 1) by lia.
  reflexivity.
Qed.

(** C8: with forty-five live FEATURED documents and a limit of twenty,
    page one is the first twenty of the listing with [hasNext] and without
    [hasPrev], and page three is its last five (from the forty-first on)
    without [hasNext] and with [hasPrev]; the file-backed route serves the
    same windows of the forty-five entries of its file. *)
Theorem pagination_of_45 :
  forall env : Env,
    (forall w : World App,
        List.length (filter (TokenModel.live_of "FEATURED") (tokens (state w))) = 45%nat ->
        (exists pg,
            TokenService.getTokensByListType "FEATURED" (Some (Fin 1)) (Some (Fin 20)) env w =
              (Return pg, queried "FEATURED" w) /\
            TokenService.page_tokens pg = firstn 20 (listing "FEATURED" w) /\
            List.length (TokenService.page_tokens pg) = 20%nat /\
            hasNext (TokenService.pagination pg) = true /\
            hasPrev (TokenService.pagination pg) = false) /\
        (exists pg,
            TokenService.getTokensByListType "FEATURED" (Some (Fin 3)) (Some (Fin 20)) env w =
              (Return pg, queried "FEATURED" w) /\
            TokenService.page_tokens pg = skipn 40 (listing "FEATURED" w) /\
            List.length (TokenService.page_tokens pg) = 5%nat /\
            hasNext (TokenService.pagination pg) = false /\
            hasPrev (TokenService.pagination pg) = true)) /\
    (forall (d : World SimpleServer.Disk) (f : SimpleServer.TokensFile),
        state d = Some f ->
        List.length (SimpleServer.tokens f) = 45%nat ->
        (exists body,
            SimpleServer.getFeatured (mkQuery None (Some "1") (Some "20") None) env d =
              (Return (Ok body), loaded d) /\
            SimpleServer.f_data body = firstn 20 (SimpleServer.tokens f) /\
            List.length (SimpleServer.f_data body) = 20%nat /\
            hasNext (SimpleServer.f_pagination body) = true /\
            hasPrev (SimpleServer.f_pagination body) = false) /\
        (exists body,
            SimpleServer.getFeatured (mkQuery None (Some "3") (Some "20") None) env d =
              (Return (Ok body), loaded d) /\
            SimpleServer.f_data body = skipn 40 (SimpleServer.tokens f) /\
            List.length (SimpleServer.f_data body) = 5%nat /\
            hasNext (SimpleServer.f_pagination body) = false /\
            hasPrev (SimpleServer.f_pagination body) = true)).
Proof.
  intros env. split.
  - intros w Hlen.
    assert (Hlist : List.length (listing "FEATURED" w) = 45%nat)
      by (unfold listing; now rewrite sort_desc_length).
    split; eexists.
    + rewrite (getTokensByListType_run env "FEATURED" 1 20 w) by lia. cbv zeta.
      split; [reflexivity |].
      cbn [TokenService.page_tokens TokenService.pagination hasNext hasPrev].
      rewrite Hlen. split; [reflexivity |]. split; [| split; reflexivity].
      change (Z.to_nat ((1 - 1) * 20)) with 0%nat. change (Z.to_nat 20) with 20%nat.
      cbn [skipn]. rewrite length_firstn, Hlist. reflexivity.
    + rewrite (getTokensByListType_run env "FEATURED" 3 20 w) by lia. cbv zeta.
      split; [reflexivity |].
      cbn [TokenService.page_tokens TokenService.pagination hasNext hasPrev].
      rewrite Hlen.
      change (Z.to_nat ((3 - 1) * 20)) with 40%nat. change (Z.to_nat 20) with 20%nat.
      assert (Hrest : List.length (skipn 40 (listing "FEATURED" w)) = 5%nat)
        by (rewrite length_skipn, Hlist; reflexivity).
      rewrite firstn_all2 by (rewrite Hrest; lia).
      split; [reflexivity |]. split; [exact Hrest | split; reflexivity].
  - intros d f Hs Hlen. split; eexists.
    + rewrite (getFeatured_run env d f "1" "20" 1 20 Hs eq_refl eq_refl). cbv zeta.
      split; [reflexivity |].
      cbn [SimpleServer.f_data SimpleServer.f_pagination hasNext hasPrev].
      rewrite slice_fin by lia. cbv zeta. rewrite Hlen.
      change (Z.to_nat (Z.min ((1 - 1) * 20 + 20) (Z.of_nat 45) -
                        Z.min ((1 - 1) * 20) (Z.of_nat 45))) with 20%nat.
      change (Z.to_nat (Z.min ((1 - 1) * 20) (Z.of_nat 45))) with 0%nat.
      cbn [skipn]. split; [reflexivity |]. split; [| split; reflexivity].
      rewrite length_firstn, Hlen. reflexivity.
    + rewrite (getFeatured_run env d f "3" "20" 3 20 Hs eq_refl eq_refl). cbv zeta.
      split; [reflexivity |].
      cbn [SimpleServer.f_data SimpleServer.f_pagination hasNext hasPrev].
      rewrite slice_fin by lia. cbv zeta. rewrite Hlen.
      change (Z.to_nat (Z.min ((3 - 1) * 20 + 20) (Z.of_nat 45) -
                        Z.min ((3 - 1) * 20) (Z.of_nat 45))) with 5%nat.
      change (Z.to_nat (Z.min ((3 - 1) * 20) (Z.of_nat 45))) with 40%nat.
      assert (Hrest : List.length (skipn 40 (SimpleServer.tokens f)) = 5%nat)
        by (rewrite length_skipn, Hlen; reflexivity).
      rewrite firstn_all2 by (rewrite Hrest; lia).
      split; [reflexivity |]. split; [exact Hrest | split; reflexivity].
Qed.

(** Forty-five tokens in the collection behind others; forty-five entries
    in the file. *)
Lemma pagination_of_45_witness :
  let env := answering (response_of []) in
  let w := fresh {| job := new_job;
                    tokens := record_of "NEW" (node_of 0 "0xEE") 0 :: many_tokens |} in
  let d := fresh (Some (SimpleServer.mkTokensFile many_entries 1000 45)) in
  (exists pg,
      TokenService.getTokensByListType "FEATURED" (Some (Fin 3)) (Some (Fin 20)) env w =
        (Return pg, queried "FEATURED" w) /\
      TokenService.page_tokens pg = skipn 40 (listing "FEATURED" w) /\
      List.length (TokenService.page_tokens pg) = 5%nat /\
      hasNext (TokenService.pagination pg) = false /\
      hasPrev (TokenService.pagination pg) = true) /\
  (exists body,
      SimpleServer.getFeatured (mkQuery None (Some "1") (Some "20") None) env d =
        (Return (Ok body), loaded d) /\
      SimpleServer.f_data body = firstn 20 many_entries /\
      List.length (SimpleServer.f_data body) = 20%nat /\
      hasNext (SimpleServer.f_pagination body) = true /\
      hasPrev (SimpleServer.f_pagination body) = false).
Proof.
  cbv zeta. split.
  - refine (proj2 (proj1 (pagination_of_45 _) _ _)). reflexivity.
  - refine (proj1 (proj2 (pagination_of_45 _) _
                     (SimpleServer.mkTokensFile many_entries 1000 45) _ _));
      reflexivity.
Defined.

(* ===================================================================== *)
(** ** Search *)
(* ===================================================================== *)

Lemma trimStart_length (s : string) :
  (String.length (trimStart s) <= String.length s)%nat.
Proof.
  induction s as [| c r IH]; cbn; [lia |].
  destruct (is_space c); cbn; lia.
Qed.

Lemma trimEnd_length (s : string) :
  (String.length (trimEnd s) <= String.length s)%nat.
Proof.
  induction s as [| c r IH]; cbn; [lia |].
  destruct (trimEnd r) as [| c' r'].
  - destruct (is_space c); cbn; lia.
  - cbn in *. lia.
Qed.

Lemma trim_length (s : string) : strlen (trim s) <= strlen s.
Proof.
  unfold strlen, trim.
  pose proof (trimEnd_length (trimStart s)). pose proof (trimStart_length s). lia.
Qed.

(** C9, as the sources have it: a search whose [q] is missing, or a string
    of fewer than two code units, is answered with status 400 and nothing
    is searched.  The controller answers before anything else happens: the
    world is unchanged, so no store operation ran.  The file-backed route
    answers after it has read its token file, which is the one store
    operation in its trace: it does not go on to compile the pattern or to
    filter the tokens. *)
Theorem short_query_rejected :
  forall (env : Env) (req : Query),
    (query_q req = None \/ exists s, query_q req = Some s /\ strlen s < 2) ->
    (forall w : World App,
        TokenController.searchTokens req env w =
          (Return (Failed 400 "Search query must be at least 2 characters long" None), w)) /\
    (forall d : World SimpleServer.Disk,
        SimpleServer.search req env d =
          (Return (Failed 400 "Search query must be at least 2 characters long" None),
           loaded d)).
Proof.
  intros env req Hq.
  assert (Hctl : no_query (query_q req) || (strlen (trim (text (query_q req))) <? 2) = true).
  { destruct Hq as [-> | (s & -> & Hs)]; [reflexivity |].
    apply orb_true_iff. right. apply Z.ltb_lt. cbn [text].
    pose proof (trim_length s). lia. }
  assert (Hsrv : no_query (query_q req) || (strlen (text (query_q req)) <? 2) = true).
  { destruct Hq as [-> | (s & -> & Hs)]; [reflexivity |].
    apply orb_true_iff. right. now apply Z.ltb_lt. }
  split.
  - intros w. unfold TokenController.searchTokens, try_catch.
    rewrite Hctl. reflexivity.
  - intros d. destruct d as [s tr rd cl].
    unfold SimpleServer.search, try_catch, bind at 1.
    unfold SimpleServer.loadTokens, bind, emit, get_state, ret, loaded.
    cbn [state trace reads calls].
    destruct s; rewrite Hsrv; reflexivity.
Qed.

(** A one-letter query. *)
Lemma short_query_rejected_witness :
  let env := answering (response_of []) in
  let req := mkQuery (Some "a") None None None in
  let w := fresh {| job := new_job; tokens := [old_token] |} in
  TokenController.searchTokens req env w =
    (Return (Failed 400 "Search query must be at least 2 characters long" None), w).
Proof.
  cbv zeta.
  refine (proj1 (short_query_rejected _ (mkQuery (Some "a") None None None) _) _).
  right. exists "a". split; reflexivity.
Defined.

(** C9 fails as stated on the file-backed route: the file has been read
    when the 400 is sent, so the request has reached the store. *)
Lemma search_reads_file_before_rejecting :
  let env := answering (response_of []) in
  let d := fresh (Some (SimpleServer.mkTokensFile many_entries 1000 45)) in
  let req := mkQuery (Some "a") None None None in
  fst (SimpleServer.search req env d) =
    Return (Failed 400 "Search query must be at least 2 characters long" None) /\
  trace (snd (SimpleServer.search req env d)) = [EvStore ReadFile] /\
  filter is_store (trace (snd (SimpleServer.search req env d))) <>
    filter is_store (trace d).
Proof.
  cbv zeta. split; [reflexivity |]. split; [reflexivity |].
  vm_compute. discriminate.
Qed.

(* ===================================================================== *)
(** ** The job: start, stop and status *)
(* ===================================================================== *)

Section JobRuns.

Variable env : Env.

(** The guard is off on a job that is not started, and on one that never
    ran; neither case reads the clock. *)
Lemma in_cooldown_off (w : World App) :
  isRunning (job (state w)) = false \/ lastRun (job (state w)) = None ->
  DataRefreshJob.in_cooldown env w = (Return false, w).
Proof.
  unfold DataRefreshJob.in_cooldown, DataRefreshJob.this, bind, get_state, ret.
  cbn. intros [H | H]; rewrite H; [reflexivity |].
  destruct (isRunning (job (state w))); reflexivity.
Qed.

(** Once the cooldown has elapsed the guard lets the call through, after
    one reading of the clock. *)
Lemma in_cooldown_elapsed (w : World App) (t0 : Z) :
  isRunning (job (state w)) = true ->
  lastRun (job (state w)) = Some t0 ->
  t0 <> 0 ->
  DataRefreshJob.cooldown <= clock env (reads w) - t0 ->
  DataRefreshJob.in_cooldown env w = (Return false, later 1 w).
Proof.
  intros Hrun Hlast Hnz Hge.
  unfold DataRefreshJob.in_cooldown, DataRefreshJob.this, bind, get_state, ret, now.
  cbn. rewrite Hrun, Hlast.
  destruct (Z.eqb_spec t0 0) as [-> | _]; [congruence |].
  apply Z.ltb_ge in Hge. unfold DataRefreshJob.cooldown in Hge.
  cbn in Hge |- *. rewrite Hge. reflexivity.
Qed.

(** A call that passes the guard changes [lastRun] to its start time and
    nothing else of the job, and sends exactly one request. *)
Lemma runRefresh_executed (w w0 w' : World App) o :
  DataRefreshJob.in_cooldown env w = (Return false, w0) ->
  DataRefreshJob.runRefresh env w = (o, w') ->
  job (state w') = with_lastRun (Some (clock env (reads w0))) (job (state w)) /\
  requests (trace w') = (requests (trace w) + 1)%nat.
Proof.
  intros Hg H.
  destruct (in_cooldown_frame env w w0 _ Hg) as (Hs & Ht & _ & _).
  rewrite (runRefresh_cycle env w w0 Hg) in H.
  destruct (cycle env _) as [oc wc] eqn:Hc.
  apply cycle_frame in Hc. destruct Hc as (Hj & evs & Htr & Hst).
  assert (Hw : w' = wc) by (destruct oc; congruence). subst wc.
  split.
  - rewrite Hj. cbn. rewrite Hs. reflexivity.
  - assert (Htr0 : trace (stamped (clock env (reads w0)) (later 1 w0)) = trace w)
      by exact Ht.
    rewrite Htr, Htr0, requests_app.
    change (EvGet featured_request :: evs) with ([EvGet featured_request] ++ evs)%list.
    rewrite requests_app, (requests_store evs Hst). reflexivity.
Qed.

(** Whatever a call of [runRefresh] does, only [lastRun] can differ in the
    job afterwards. *)
Lemma runRefresh_job (w w' : World App) o :
  DataRefreshJob.runRefresh env w = (o, w') ->
  exists l, job (state w') = with_lastRun l (job (state w)).
Proof.
  intros H.
  destruct (DataRefreshJob.in_cooldown env w) as [b w0] eqn:Hg.
  destruct (in_cooldown_frame env w w0 b Hg) as (Hs & _ & _ & skip & ->).
  destruct skip.
  - unfold DataRefreshJob.runRefresh, bind at 1 in H. rewrite Hg in H.
    injection H as <- <-. rewrite Hs. exists (lastRun (job (state w))).
    destruct (job (state w)); reflexivity.
  - destruct (runRefresh_executed w w0 w' o Hg H) as [Hj _]. eauto.
Qed.

End JobRuns.

(** [start] on a job that is already running does nothing at all: no
    second timer, no refresh, the world is the same. *)
Theorem start_when_running :
  forall (env : Env) (w : World App) (m : option Z),
    isRunning (job (state w)) = true ->
    DataRefreshJob.start m env w = (Return tt, w).
Proof.
  intros env w m H.
  unfold DataRefreshJob.start, DataRefreshJob.this, bind, get_state, ret.
  cbn. rewrite H. reflexivity.
Qed.

Lemma start_when_running_witness :
  let env := answering (response_of []) in
  let w := fresh {| job := started 1000; tokens := [old_token] |} in
  DataRefreshJob.start (Some 5) env w = (Return tt, w).
Proof.
  cbv zeta. refine (start_when_running _ _ _ _). reflexivity.
Defined.

(** [start] on a job that is not running and never ran: it arms the timer
    with the period in milliseconds, and its immediate refresh goes
    through, stamping [lastRun] with the first reading of the clock and
    sending one request; [start] itself returns normally whatever that
    refresh does, its promise being dropped. *)
Theorem start_first_run :
  forall (env : Env) (w : World App) (m : option Z),
    isRunning (job (state w)) = false ->
    lastRun (job (state w)) = None ->
    exists w',
      DataRefreshJob.start m env w = (Return tt, w') /\
      job (state w') =
        {| isRunning := true;
           lastRun := Some (clock env (reads w));
           nextRun := nextRun (job (state w));
           interval := Some (match m with Some x => x | None => 30 end * 60 * 1000) |} /\
      requests (trace w') = (requests (trace w) + 1)%nat.
Proof.
  intros env w m Hrun Hlast.
  destruct w as [[[run last nxt itv] toks] tr rd cl]. cbn in Hrun, Hlast. subst run last.
  unfold DataRefreshJob.start, DataRefreshJob.this, DataRefreshJob.update.
  unfold bind, get_state, put_state, settled, ret.
  cbn -[DataRefreshJob.runRefresh Z.mul].
  match goal with
  | |- context [DataRefreshJob.runRefresh env ?w0] => set (ws := w0)
  end.
  destruct (DataRefreshJob.runRefresh env ws) as [o w'] eqn:Hr.
  assert (Hg : DataRefreshJob.in_cooldown env ws = (Return false, ws)).
  { apply in_cooldown_off. right. reflexivity. }
  destruct (runRefresh_executed env ws ws w' o Hg Hr) as [Hj Hreq].
  exists w'. split; [reflexivity |]. split; [| exact Hreq].
  rewrite Hj. subst ws. cbn. reflexivity.
Qed.

Lemma start_first_run_witness :
  let env := rejecting "ECONNREFUSED" in
  let w := fresh {| job := new_job; tokens := [old_token] |} in
  exists w',
    DataRefreshJob.start (Some 5) env w = (Return tt, w') /\
    job (state w') =
      {| isRunning := true; lastRun := Some 1000; nextRun := None;
         interval := Some 300000 |} /\
    requests (trace w') = 1%nat.
Proof.
  cbv zeta.
  refine (start_first_run (rejecting "ECONNREFUSED") _ (Some 5) _ _); reflexivity.
Defined.

(** [start] on a stopped job that ran less than the cooldown ago: the job
    is running again, but its immediate refresh is skipped by the guard, so
    nothing is fetched, the trace and the collection stay, and [lastRun]
    keeps its old value. *)
Theorem restart_within_cooldown :
  forall (env : Env) (w : World App) (m : option Z) (t0 : Z),
    isRunning (job (state w)) = false ->
    lastRun (job (state w)) = Some t0 ->
    t0 <> 0 ->
    clock env (reads w) - t0 < DataRefreshJob.cooldown ->
    exists w',
      DataRefreshJob.start m env w = (Return tt, w') /\
      job (state w') =
        {| isRunning := true;
           lastRun := Some t0;
           nextRun := nextRun (job (state w));
           interval := Some (match m with Some x => x | None => 30 end * 60 * 1000) |} /\
      tokens (state w') = tokens (state w) /\
      trace w' = trace w.
Proof.
  intros env w m t0 Hrun Hlast Hnz Hlt.
  destruct w as [[[run last nxt itv] toks] tr rd cl]. cbn in Hrun, Hlast, Hlt.
  subst run last.
  unfold DataRefreshJob.start, DataRefreshJob.this, DataRefreshJob.update.
  unfold bind, get_state, put_state, settled, ret.
  cbn -[DataRefreshJob.runRefresh Z.mul].
  match goal with
  | |- context [DataRefreshJob.runRefresh env ?w0] => set (ws := w0)
  end.
  rewrite (runRefresh_skips env ws t0) by (subst ws; cbn; first [reflexivity | assumption]).
  eexists. split; [reflexivity |]. subst ws. cbn. auto.
Qed.

Lemma restart_within_cooldown_witness :
  let env := answering (response_of [edge_of (node_of 1 "0xAB")]) in
  let w := fresh {| job := {| isRunning := false; lastRun := Some 900;
                              nextRun := None; interval := None |};
                    tokens := [old_token] |} in
  exists w',
    DataRefreshJob.start None env w = (Return tt, w') /\
    job (state w') =
      {| isRunning := true; lastRun := Some 900; nextRun := None;
         interval := Some 1800000 |} /\
    tokens (state w') = [old_token] /\
    trace w' = [].
Proof.
  cbv zeta.
  refine (restart_within_cooldown _ _ None 900 _ _ _ _); try reflexivity.
  discriminate.
Defined.

(** [stop] clears [isRunning] and the timer and touches nothing else (not
    [lastRun], not the collection, not the trace); calling it again, or on
    a job that is not running, changes nothing more. *)
Theorem stop_is_idempotent :
  forall (env : Env) (w : World App),
    exists w',
      DataRefreshJob.stop env w = (Return tt, w') /\
      job (state w') =
        {| isRunning := false;
           lastRun := lastRun (job (state w));
           nextRun := nextRun (job (state w));
           interval := None |} /\
      tokens (state w') = tokens (state w) /\
      trace w' = trace w /\
      DataRefreshJob.stop env w' = (Return tt, w').
Proof.
  intros env w. eexists. split; [reflexivity |].
  repeat split; reflexivity.
Qed.

(** On a started job whose last run began a full cooldown ago or more
    (exactly two minutes included), [runRefresh] goes through: it sends one
    request, and [lastRun] becomes the reading of the clock that follows
    the one the guard compared. *)
Theorem runRefresh_after_cooldown :
  forall (env : Env) (w : World App) (t0 : Z),
    isRunning (job (state w)) = true ->
    lastRun (job (state w)) = Some t0 ->
    t0 <> 0 ->
    DataRefreshJob.cooldown <= clock env (reads w) - t0 ->
    exists o w',
      DataRefreshJob.runRefresh env w = (o, w') /\
      job (state w') =
        with_lastRun (Some (clock env (Nat.succ (reads w)))) (job (state w)) /\
      requests (trace w') = (requests (trace w) + 1)%nat.
Proof.
  intros env w t0 Hrun Hlast Hnz Hge.
  destruct (DataRefreshJob.runRefresh env w) as [o w'] eqn:Hr.
  pose proof (in_cooldown_elapsed env w t0 Hrun Hlast Hnz Hge) as Hg.
  destruct (runRefresh_executed env w (later 1 w) w' o Hg Hr) as [Hj Hreq].
  exists o, w'. split; [reflexivity |]. split; [exact Hj | exact Hreq].
Qed.

(** Exactly two minutes after the last run. *)
Lemma runRefresh_after_cooldown_witness :
  let env := {| clock := ticking 121000;
                upstream := fun _ _ => Data (response_of []);
                arrival := fun k => k;
                regexp_i := fun _ => None;
                cast := fun _ _ => None |} in
  let w := fresh {| job := started 1000; tokens := [old_token] |} in
  exists o w',
    DataRefreshJob.runRefresh env w = (o, w') /\
    job (state w') = with_lastRun (Some 121001) (started 1000) /\
    requests (trace w') = 1%nat.
Proof.
  cbv zeta.
  refine (runRefresh_after_cooldown _ _ 1000 _ _ _ _);
    first [reflexivity | discriminate | (vm_compute; discriminate)].
Defined.


Section JobInvariant.

Variable env : Env.

Lemma start_job (w : World App) (m : option Z) :
  exists w',
    DataRefreshJob.start m env w = (Return tt, w') /\
    (w' = w /\ isRunning (job (state w)) = true \/
     exists l ms,
       job (state w') =
         {| isRunning := true; lastRun := l; nextRun := nextRun (job (state w));
            interval := Some ms |}).
Proof.
  destruct (isRunning (job (state w))) eqn:Hrun.
  - exists w. split; [| now left].
    unfold DataRefreshJob.start, DataRefreshJob.this, bind, get_state, ret.
    cbn. rewrite Hrun. reflexivity.
  - destruct w as [[[run last nxt itv] toks] tr rd cl]. cbn in Hrun. subst run.
    unfold DataRefreshJob.start, DataRefreshJob.this, DataRefreshJob.update.
    unfold bind, get_state, put_state, settled, ret.
    cbn -[DataRefreshJob.runRefresh Z.mul].
    match goal with
    | |- context [DataRefreshJob.runRefresh env ?w0] => set (ws := w0)
    end.
    destruct (DataRefreshJob.runRefresh env ws) as [o w'] eqn:Hr.
    destruct (runRefresh_job env ws w' o Hr) as [l Hj].
    exists w'. split; [reflexivity |]. right.
    exists l. eexists. rewrite Hj. subst ws. reflexivity.
Qed.

Lemma perform_invariant (c : JobCall) (w : World App) :
  job_invariant (job (state w)) ->
  exists w', perform c env w = (Return tt, w') /\ job_invariant (job (state w')).
Proof.
  intros [Hn Hi]. destruct c as [m | | | |]; cbn [perform].
  - destruct (start_job w m) as (w' & Hs & [[-> Hrun] | (l & ms & Hj)]).
    + exists w. split; [exact Hs | now split].
    + exists w'. split; [exact Hs |]. rewrite Hj. split; cbn; [exact Hn |].
      split; [discriminate | reflexivity].
  - eexists. split; [reflexivity |]. split; cbn; [exact Hn |].
    split; [discriminate | congruence].
  - unfold bind, settled, ret.
    destruct (DataRefreshJob.runRefresh env w) as [o w'] eqn:Hr.
    destruct (runRefresh_job env w w' o Hr) as [l Hj].
    exists w'. split; [reflexivity |]. rewrite Hj. now split.
  - unfold bind, settled, ret, DataRefreshJob.forceRefresh.
    destruct (DataRefreshJob.runRefresh env w) as [o w'] eqn:Hr.
    destruct (runRefresh_job env w w' o Hr) as [l Hj].
    exists w'. split; [reflexivity |]. rewrite Hj. now split.
  - unfold bind, settled, ret. rewrite refreshFeaturedTokens_cycle.
    destruct (cycle env w) as [o w'] eqn:Hc.
    destruct (cycle_frame env w w' o Hc) as [Hj _].
    exists w'. split; [reflexivity |]. rewrite Hj. now split.
Qed.

Lemma perform_all_invariant (cs : list JobCall) :
  forall w : World App,
  job_invariant (job (state w)) ->
  exists w', perform_all cs env w = (Return tt, w') /\ job_invariant (job (state w')).
Proof.
  induction cs as [| c r IH]; intros w Hinv.
  - exists w. split; [reflexivity | exact Hinv].
  - destruct (perform_invariant c w Hinv) as (w1 & H1 & Hinv1).
    destruct (IH w1 Hinv1) as (w' & H' & Hinv').
    exists w'. split; [| exact Hinv'].
    cbn [perform_all]. rewrite (bind_Return env _ _ _ _ _ H1). exact H'.
Qed.

End JobInvariant.

(** On a job created by the constructor, after any sequence of [start],
    [stop], [runRefresh], [forceRefresh] and [refreshFeaturedTokens], in
    any order and whatever the upstream answers: [getStatus] reports
    [nextRun] as [null] (no method ever sets it), and reports the interval
    as "active" exactly when it reports [isRunning]. *)
Theorem status_after_any_calls :
  forall (env : Env) (cs : list JobCall) (w : World App),
    job (state w) = new_job ->
    exists w' st,
      perform_all cs env w = (Return tt, w') /\
      DataRefreshJob.getStatus env w' = (Return st, w') /\
      DataRefreshJob.st_nextRun st = None /\
      (DataRefreshJob.st_interval st = "active" <-> DataRefreshJob.st_isRunning st = true).
Proof.
  intros env cs w Hnew.
  assert (Hinv : job_invariant (job (state w))).
  { rewrite Hnew. split; [reflexivity |]. split; [discriminate | now intros []]. }
  destruct (perform_all_invariant env cs w Hinv) as (w' & Hrun & Hn & Hi).
  exists w'. eexists. split; [exact Hrun |]. split; [reflexivity |].
  cbn. split; [exact Hn |].
  destruct (interval (job (state w'))) as [ms |].
  - split; [intros _; apply Hi; discriminate | reflexivity].
  - split; [discriminate |]. intros Hr. apply Hi in Hr. now destruct Hr.
Qed.

Lemma status_after_any_calls_witness :
  let env := rejecting "ECONNREFUSED" in
  let cs := [CallStart (Some 5); CallRunRefresh; CallStop; CallForceRefresh;
             CallRefreshFeaturedTokens; CallStart None] in
  let w := fresh {| job := new_job; tokens := [old_token] |} in
  exists w' st,
    perform_all cs env w = (Return tt, w') /\
    DataRefreshJob.getStatus env w' = (Return st, w') /\
    DataRefreshJob.st_nextRun st = None /\
    (DataRefreshJob.st_interval st = "active" <-> DataRefreshJob.st_isRunning st = true).
Proof.
  cbv zeta. refine (status_after_any_calls _ _ _ _). reflexivity.
Defined.

(* ===================================================================== *)
(** ** Pages of a listing *)
(* ===================================================================== *)

Lemma firstn_plus {A} (a k : nat) :
  forall l : list A, firstn (a + k) l = (firstn a l ++ firstn k (skipn a l))%list.
Proof.
  induction a as [| a IH]; intros l; [reflexivity |].
  destruct l as [| x r]; cbn.
  - now rewrite firstn_nil.
  - now rewrite IH.
Qed.

Lemma window_concat {A} (l : list A) (k : nat) :
  forall n : nat,
  List.concat (map (fun p => firstn k (skipn ((p - 1) * k) l)) (seq 1 n)) = firstn (n * k) l.
Proof.
  induction n as [| n IH]; [reflexivity |].
  rewrite seq_S, map_app, concat_app, IH. cbn [map List.concat plus].
  rewrite app_nil_r. replace (Datatypes.S n - 1)%nat with n by lia.
  replace (Datatypes.S n * k)%nat with (n * k + k)%nat by lia.
  rewrite firstn_plus. reflexivity.
Qed.

Lemma listing_live (lt : string) (w : World App) (t : Token) :
  In t (listing lt w) ->
  In t (tokens (state w)) /\ listType t = lt /\ isActive t = true.
Proof.
  unfold listing. intros H.
  apply (Permutation_in t (sort_desc_perm _)) in H.
  apply filter_In in H. destruct H as [Hin Hl].
  unfold TokenModel.live_of in Hl. apply andb_prop in Hl. destruct Hl as [He Ha].
  apply String.eqb_eq in He. auto.
Qed.

(** A page of a listing (page and limit at least one) holds only live
    tokens of the list type asked for, at most [limit] of them, and none
    once the page starts past the end; [total] counts the live tokens of
    the type whatever the page; [hasNext] says whether tokens remain after
    the page and [hasPrev] whether it is not the first.  The query leaves
    the collection as it was. *)
Theorem listing_page_contents :
  forall (env : Env) (lt : string) (p l : Z) (w : World App),
    1 <= p -> 1 <= l ->
    exists pg,
      TokenService.getTokensByListType lt (Some (Fin p)) (Some (Fin l)) env w =
        (Return pg, queried lt w) /\
      (forall t, In t (TokenService.page_tokens pg) ->
                 In t (tokens (state w)) /\ listType t = lt /\ isActive t = true) /\
      Z.of_nat (List.length (TokenService.page_tokens pg)) <= l /\
      total (TokenService.pagination pg) =
        Z.of_nat (List.length (filter (TokenModel.live_of lt) (tokens (state w)))) /\
      (total (TokenService.pagination pg) <= (p - 1) * l ->
       TokenService.page_tokens pg = []) /\
      (hasNext (TokenService.pagination pg) = true <->
       p * l < total (TokenService.pagination pg)) /\
      (hasPrev (TokenService.pagination pg) = true <-> 1 < p).
Proof.
  intros env lt p l w Hp Hl. eexists.
  rewrite (getTokensByListType_run env lt p l w Hp Hl). cbv zeta.
  split; [reflexivity |].
  cbn [TokenService.page_tokens TokenService.pagination total hasNext hasPrev].
  split; [| split; [| split; [reflexivity | split; [| split]]]].
  - intros t Hin. apply In_window in Hin. now apply listing_live.
  - rewrite length_firstn. lia.
  - intros Hpast. rewrite skipn_all2; [now rewrite firstn_nil |].
    unfold listing. rewrite sort_desc_length. nia.
  - rewrite Z.ltb_lt. split; intros H; nia.
  - apply Z.ltb_lt.
Qed.

Lemma listing_page_contents_witness :
  let env := answering (response_of []) in
  let w := fresh {| job := new_job; tokens := many_tokens |} in
  exists pg,
    TokenService.getTokensByListType "FEATURED" (Some (Fin 4)) (Some (Fin 20)) env w =
      (Return pg, queried "FEATURED" w) /\
    TokenService.page_tokens pg = [] /\
    hasNext (TokenService.pagination pg) = false.
Proof.
  cbv zeta.
  destruct (listing_page_contents (answering (response_of []))
              "FEATURED" 4 20 (fresh {| job := new_job; tokens := many_tokens |}))
    as (pg & Hrun & _ & _ & Htot & Hpast & Hnext & _); [lia | lia |].
  exists pg. split; [exact Hrun |]. split.
  - apply Hpast. rewrite Htot. vm_compute. discriminate.
  - apply Bool.not_true_is_false. intros E.
    apply Hnext in E. rewrite Htot in E. vm_compute in E. discriminate.
Defined.

(** The pages of a listing partition it: for a limit of at least one, the
    first [n] pages put end to end are the first [n * limit] tokens of the
    listing, each token once and in order; so once [n * limit] reaches the
    number of live tokens they are the whole listing, a permutation of the
    live tokens of the type. *)
Theorem listing_pages_partition :
  forall (env : Env) (lt : string) (l : Z) (w : World App) (n : nat),
    1 <= l ->
    List.concat (map (fun p => page_of env lt (Z.of_nat p) l w) (seq 1 n)) =
      firstn (n * Z.to_nat l) (listing lt w) /\
    (Z.of_nat (List.length (filter (TokenModel.live_of lt) (tokens (state w)))) <=
       Z.of_nat n * l ->
     Permutation
       (List.concat (map (fun p => page_of env lt (Z.of_nat p) l w) (seq 1 n)))
       (filter (TokenModel.live_of lt) (tokens (state w)))).
Proof.
  intros env lt l w n Hl.
  assert (Hpages :
    map (fun p => page_of env lt (Z.of_nat p) l w) (seq 1 n) =
    map (fun p => firstn (Z.to_nat l) (skipn ((p - 1) * Z.to_nat l) (listing lt w)))
        (seq 1 n)).
  { apply map_ext_in. intros p Hin. apply in_seq in Hin.
    unfold page_of.
    rewrite (getTokensByListType_run env lt (Z.of_nat p) l w) by lia.
    cbv zeta. cbn [fst TokenService.page_tokens].
    do 2 f_equal. nia. }
  rewrite Hpages, window_concat. split; [reflexivity |].
  intros Hall. rewrite firstn_all2.
  - apply sort_desc_perm.
  - unfold listing. rewrite sort_desc_length. nia.
Qed.

Lemma listing_pages_partition_witness :
  let env := answering (response_of []) in
  let w := fresh {| job := new_job; tokens := many_tokens |} in
  List.concat (map (fun p => page_of env "FEATURED" (Z.of_nat p) 20 w) (seq 1 3)) =
    firstn 60 (listing "FEATURED" w).
Proof.
  cbv zeta.
  refine (proj1 (listing_pages_partition _ "FEATURED" 20 _ 3 _)). lia.
Defined.

(* ===================================================================== *)
(** ** Search *)
(* ===================================================================== *)

Lemma searchTokens_invalid (env : Env) (query : string) (lt : option string)
    (l : option Num) (w : World App) :
  regexp_i env query = None ->
  exists msg,
    TokenService.searchTokens query lt l env w =
      (Throw (Error ("Failed to search tokens: " ++ msg)), w).
Proof.
  intros Hre. eexists.
  unfold TokenService.searchTokens, try_catch, bind, ask. rewrite Hre. reflexivity.
Qed.

Lemma searchTokens_run (env : Env) (query : string) (lt : option string) (l : Z)
    (w : World App) (test : string -> bool) :
  1 <= l ->
  regexp_i env query = Some test ->
  TokenService.searchTokens query lt (Some (Fin l)) env w =
    (Return (firstn (Z.to_nat l)
               (filter (search_hit test (given lt)) (tokens (state w)))),
     searched query w).
Proof.
  intros Hl Hre.
  unfold TokenService.searchTokens, try_catch, bind at 1, ask. rewrite Hre.
  unfold TokenModel.find_matching, TokenModel.limit_docs, bind, emit, get_state, ret.
  cbn [state trace reads calls]. fold (given lt). fold (search_hit test (given lt)).
  destruct (Z.eqb_spec l 0) as [-> | _]; [lia |].
  replace (Z.abs l) with l by lia.
  reflexivity.
Qed.

(** [searchTokens] of the service.  A query that is not a regular
    expression makes it throw before the store is reached.  Otherwise it
    asks the store once and returns, in the order of the collection and
    cut at [limit] (at least one), the live tokens whose name, symbol or
    description passes the expression, of the list type when a non-empty
    one is given. *)
Theorem searchTokens_results :
  forall (env : Env) (query : string) (lt : option string) (l : Z) (w : World App),
    1 <= l ->
    (regexp_i env query = None ->
     exists msg,
       TokenService.searchTokens query lt (Some (Fin l)) env w =
         (Throw (Error ("Failed to search tokens: " ++ msg)), w)) /\
    (forall test,
        regexp_i env query = Some test ->
        exists toks,
          TokenService.searchTokens query lt (Some (Fin l)) env w =
            (Return toks, searched query w) /\
          toks = firstn (Z.to_nat l) (filter (search_hit test (given lt)) (tokens (state w))) /\
          Z.of_nat (List.length toks) <= l /\
          (forall t, In t toks ->
                     In t (tokens (state w)) /\ search_hit test (given lt) t = true)).
Proof.
  intros env query lt l w Hl. split.
  - now apply searchTokens_invalid.
  - intros test Hre. eexists.
    split; [apply (searchTokens_run env query lt l w test Hl Hre) |].
    split; [reflexivity |]. split.
    + rewrite length_firstn. lia.
    + intros t Hin.
      assert (Hin' : In t (filter (search_hit test (given lt)) (tokens (state w)))).
      { rewrite <- (firstn_skipn (Z.to_nat l)). apply in_or_app. now left. }
      now apply filter_In in Hin'.
Qed.

Lemma searchTokens_results_witness :
  let env := answering (response_of []) in
  let w := fresh {| job := new_job; tokens := many_tokens |} in
  exists toks,
    TokenService.searchTokens "Tok" (Some "") (Some (Fin 3)) env w =
      (Return toks, searched "Tok" w) /\
    toks = firstn 3 (filter (search_hit (fun _ => true) None) many_tokens) /\
    Z.of_nat (List.length toks) <= 3 /\
    (forall t, In t toks -> In t many_tokens /\ search_hit (fun _ => true) None t = true).
Proof.
  cbv zeta.
  refine (proj2 (searchTokens_results (answering (response_of [])) "Tok" (Some "") 3 _ _)
            (fun _ => true) _); [lia | reflexivity].
Defined.

(** [searchTokens] of the controller on a query of two characters or more
    once trimmed: what is searched, and echoed in the answer, is the
    trimmed query; a query the engine refuses as an expression is answered
    500 with the store untouched; otherwise the answer is 200 and [count]
    is the number of tokens in [data]. *)
Theorem search_route_answers :
  forall (env : Env) (q : string) (lt : option string) (w : World App),
    2 <= strlen (trim q) ->
    (regexp_i env (trim q) = None ->
     exists msg,
       TokenController.searchTokens (mkQuery (Some q) None None lt) env w =
         (Return (Failed 500 "Failed to search tokens" (Some msg)), w)) /\
    (forall test,
        regexp_i env (trim q) = Some test ->
        exists body,
          TokenController.searchTokens (mkQuery (Some q) None None lt) env w =
            (Return (Ok body), searched (trim q) w) /\
          TokenController.s_query body = trim q /\
          TokenController.s_data body =
            firstn 20 (filter (search_hit test (given lt)) (tokens (state w))) /\
          TokenController.s_count body = Z.of_nat (List.length (TokenController.s_data body))).
Proof.
  intros env q lt w Hq.
  assert (Hne : no_query (Some q) || (strlen (trim (text (Some q))) <? 2) = false).
  { apply orb_false_iff. split.
    - cbn. destruct q; [cbn in Hq; lia | reflexivity].
    - apply Z.ltb_ge. exact Hq. }
  split.
  - intros Hre.
    destruct (searchTokens_invalid env (trim q) lt (Some (Fin 20)) w Hre)
      as [msg Hs].
    eexists. unfold TokenController.searchTokens, try_catch.
    cbn [query_q query_listType query_limit parse_param]. rewrite Hne.
    cbn [text]. rewrite (bind_Throw env _ _ _ _ _ Hs). reflexivity.
  - intros test Hre.
    pose proof (searchTokens_run env (trim q) lt 20 w test ltac:(lia) Hre) as Hs.
    eexists. unfold TokenController.searchTokens, try_catch.
    cbn [query_q query_listType query_limit parse_param]. rewrite Hne.
    cbn [text]. rewrite (bind_Return env _ _ _ _ _ Hs).
    split; [reflexivity |]. cbn [TokenController.s_query TokenController.s_data
                                 TokenController.s_count].
    split; [reflexivity |]. split; reflexivity.
Qed.

Lemma search_route_answers_witness :
  let env := {| clock := ticking 0; upstream := fun _ _ => Rejected "";
                arrival := fun k => k;
                regexp_i := fun _ => None;
                cast := fun _ _ => None |} in
  let w := fresh {| job := new_job; tokens := many_tokens |} in
  exists msg,
    TokenController.searchTokens (mkQuery (Some "  (( ") None None None) env w =
      (Return (Failed 500 "Failed to search tokens" (Some msg)), w).
Proof.
  cbv zeta.
  refine (proj1 (search_route_answers _ "  (( " None _ _) _); [| reflexivity].
  vm_compute. discriminate.
Defined.

(* ===================================================================== *)
(** ** The address route and the refresh route of the controller *)
(* ===================================================================== *)

Lemma hex_digits_length (n : nat) :
  forall s, TokenController.hex_digits n s = true -> String.length s = n.
Proof.
  induction n as [| n IH]; intros [| c r] H; cbn in H; try discriminate.
  - reflexivity.
  - apply andb_prop in H. destruct H as [_ H]. cbn. f_equal. now apply IH.
Qed.

Lemma address_format_nonempty (a : string) :
  TokenController.address_format a = true -> String.eqb a "" = false.
Proof. destruct a; [discriminate | reflexivity]. Qed.

(** [getTokenByAddress] of the controller.  An address that is not [0x]
    followed by forty hexadecimal digits is answered 400 and the store is
    not asked.  A well-formed one (forty-two characters) is looked up
    once, in lower case: 404 when no live token is stored under it,
    otherwise 200 with the first live token whose address is that
    lower-case form. *)
Theorem address_route_answers :
  forall (env : Env) (a : string) (w : World App),
    (TokenController.address_format a = false ->
     TokenController.getTokenByAddress a env w =
       (Return (Failed 400 "Invalid address format" None), w)) /\
    (TokenController.address_format a = true ->
     String.length a = 42%nat /\
     ((forall t, In t (tokens (state w)) ->
                 TokenModel.has_address (toLowerCase a) t = false) /\
      TokenController.getTokenByAddress a env w =
        (Return (Failed 404 "Token not found" None), looked_up (toLowerCase a) w)
      \/
      exists t,
        TokenController.getTokenByAddress a env w =
          (Return (Ok t), looked_up (toLowerCase a) w) /\
        In t (tokens (state w)) /\
        address t = JStr (toLowerCase a) /\
        isActive t = true /\
        List.find (TokenModel.has_address (toLowerCase a)) (tokens (state w)) = Some t)).
Proof.
  intros env a w. split.
  - intros Hbad. unfold TokenController.getTokenByAddress, try_catch.
    rewrite Hbad. cbn [negb]. rewrite orb_true_r. reflexivity.
  - intros Hok. split.
    { destruct a as [| c0 [| c1 r]]; try discriminate.
      cbn [TokenController.address_format] in Hok.
      apply andb_prop in Hok. destruct Hok as [_ Hhex].
      cbn. now rewrite (hex_digits_length 40 r Hhex). }
    unfold TokenController.getTokenByAddress, try_catch.
    rewrite Hok, (address_format_nonempty a Hok). cbn [negb orb].
    rewrite (bind_Return env _ _ _ _ _ (getTokenByAddress_run env a w)).
    destruct (List.find (TokenModel.has_address (toLowerCase a)) (tokens (state w)))
      as [t |] eqn:Hf.
    + right. exists t. split; [reflexivity |].
      destruct (find_some _ _ Hf) as [Hin Hh]. split; [exact Hin |].
      unfold TokenModel.has_address in Hh.
      destruct (address t); try discriminate.
      apply andb_prop in Hh. destruct Hh as [He Ha].
      apply String.eqb_eq in He. subst. auto.
    + left. split; [| reflexivity].
      intros t Hin. apply (find_none _ _ Hf t Hin).
Qed.

Lemma address_route_answers_witness :
  let env := answering (response_of []) in
  let w := fresh {| job := new_job; tokens := many_tokens |} in
  TokenController.getTokenByAddress "0XAB" env w =
    (Return (Failed 400 "Invalid address format" None), w).
Proof.
  cbv zeta. refine (proj1 (address_route_answers _ "0XAB" _) _). reflexivity.
Defined.

(** [refreshTokens] of the controller never consults the job: it always
    sends the FEATURED request and leaves the job as it is.  When the
    upstream rejects, the answer is 500 with the message of the fetch and
    the collection is untouched; when the response holds no edge, the
    answer is 200 around a [{ success: false }] result and the collection
    is untouched as well. *)
Theorem refresh_route_answers :
  forall (env : Env) (w : World App),
    (exists r w' evs,
        TokenController.refreshTokens env w = (Return r, w') /\
        job (state w') = job (state w) /\
        trace w' = (trace w ++ EvGet featured_request :: evs)%list /\
        forallb is_store evs = true) /\
    (forall msg,
        upstream env (calls w) featured_request = Rejected msg ->
        TokenController.refreshTokens env w =
          (Return (Failed 500 "Failed to refresh FEATURED tokens"
                     (Some ("Failed to fetch FEATURED tokens: " ++ msg))),
           sent featured_request w)) /\
    (forall body,
        upstream env (calls w) featured_request = Data body ->
        truthy (edges_of body) = false \/ edges_of body = JArr [] ->
        exists r,
          TokenController.refreshTokens env w = (Return (Ok r), sent featured_request w) /\
          TokenService.success r = false).
Proof.
  intros env w. split; [| split].
  - rewrite refreshTokens_cycle.
    destruct (cycle env w) as [o w'] eqn:Hc.
    destruct (cycle_frame env w w' o Hc) as (Hj & evs & Htr & Hst).
    destruct o; eexists; exists w', evs; (split; [reflexivity | auto]).
  - intros msg Hrej. rewrite refreshTokens_cycle, (cycle_rejected env w msg Hrej).
    reflexivity.
  - intros body Hup Hnone.
    rewrite refreshTokens_cycle, (cycle_data env w body Hup).
    rewrite (bind_Return env _ _ _ _ _ (transformTokens_empty env body "FEATURED" _ Hnone)).
    rewrite replace_nothing by auto.
    eexists. split; reflexivity.
Qed.

Lemma refresh_route_answers_witness :
  let env := rejecting "Request failed with status code 503" in
  let w := fresh {| job := started 1000; tokens := [old_token] |} in
  TokenController.refreshTokens env w =
    (Return (Failed 500 "Failed to refresh FEATURED tokens"
               (Some "Failed to fetch FEATURED tokens: Request failed with status code 503")),
     sent featured_request w).
Proof.
  cbv zeta.
  refine (proj1 (proj2 (refresh_route_answers _ _)) _ _). reflexivity.
Defined.

(* ===================================================================== *)
(** ** The aging sweep *)
(* ===================================================================== *)

Lemma cleanupOldTokens_run (env : Env) (days : option Z) (w : World App) :
  TokenService.cleanupOldTokens days env w =
  let cutoff := cutoff_of days (clock env (reads w)) in
  (Return {| TokenService.cleanup_success := true;
             TokenService.cleaned :=
               Z.of_nat (List.length (filter (TokenModel.aged cutoff) (tokens (state w)))) |},
   mkWorld (set_tokens
              (map (fun t => if TokenModel.aged cutoff t then TokenModel.retire t else t)
                   (tokens (state w)))
              (state w))
           (trace w) (Nat.succ (reads w)) (calls w)).
Proof. reflexivity. Qed.

Lemma insert_desc_sorted (t : Token) (l : list Token) :
  StronglySorted newer l -> StronglySorted newer (TokenModel.insert_desc t l).
Proof.
  induction 1 as [| x r Hr IH Hx]; cbn.
  - repeat constructor.
  - destruct (Z.leb_spec (lastUpdated x) (lastUpdated t)) as [Hle | Hgt].
    + constructor; [now constructor |].
      constructor; [exact Hle |].
      rewrite Forall_forall in *. intros y Hy. specialize (Hx y Hy).
      unfold newer in *. lia.
    + constructor; [exact IH |].
      rewrite Forall_forall in *. intros y Hy.
      apply (Permutation_in y (insert_desc_perm t r)) in Hy.
      destruct Hy as [<- | Hy]; [unfold newer; lia | now apply Hx].
Qed.

Lemma sort_desc_sorted (l : list Token) :
  StronglySorted newer (TokenModel.sort_desc l).
Proof.
  induction l as [| t r IH]; cbn; [constructor | now apply insert_desc_sorted].
Qed.

Lemma insert_desc_first (t : Token) (l : list Token) :
  Forall (newer t) l -> TokenModel.insert_desc t l = t :: l.
Proof.
  intros H. destruct l as [| x r]; [reflexivity |]. cbn.
  inversion H as [| ? ? Hx _]; subst. unfold newer in Hx.
  apply Z.leb_le in Hx. now rewrite Hx.
Qed.

Lemma filter_insert_desc (p : Token -> bool) (t : Token) (l : list Token) :
  StronglySorted newer l ->
  filter p (TokenModel.insert_desc t l) =
  if p t then TokenModel.insert_desc t (filter p l) else filter p l.
Proof.
  induction 1 as [| x r Hr IH Hx]; cbn.
  - destruct (p t); reflexivity.
  - destruct (Z.leb_spec (lastUpdated x) (lastUpdated t)) as [Hle | Hgt].
    + cbn. destruct (p t) eqn:Hpt; [| reflexivity].
      symmetry. apply insert_desc_first.
      assert (Hall : Forall (newer t) (x :: r)).
      { constructor; [exact Hle |].
        rewrite Forall_forall in *. intros y Hy. specialize (Hx y Hy).
        unfold newer in *. lia. }
      rewrite Forall_forall in *. intros y Hy.
      apply Hall. change (In y (filter p (x :: r))) in Hy.
      now apply filter_In in Hy.
    + cbn. rewrite IH. destruct (p x), (p t); cbn; try reflexivity.
      apply Z.leb_gt in Hgt. now rewrite Hgt.
Qed.

(** Sorting by date and filtering commute. *)
Lemma sort_desc_filter (p : Token -> bool) (l : list Token) :
  TokenModel.sort_desc (filter p l) = filter p (TokenModel.sort_desc l).
Proof.
  induction l as [| t r IH]; [reflexivity |].
  cbn [filter TokenModel.sort_desc fold_right].
  fold (TokenModel.sort_desc r).
  rewrite (filter_insert_desc p t _ (sort_desc_sorted r)).
  destruct (p t); [| exact IH].
  cbn [TokenModel.sort_desc fold_right]. fold (TokenModel.sort_desc (filter p r)).
  now rewrite IH.
Qed.

Lemma filter_map_retire (lt : string) (cutoff : Z) (l : list Token) :
  filter (TokenModel.live_of lt)
    (map (fun t => if TokenModel.aged cutoff t then TokenModel.retire t else t) l) =
  filter (fun t => cutoff <=? lastUpdated t) (filter (TokenModel.live_of lt) l).
Proof.
  induction l as [| t r IH]; [reflexivity |].
  cbn [map filter]. rewrite IH.
  unfold TokenModel.aged, TokenModel.live_of.
  destruct (isActive t) eqn:Ha; cbn [andb].
  - destruct (Z.ltb_spec (lastUpdated t) cutoff) as [Hold | Hnew].
    + cbn. rewrite andb_false_r.
      destruct (String.eqb (listType t) lt); [| reflexivity].
      cbn. destruct (Z.leb_spec cutoff (lastUpdated t)); [lia | reflexivity].
    + rewrite Ha. destruct (String.eqb (listType t) lt); [| reflexivity].
      cbn. destruct (Z.leb_spec cutoff (lastUpdated t)); [reflexivity | lia].
  - rewrite Ha, andb_false_r. reflexivity.
Qed.

(** [cleanupOldTokens] is a soft delete.  With the cutoff [daysOld] days
    before the clock reading, it reports as [cleaned] the number of live
    tokens last updated strictly before the cutoff, and flips exactly
    those to inactive: no document is removed or reordered, every other
    document is unchanged, and afterwards no live token is older than the
    cutoff.  The job and the trace are untouched. *)
Theorem cleanup_is_soft_delete :
  forall (env : Env) (days : option Z) (w : World App),
    let cutoff := cutoff_of days (clock env (reads w)) in
    exists r w',
      TokenService.cleanupOldTokens days env w = (Return r, w') /\
      TokenService.cleanup_success r = true /\
      TokenService.cleaned r =
        Z.of_nat (List.length (filter (TokenModel.aged cutoff) (tokens (state w)))) /\
      Forall2 (fun t t' =>
                 TokenModel.aged cutoff t = false /\ t' = t \/
                 TokenModel.aged cutoff t = true /\ t' = TokenModel.retire t)
              (tokens (state w)) (tokens (state w')) /\
      (forall t', In t' (tokens (state w')) -> isActive t' = true ->
                  cutoff <= lastUpdated t') /\
      job (state w') = job (state w) /\
      trace w' = trace w.
Proof.
  intros env days w cutoff. rewrite cleanupOldTokens_run. cbv zeta.
  fold cutoff. eexists. eexists. split; [reflexivity |].
  cbn [TokenService.cleanup_success TokenService.cleaned state tokens set_tokens job trace].
  split; [reflexivity |]. split; [reflexivity |]. split; [| split; [| split; reflexivity]].
  - induction (tokens (state w)) as [| t r IH]; cbn [map]; constructor; [| exact IH].
    destruct (TokenModel.aged cutoff t); auto.
  - intros t' Hin Hact. apply in_map_iff in Hin. destruct Hin as (t & <- & _).
    unfold TokenModel.aged in *.
    destruct (isActive t) eqn:Ha; cbn [andb] in *.
    + destruct (Z.ltb_spec (lastUpdated t) cutoff); [discriminate Hact | lia].
    + congruence.
Qed.

Lemma cleanup_is_soft_delete_witness :
  let w := fresh {| job := new_job; tokens := [old_token; boundary_token] |} in
  exists r w',
    TokenService.cleanupOldTokens None week_later w = (Return r, w') /\
    TokenService.cleaned r = 1 /\
    (forall t', In t' (tokens (state w')) -> isActive t' = true -> 600 <= lastUpdated t').
Proof.
  cbv zeta.
  pose proof (cleanup_is_soft_delete week_later None
                (fresh {| job := new_job; tokens := [old_token; boundary_token] |})) as H.
  cbv zeta in H. destruct H as (r & w' & Hrun & _ & Hc & _ & Hlive & _).
  exists r, w'. split; [exact Hrun |]. split; [rewrite Hc; reflexivity | exact Hlive].
Defined.

(** After the sweep, every listing is the listing of before without the
    tokens older than the cutoff, the others keeping their order; and its
    [total] is their number. *)
Theorem cleanup_then_listing :
  forall (env : Env) (days : option Z) (w : World App) (lt : string),
    let cutoff := cutoff_of days (clock env (reads w)) in
    let w' := snd (TokenService.cleanupOldTokens days env w) in
    listing lt w' = filter (fun t => cutoff <=? lastUpdated t) (listing lt w) /\
    forall p l : Z,
      1 <= p -> 1 <= l ->
      exists pg,
        TokenService.getTokensByListType lt (Some (Fin p)) (Some (Fin l)) env w' =
          (Return pg, queried lt w') /\
        total (TokenService.pagination pg) =
          Z.of_nat (List.length
            (filter (fun t => cutoff <=? lastUpdated t) (listing lt w))) /\
        forall t, In t (TokenService.page_tokens pg) -> cutoff <= lastUpdated t.
Proof.
  intros env days w lt cutoff w'.
  assert (Hlive :
    filter (TokenModel.live_of lt) (tokens (state w')) =
    filter (fun t => cutoff <=? lastUpdated t)
           (filter (TokenModel.live_of lt) (tokens (state w)))).
  { subst w'. rewrite cleanupOldTokens_run. cbv zeta. fold cutoff.
    cbn [snd state tokens set_tokens]. apply filter_map_retire. }
  assert (Hlisting :
    listing lt w' = filter (fun t => cutoff <=? lastUpdated t) (listing lt w)).
  { unfold listing. rewrite Hlive. apply sort_desc_filter. }
  split; [exact Hlisting |].
  intros p l Hp Hl. eexists.
  rewrite (getTokensByListType_run env lt p l w' Hp Hl). cbv zeta.
  split; [reflexivity |].
  cbn [TokenService.pagination TokenService.page_tokens total]. split.
  - rewrite <- Hlisting. unfold listing. now rewrite sort_desc_length.
  - intros t Hin. apply In_window in Hin. rewrite Hlisting in Hin.
    apply filter_In in Hin. destruct Hin as [_ Hc]. now apply Z.leb_le.
Qed.

Lemma cleanup_then_listing_witness :
  let w := fresh {| job := new_job; tokens := [old_token; boundary_token] |} in
  let w' := snd (TokenService.cleanupOldTokens None week_later w) in
  listing "FEATURED" w' = [boundary_token].
Proof.
  cbv zeta.
  refine (eq_trans
            (proj1 (cleanup_then_listing week_later None
                      (fresh {| job := new_job; tokens := [old_token; boundary_token] |})
                      "FEATURED")) _).
  reflexivity.
Defined.

(* ===================================================================== *)
(** ** Statistics and lookup by several addresses *)
(* ===================================================================== *)

Lemma getStats_run (env : Env) (w : World App) :
  TokenService.getStats env w =
  let live := filter isActive (tokens (state w)) in
  let since := clock env (reads w) - 24 * 60 * 60 * 1000 in
  (Return {| TokenService.totalTokens := Z.of_nat (List.length live);
             TokenService.byListType := TokenModel.group_count live;
             TokenService.recentTokens :=
               Z.of_nat (List.length
                 (filter (fun t => isActive t && (since <=? lastUpdated t))
                         (tokens (state w))));
             TokenService.stats_lastUpdated := clock env (Nat.succ (reads w)) |},
   later 2 w).
Proof. reflexivity. Qed.

Lemma entry_of_filter_other (k k' : string) (o : list (string * Z)) :
  k <> k' ->
  entry_of k (filter (fun g => negb (String.eqb (fst g) k')) o) = entry_of k o.
Proof.
  intros Hne. induction o as [| [a v] r IH]; [reflexivity |]. cbn.
  destruct (String.eqb_spec a k') as [-> | Ha]; cbn.
  - rewrite IH. destruct (String.eqb_spec k k'); [contradiction | reflexivity].
  - now rewrite IH.
Qed.

(** The group of a list type holds the number of tokens of that type, and
    a type without token has no group. *)
Lemma group_count_entry (lt : string) (l : list Token) :
  entry_of lt (TokenModel.group_count l) =
  if count_of lt l =? 0 then None else Some (count_of lt l).
Proof.
  unfold count_of. induction l as [| t r IH]; [reflexivity |].
  cbn [TokenModel.group_count entry_of filter].
  destruct (String.eqb_spec lt (listType t)) as [-> | Hne].
  - rewrite String.eqb_refl. cbn [List.length].
    set (n := List.length (filter (fun u => String.eqb (listType u) (listType t)) r)).
    destruct (Z.eqb_spec (Z.of_nat (Datatypes.S n)) 0) as [E | _]; [lia |].
    f_equal. lia.
  - destruct (String.eqb_spec (listType t) lt) as [He | _]; [congruence |].
    rewrite entry_of_filter_other by exact Hne. exact IH.
Qed.

Lemma sum_of_filter_other (k : string) (o : list (string * Z)) :
  sum_of o =
  sum_of (filter (fun g => negb (String.eqb (fst g) k)) o) +
  sum_of (filter (fun g => String.eqb (fst g) k) o).
Proof.
  induction o as [| [a v] r IH]; [reflexivity |]. cbn.
  destruct (String.eqb a k); cbn; unfold sum_of in *; cbn; lia.
Qed.

Lemma group_count_only (k : string) (l : list Token) :
  sum_of (filter (fun g => String.eqb (fst g) k) (TokenModel.group_count l)) =
  count_of k l.
Proof.
  unfold count_of. induction l as [| t r IH]; [reflexivity |].
  cbn [TokenModel.group_count filter fst].
  destruct (String.eqb_spec (listType t) k) as [He | Hne].
  - subst k. cbn [sum_of fold_right snd List.length].
    assert (Hz : forall o : list (string * Z),
               filter (fun g => String.eqb (fst g) (listType t))
                 (filter (fun g => negb (String.eqb (fst g) (listType t))) o) = []).
    { intros o. induction o as [| [a v] o IHo]; [reflexivity |]. cbn.
      destruct (String.eqb a (listType t)) eqn:E; cbn; [exact IHo |].
      rewrite E. exact IHo. }
    fold (sum_of (filter (fun g => String.eqb (fst g) (listType t))
            (filter (fun g => negb (String.eqb (fst g) (listType t)))
               (TokenModel.group_count r)))).
    rewrite Hz. unfold sum_of. cbn [fold_right]. lia.
  - assert (Hc : forall o : list (string * Z),
               filter (fun g => String.eqb (fst g) k)
                 (filter (fun g => negb (String.eqb (fst g) (listType t))) o) =
               filter (fun g => String.eqb (fst g) k) o).
    { intros o. induction o as [| [a v] o IHo]; [reflexivity |]. cbn.
      destruct (String.eqb_spec a (listType t)) as [-> | Ha]; cbn.
      - destruct (String.eqb_spec (listType t) k); [contradiction | exact IHo].
      - now rewrite IHo. }
    rewrite Hc. exact IH.
Qed.

Lemma group_count_sum (l : list Token) :
  sum_of (TokenModel.group_count l) = Z.of_nat (List.length l).
Proof.
  induction l as [| t r IH]; [reflexivity |].
  cbn [TokenModel.group_count sum_of fold_right snd List.length].
  fold (sum_of (filter (fun g => negb (String.eqb (fst g) (listType t)))
                  (TokenModel.group_count r))).
  pose proof (sum_of_filter_other (listType t) (TokenModel.group_count r)) as Hs.
  rewrite (group_count_only (listType t) r) in Hs. unfold count_of in Hs. lia.
Qed.

(** [getStats] counts live tokens only and its figures agree: the counts of
    [byListType] add up to [totalTokens]; the entry of a list type is the
    [total] that a listing of that type reports, a type without live token
    having no entry; and [recentTokens] is at most [totalTokens].  It
    reads the clock twice and changes nothing. *)
Theorem stats_are_consistent :
  forall (env : Env) (w : World App),
    exists st,
      TokenService.getStats env w = (Return st, later 2 w) /\
      TokenService.totalTokens st =
        Z.of_nat (List.length (filter isActive (tokens (state w)))) /\
      sum_of (TokenService.byListType st) = TokenService.totalTokens st /\
      0 <= TokenService.recentTokens st <= TokenService.totalTokens st /\
      (forall lt : string,
          exists pg,
            TokenService.getTokensByListType lt (Some (Fin 1)) (Some (Fin 20)) env w =
              (Return pg, queried lt w) /\
            entry_of lt (TokenService.byListType st) =
              if total (TokenService.pagination pg) =? 0 then None
              else Some (total (TokenService.pagination pg))).
Proof.
  intros env w. eexists. rewrite getStats_run. cbv zeta.
  split; [reflexivity |].
  cbn [TokenService.totalTokens TokenService.byListType TokenService.recentTokens].
  split; [reflexivity |]. split; [apply group_count_sum |]. split.
  - split; [lia |]. apply inj_le.
    induction (tokens (state w)) as [| t r IH]; [cbn; lia |].
    cbn [filter]. destruct (isActive t); cbn [andb]; [| exact IH].
    destruct (_ <=? lastUpdated t); cbn [List.length]; lia.
  - intros lt. eexists.
    rewrite (getTokensByListType_run env lt 1 20 w) by lia. cbv zeta.
    split; [reflexivity |]. cbn [TokenService.pagination total].
    rewrite group_count_entry. unfold count_of, TokenModel.live_of.
    assert (Hf : forall l : list Token,
               filter (fun t => String.eqb (listType t) lt) (filter isActive l) =
               filter (fun t => String.eqb (listType t) lt && isActive t) l).
    { intros l. induction l as [| t r IH]; [reflexivity |]. cbn.
      destruct (isActive t); cbn.
      - rewrite andb_true_r, IH. reflexivity.
      - rewrite andb_false_r. exact IH. }
    rewrite Hf. reflexivity.
Qed.

Lemma getTokensByAddresses_run (env : Env) (addrs : list string) (w : World App) :
  TokenService.getTokensByAddresses addrs env w =
  (Return (filter (TokenModel.among (map toLowerCase addrs)) (tokens (state w))), w).
Proof. destruct w. reflexivity. Qed.

Lemma among_one (a : string) (t : Token) :
  TokenModel.among [a] t = TokenModel.has_address a t.
Proof.
  unfold TokenModel.among, TokenModel.has_address.
  destruct (address t); try reflexivity. cbn. now rewrite orb_false_r.
Qed.

Lemma find_is_head_of_filter {A} (p : A -> bool) (l : list A) :
  List.find p l = hd_error (filter p l).
Proof.
  induction l as [| a r IH]; [reflexivity |]. cbn.
  destruct (p a); [reflexivity | exact IH].
Qed.

Lemma case_variants_lower (l : list string) :
  forall l', Forall2 (fun a q => case_variant a q = true) l l' ->
  map toLowerCase l' = map toLowerCase l.
Proof.
  induction l as [| a r IH]; intros l' H; inversion H; subst; [reflexivity |].
  cbn. f_equal; [now apply case_variant_lower | now apply IH].
Qed.

(** [getTokensByAddresses] returns, in the order of the collection, the
    live tokens stored under the lower-case form of one of the addresses:
    nothing for an empty list, the same for spellings that differ in case
    only, and for a single address its first token is the one
    [getTokenByAddress] finds.  The collection is unchanged. *)
Theorem lookup_by_addresses :
  forall (env : Env) (addrs : list string) (w : World App),
    exists toks,
      TokenService.getTokensByAddresses addrs env w = (Return toks, w) /\
      (addrs = [] -> toks = []) /\
      (forall t, In t toks <->
                 In t (tokens (state w)) /\ isActive t = true /\
                 exists a, In a addrs /\ address t = JStr (toLowerCase a)) /\
      (forall addrs',
          Forall2 (fun a q => case_variant a q = true) addrs addrs' ->
          TokenService.getTokensByAddresses addrs' env w = (Return toks, w)) /\
      (forall a,
          addrs = [a] ->
          fst (TokenService.getTokenByAddress a env w) = Return (hd_error toks)) /\
      toks = filter (TokenModel.among (map toLowerCase addrs)) (tokens (state w)).
Proof.
  intros env addrs w. eexists. rewrite getTokensByAddresses_run.
  split; [reflexivity |]. split; [| split; [| split; [| split; [| reflexivity]]]].
  - intros ->. cbn. apply filter_none. intros t _.
    unfold TokenModel.among. destruct (address t); reflexivity.
  - intros t. rewrite filter_In. unfold TokenModel.among. split.
    + intros [Hin Hh]. split; [exact Hin |].
      destruct (address t) as [| | | | s | | |] eqn:Ha; try discriminate.
      apply andb_prop in Hh. destruct Hh as [He Hact]. split; [exact Hact |].
      apply existsb_exists in He. destruct He as (x & Hx & Hs).
      apply String.eqb_eq in Hs. subst x.
      apply in_map_iff in Hx. destruct Hx as (a & Ha' & Hina).
      exists a. split; [exact Hina | now rewrite Ha'].
    + intros (Hin & Hact & a & Hina & Ha). split; [exact Hin |].
      rewrite Ha, Hact, andb_true_r. apply existsb_exists.
      exists (toLowerCase a). split; [now apply in_map | apply String.eqb_refl].
  - intros addrs' Hv. rewrite getTokensByAddresses_run.
    now rewrite (case_variants_lower addrs addrs' Hv).
  - intros a ->. rewrite getTokenByAddress_run. cbn [fst map].
    f_equal. rewrite find_is_head_of_filter. f_equal.
    apply filter_ext. intros t. symmetry. apply among_one.
Qed.

Lemma lookup_by_addresses_witness :
  let env := answering (response_of []) in
  let w := fresh {| job := new_job; tokens := [old_token; boundary_token] |} in
  exists toks,
    TokenService.getTokensByAddresses ["0X0B"; "0x0A"] env w = (Return toks, w) /\
    TokenService.getTokensByAddresses ["0x0b"; "0x0a"] env w = (Return toks, w).
Proof.
  cbv zeta.
  destruct (lookup_by_addresses (answering (response_of [])) ["0X0B"; "0x0A"]
              (fresh {| job := new_job; tokens := [old_token; boundary_token] |}))
    as (toks & Hrun & _ & _ & Hv & _).
  exists toks. split; [exact Hrun |]. apply Hv.
  repeat constructor.
Defined.

(* ===================================================================== *)
(** ** What a replace leaves behind *)
(* ===================================================================== *)

Lemma insert_ordered_prefix (docs : list Token) :
  forall coll coll' ok,
  TokenModel.insert_ordered coll docs = (coll', ok) ->
  exists k,
    coll' = (coll ++ firstn k docs)%list /\
    (k <= List.length docs)%nat /\
    (ok = true <-> k = List.length docs).
Proof.
  induction docs as [| d r IH]; intros coll coll' ok H; cbn in H.
  - injection H as <- <-. exists 0%nat. cbn. rewrite app_nil_r.
    repeat split; auto.
  - destruct (existsb (TokenModel.same_zoraId d) coll).
    + injection H as <- <-. exists 0%nat. cbn. rewrite app_nil_r.
      repeat split; try lia; discriminate.
    + apply IH in H. destruct H as (k & -> & Hk & Hok).
      exists (Datatypes.S k). cbn. rewrite <- app_assoc. cbn.
      repeat split; try lia.
      * intros Ht. apply Hok in Ht. lia.
      * intros Ht. apply Hok. lia.
Qed.

Lemma dated_firstn (clk : nat -> Z) (ds : list Token) :
  forall k n, firstn n (dated clk k ds) = dated clk k (firstn n ds).
Proof.
  induction ds as [| d r IH]; intros k n; destruct n; cbn; try reflexivity.
  now rewrite IH.
Qed.

(** A replace with a non-empty list, the store answering its delete.  The
    FEATURED documents of before are gone whatever happens next, and the
    documents of the other list types stay, in order, in front of what the
    insert adds.  When the schema refuses one of the tokens the insert
    adds nothing: the replace throws an error that starts "Failed to
    replace FEATURED tokens: " and the category is left empty, the delete
    not being undone.  When the schema accepts them all, what is added is
    a prefix of their documents, the whole of it exactly when the replace
    resolves (a duplicate key stops the insert where it occurs).  The job
    is untouched. *)
Theorem replace_is_not_atomic :
  forall (env : Env) (w : World App) (toks : list Token),
    toks <> [] ->
    exists o w' added,
      TokenService.replaceFeaturedTokens (Some toks) env w = (o, w') /\
      tokens (state w') =
        (filter (fun t => negb (featured t)) (tokens (state w)) ++ added)%list /\
      job (state w') = job (state w) /\
      (TokenModel.documents env toks = None ->
       added = [] /\
       filter featured (tokens (state w')) = [] /\
       exists msg, o = Throw (Error ("Failed to replace FEATURED tokens: " ++ msg))) /\
      (forall ds,
          TokenModel.documents env toks = Some ds ->
          exists k,
            added = dated (clock env) (reads w) (firstn k ds) /\
            ((exists r, o = Return r) <-> k = List.length toks)).
Proof.
  intros env w toks Hne.
  assert (Hgone : forall l : list Token,
            filter featured (filter (fun t => negb (featured t)) l) = []).
  { intros l. apply filter_none. intros t Hin. apply filter_In in Hin.
    destruct Hin as [_ Hn]. now apply negb_true_iff in Hn. }
  rewrite (replace_run env w toks Hne). cbv zeta.
  destruct (TokenModel.documents env toks) as [ds |] eqn:Hd.
  - destruct (TokenModel.insert_ordered _ _) as [coll ok] eqn:Hins.
    destruct (insert_ordered_prefix _ _ _ _ Hins) as (k & -> & Hk & Hok).
    rewrite dated_length, (documents_length env toks ds Hd) in Hk, Hok.
    destruct ok; eexists; eexists; eexists; (split; [reflexivity |]);
      cbn [stored purged state tokens set_tokens job];
      (split; [reflexivity |]); (split; [reflexivity |]);
      (split; [discriminate |]);
      intros ds' [= <-]; exists k; (split; [apply dated_firstn |]).
    + split; [intros _; now apply Hok | eauto].
    + split; [intros [r Hr]; discriminate Hr |].
      intros Hk'. apply Hok in Hk'. discriminate.
  - eexists. eexists. exists []. split; [reflexivity |].
    cbn [purged state tokens set_tokens job]. rewrite app_nil_r.
    split; [reflexivity |]. split; [reflexivity |]. split; [| discriminate].
    intros _. split; [reflexivity |]. split; [apply Hgone | eauto].
Qed.

(** A token without an address is refused by the schema: the stored
    FEATURED token is gone and nothing has taken its place. *)
Lemma replace_is_not_atomic_witness :
  let env := answering (response_of []) in
  let w := fresh {| job := new_job;
                    tokens := [old_token; record_of "NEW" (node_of 9 "0x0c") 1] |} in
  let toks := [record_of "FEATURED" (JObj [("id", JStr "zora-1")]) 2000] in
  exists o w' added,
    TokenService.replaceFeaturedTokens (Some toks) env w = (o, w') /\
    tokens (state w') = ([record_of "NEW" (node_of 9 "0x0c") 1] ++ added)%list /\
    added = [] /\
    filter featured (tokens (state w')) = [].
Proof.
  cbv zeta.
  destruct (replace_is_not_atomic (answering (response_of []))
              (fresh {| job := new_job;
                        tokens := [old_token; record_of "NEW" (node_of 9 "0x0c") 1] |})
              [record_of "FEATURED" (JObj [("id", JStr "zora-1")]) 2000])
    as (o & w' & added & Hrun & Hcoll & _ & Hnone & _).
  - discriminate.
  - destruct (Hnone eq_refl) as (Hadded & Hempty & _).
    exists o, w', added. split; [exact Hrun |]. split; [exact Hcoll |].
    split; [exact Hadded | exact Hempty].
Defined.

(* ===================================================================== *)
(** ** A whole refresh, and the rest of the Zora client *)
(* ===================================================================== *)

(** A [runRefresh] that passed the guard and resolved to a result with
    [success] set: the response held a non-empty list of edges, the schema
    accepted the record of every edge, and the collection is now what the
    other list types had, followed by the documents of those records in
    the order of the edges; these are the live FEATURED documents.  The
    records are dated by the readings of the clock that follow the stamp
    of the job, the documents by the readings after those; the result
    counts the FEATURED documents deleted and the records inserted. *)
Theorem refresh_then_listing :
  forall (env : Env) (w w0 w' : World App) (body : Value) (r : TokenService.ReplaceResult),
    DataRefreshJob.in_cooldown env w = (Return false, w0) ->
    upstream env (calls w) featured_request = Data body ->
    DataRefreshJob.runRefresh env w = (Return (Some r), w') ->
    TokenService.success r = true ->
    exists items ds,
      edges_of body = JArr items /\
      items <> [] /\
      TokenModel.documents env
        (records_of "FEATURED" (clock env) (Nat.succ (reads w0)) items) = Some ds /\
      let docs := dated (clock env) (Nat.succ (reads w0) + List.length items) ds in
      List.length docs = List.length items /\
      tokens (state w') =
        (filter (fun t => negb (featured t)) (tokens (state w)) ++ docs)%list /\
      filter (TokenModel.live_of "FEATURED") (tokens (state w')) = docs /\
      r = TokenService.Replaced
            (Z.of_nat (List.length (filter featured (tokens (state w)))))
            (Z.of_nat (List.length items)) (Z.of_nat (List.length items)).
Proof.
  intros env w w0 w' body r Hg Hup Hrun Hsucc.
  destruct (in_cooldown_frame env w w0 _ Hg) as (Hs & _ & Hc & _).
  rewrite (runRefresh_cycle env w w0 Hg) in Hrun.
  set (ws := stamped (clock env (reads w0)) (later 1 w0)) in *.
  assert (Hup' : upstream env (calls ws) featured_request = Data body)
    by (subst ws; cbn; now rewrite Hc).
  rewrite (cycle_data env ws body Hup') in Hrun.
  unfold bind in Hrun.
  destruct (ZoraService.transformTokens body "FEATURED" env (sent featured_request ws))
    as [[toks | e] w2] eqn:Ht; [| discriminate].
  destruct (TokenService.replaceFeaturedTokens (Some toks) env w2) as [[r' | e] w3] eqn:Hr;
    [| discriminate].
  injection Hrun as -> ->.
  assert (Hne : toks <> []).
  { intros ->. cbn in Hr. injection Hr as <- _. discriminate Hsucc. }
  pose proof (transformTokens_live env body "FEATURED" _ _ _ Ht) as Hlive.
  destruct (replace_stored env w2 w' toks r Hne Hr) as (ds & Hd & Hcoll & Hres).
  destruct (replace_partition env w2 w' toks r Hne Hlive Hr) as (ds' & Hd' & Hpart & _).
  rewrite Hd in Hd'. injection Hd' as <-.
  revert Ht. unfold ZoraService.transformTokens. fold (edges_of body).
  destruct (negb (truthy (edges_of body))); [intros [= <- _]; congruence |].
  destruct (edges_of body) as [| | | | | items | |]; try discriminate.
  destruct (forallb well_formed_edge items) eqn:Hwf.
  - rewrite (transformEdges_run env "FEATURED" items Hwf). intros [= Htoks Hw2].
    assert (Hreads : reads w2 = (Nat.succ (reads w0) + List.length items)%nat).
    { rewrite <- Hw2. subst ws. cbn. unfold Nat.succ. lia. }
    assert (Htok : tokens (state w2) = tokens (state w)).
    { rewrite <- Hw2. subst ws. cbn. now rewrite Hs. }
    assert (Hrec : toks = records_of "FEATURED" (clock env) (Nat.succ (reads w0)) items).
    { rewrite <- Htoks. subst ws. reflexivity. }
    exists items, ds. split; [reflexivity |].
    split; [intros ->; apply Hne; now rewrite <- Htoks |].
    split; [rewrite <- Hrec; exact Hd |]. cbv zeta.
    rewrite <- Hreads. split.
    { rewrite dated_length, (documents_length env toks ds Hd), Hrec.
      apply records_of_length. }
    split; [rewrite <- Htok; exact Hcoll |].
    split; [exact Hpart |].
    rewrite Hres, Htok, Hrec, records_of_length. reflexivity.
  - destruct (transformEdges_throw env "FEATURED" items Hwf (sent featured_request ws))
      as (e & w4 & He).
    rewrite He. discriminate.
Qed.

(** Two edges answered to a job that starts: the stored FEATURED token
    gives way to two documents, inserted at 1003 and 1004. *)
Lemma refresh_then_listing_witness :
  let body := response_of [edge_of (node_of 1 "0xAB"); edge_of (node_of 2 "0xCD")] in
  let env := answering body in
  let w := fresh {| job := starting; tokens := [old_token] |} in
  let w' := snd (DataRefreshJob.runRefresh env w) in
  filter (TokenModel.live_of "FEATURED") (tokens (state w')) =
    dated (ticking 1000) 3
      (records_of "FEATURED" (ticking 1000) 1
         [edge_of (node_of 1 "0xAB"); edge_of (node_of 2 "0xCD")]) /\
  map createdAt (tokens (state w')) = [JDate (JNum 1003); JDate (JNum 1004)].
Proof.
  cbv zeta.
  set (body := response_of [edge_of (node_of 1 "0xAB"); edge_of (node_of 2 "0xCD")]).
  set (env := answering body).
  set (w := fresh {| job := starting; tokens := [old_token] |}).
  destruct (refresh_then_listing env w w (snd (DataRefreshJob.runRefresh env w)) body
              (TokenService.Replaced 1 2 2))
    as (items & ds & Hitems & _ & Hd & _ & Hcoll & Hlive & _);
    try reflexivity.
  injection Hitems as <-. injection Hd as <-.
  rewrite Hlive, Hcoll. split; reflexivity.
Defined.

(** [getPaginationInfo] reads any response without throwing: it gives
    [false], [null] and zero when the response has no [exploreList], and
    its [totalCount] is the number of records [transformTokens] makes of
    the same response whenever that one returns. *)
Theorem pagination_info_counts :
  forall (env : Env) (w w' : World App) (body : Value) (lt : string) (toks : list Token),
    (nullish (opt_prop body "exploreList") = true ->
     ZoraService.getPaginationInfo body =
       {| ZoraService.hasNextPage := JBool false;
          ZoraService.endCursor := JNull;
          ZoraService.totalCount := JNum 0 |}) /\
    (ZoraService.transformTokens body lt env w = (Return toks, w') ->
     ZoraService.totalCount (ZoraService.getPaginationInfo body) =
       JNum (Z.of_nat (List.length toks))).
Proof.
  intros env w w' body lt toks. split.
  - intros Hn. unfold ZoraService.getPaginationInfo.
    set (e := opt_prop body "exploreList") in *.
    unfold opt_prop. rewrite Hn. reflexivity.
  - unfold ZoraService.transformTokens, ZoraService.getPaginationInfo.
    fold (edges_of body). cbn [ZoraService.totalCount].
    destruct (edges_of body) as [| | [|] | n | s | items | fields | src] eqn:He;
      cbn [truthy negb nullish opt_length]; try discriminate;
      try (intros [= <- _]; reflexivity).
    + destruct (Z.eqb_spec n 0) as [-> | Hn]; cbn [negb];
        [intros [= <- _]; reflexivity | discriminate].
    + destruct (String.eqb_spec s "") as [-> | Hs]; cbn [negb];
        [intros [= <- _]; reflexivity | discriminate].
    + intros Hrun.
      destruct (forallb well_formed_edge items) eqn:Hwf.
      * rewrite (transformEdges_run env lt items Hwf) in Hrun.
        injection Hrun as <- _. rewrite records_of_length.
        unfold or_else. cbn [truthy].
        destruct (Z.eqb_spec (Z.of_nat (List.length items)) 0) as [-> | _]; reflexivity.
      * destruct (transformEdges_throw env lt items Hwf w) as (e & w4 & Hthrow).
        rewrite Hthrow in Hrun. discriminate.
Qed.

Lemma pagination_info_counts_witness :
  let body := response_of [edge_of (node_of 1 "0xAB"); edge_of (JObj [])] in
  let env := answering body in
  let w := fresh {| job := new_job; tokens := [] |} in
  ZoraService.totalCount (ZoraService.getPaginationInfo body) = JNum 2.
Proof.
  cbv zeta.
  refine (proj2 (pagination_info_counts
                   (answering (response_of [edge_of (node_of 1 "0xAB"); edge_of (JObj [])]))
                   (fresh {| job := new_job; tokens := [] |}) _ _ "FEATURED"
                   (records_of "FEATURED" (ticking 1000) 0
                      [edge_of (node_of 1 "0xAB"); edge_of (JObj [])])) _).
  reflexivity.
Defined.

Lemma first_rejection_spec {A} (time : nat -> nat) (os : list (Outcome A)) :
  forall k,
  match first_rejection time k os with
  | None => forall i e, nth_error os i <> Some (Throw e)
  | Some (t, e) =>
      exists j,
        nth_error os j = Some (Throw e) /\ t = time (k + j)%nat /\
        forall i e', nth_error os i = Some (Throw e') ->
                     (time (k + j) <= time (k + i))%nat
  end.
Proof.
  induction os as [| o r IH]; intros k; cbn [first_rejection].
  - intros i e. destruct i; discriminate.
  - specialize (IH (Nat.succ k)).
    destruct o as [a | e].
    + destruct (first_rejection time (Nat.succ k) r) as [[t e'] |].
      * destruct IH as (j & Hj & Ht & Hmin). exists (Datatypes.S j).
        split; [exact Hj |].
        replace (k + Datatypes.S j)%nat with (Nat.succ k + j)%nat
          by (unfold Nat.succ; lia).
        split; [exact Ht |].
        intros i e'' Hi. destruct i as [| i]; [discriminate |].
        replace (k + Datatypes.S i)%nat with (Nat.succ k + i)%nat
          by (unfold Nat.succ; lia).
        exact (Hmin i e'' Hi).
      * intros i e'. destruct i as [| i]; [discriminate | apply IH].
    + destruct (first_rejection time (Nat.succ k) r) as [[t e'] |].
      * destruct IH as (j & Hj & Ht & Hmin).
        destruct (Nat.leb_spec (time k) t) as [Hle | Hgt].
        -- exists 0%nat. split; [reflexivity |].
           replace (k + 0)%nat with k by lia. split; [reflexivity |].
           intros i e'' Hi. destruct i as [| i]; [replace (k + 0)%nat with k by lia; lia |].
           replace (k + Datatypes.S i)%nat with (Nat.succ k + i)%nat
             by (unfold Nat.succ; lia).
           specialize (Hmin i e'' Hi). lia.
        -- exists (Datatypes.S j). split; [exact Hj |].
           replace (k + Datatypes.S j)%nat with (Nat.succ k + j)%nat
             by (unfold Nat.succ; lia).
           split; [exact Ht |].
           intros i e'' Hi.
           destruct i as [| i]; [replace (k + 0)%nat with k by lia; lia |].
           replace (k + Datatypes.S i)%nat with (Nat.succ k + i)%nat
             by (unfold Nat.succ; lia).
           exact (Hmin i e'' Hi).
      * exists 0%nat. split; [reflexivity |].
        replace (k + 0)%nat with k by lia. split; [reflexivity |].
        intros i e'' Hi. destruct i as [| i]; [replace (k + 0)%nat with k by lia; lia |].
        destruct (IH i e'' Hi).
Qed.

Lemma settle_fetches (env : Env) (count : Num) (lts : list string) :
  forall w : World App,
  settle_all
    (map (fun lt => ZoraService.fetchExploreTokens (S := App) (Some lt) (Some count) None)
         lts) env w =
  (settlements env (calls w) (map (fun lt => request_of (Some lt) (Some count) None) lts),
   sent_all (map (fun lt => request_of (Some lt) (Some count) None) lts) w).
Proof.
  induction lts as [| lt r IH]; intros w; [reflexivity |].
  cbn [map settle_all settlements sent_all].
  rewrite fetchExploreTokens_run. cbv zeta.
  set (rq := request_of (Some lt) (Some count) None).
  assert (Hone : (match upstream env (calls w) rq with
                  | Data body => (Return body, sent rq w)
                  | Rejected msg =>
                      (Throw (Error ("Failed to fetch " ++ q_listType rq ++
                                     " tokens: " ++ msg)), sent rq w)
                  end) = (settles_to env (calls w) rq, sent rq w)).
  { unfold settles_to. destruct (upstream env (calls w) rq); reflexivity. }
  rewrite Hone, (IH (sent rq w)). reflexivity.
Qed.

Lemma sent_all_trace {S} (rs : list Request) :
  forall w : World S, trace (sent_all rs w) = (trace w ++ map EvGet rs)%list.
Proof.
  induction rs as [| r rest IH]; intros w; cbn [sent_all map].
  - now rewrite app_nil_r.
  - rewrite IH. cbn [sent trace]. now rewrite <- app_assoc.
Qed.

Lemma settlements_nth (env : Env) (rs : list Request) :
  forall k i r,
  nth_error rs i = Some r ->
  nth_error (settlements env k rs) i = Some (settles_to env (k + i)%nat r).
Proof.
  induction rs as [| r0 rest IH]; intros k i r H; destruct i as [| i]; try discriminate.
  - injection H as ->. cbn. now replace (k + 0)%nat with k by lia.
  - cbn in H |- *. rewrite (IH (Nat.succ k) i r H).
    now replace (Nat.succ k + i)%nat with (k + Datatypes.S i)%nat
      by (unfold Nat.succ; lia).
Qed.

(** [fetchAllListTypes] sends four requests whatever the upstream answers,
    for NEW, MOST_VALUABLE, TOP_GAINERS and FEATURED in this order, each
    with the count capped at 100.  When the four are answered it returns
    the four bodies under their list types.  When one at least is rejected
    it throws, and the error wraps the error of a fetch that was rejected
    and whose answer came no later than that of any other rejected
    fetch. *)
Theorem fetchAllListTypes_requests :
  forall (env : Env) (w : World App) (count : Num),
    let answer := fun i =>
      upstream env (calls w + i)%nat (nth i (requests_for count) featured_request) in
    exists o w',
      ZoraService.fetchAllListTypes (Some count) env w = (o, w') /\
      trace w' = (trace w ++ map EvGet (requests_for count))%list /\
      Forall (fun r => q_count r = nmin count (Fin 100) /\
                       ngt (q_count r) (Fin 100) = false) (requests_for count) /\
      ((forall i, (i < 4)%nat -> exists b, answer i = Data b) ->
       exists data,
         o = Return data /\
         map fst data = all_listTypes /\
         Forall2 (fun i b => answer i = Data b) [0; 1; 2; 3]%nat (map snd data)) /\
      (forall i msg,
          (i < 4)%nat -> answer i = Rejected msg ->
          exists j msg',
            (j < 4)%nat /\ answer j = Rejected msg' /\
            (arrival env (calls w + j) <= arrival env (calls w + i))%nat /\
            o = Throw (Error ("Failed to fetch all list types: " ++
                              "Failed to fetch " ++ nth j all_listTypes "" ++
                              " tokens: " ++ msg'))).
Proof.
  intros env w count answer.
  assert (Hcap : Forall (fun r => q_count r = nmin count (Fin 100) /\
                                  ngt (q_count r) (Fin 100) = false)
                        (requests_for count)).
  { repeat constructor; apply nmin_cap. }
  assert (Hnth : forall i, (i < 4)%nat ->
            nth_error (settlements env (calls w) (requests_for count)) i =
            Some (settles_to env (calls w + i)%nat
                    (nth i (requests_for count) featured_request))).
  { intros i Hi. apply settlements_nth.
    do 4 (destruct i as [| i]; [reflexivity |]). lia. }
  assert (Hlt : forall i, (i < 4)%nat ->
            q_listType (nth i (requests_for count) featured_request) =
            nth i all_listTypes "").
  { intros i Hi. do 4 (destruct i as [| i]; [reflexivity |]). lia. }
  assert (Hout : forall i o,
            nth_error (settlements env (calls w) (requests_for count)) i = Some o ->
            (i < 4)%nat).
  { intros i o H.
    assert (Hn : nth_error (settlements env (calls w) (requests_for count)) i <> None)
      by (rewrite H; discriminate).
    apply nth_error_Some in Hn. exact Hn. }
  unfold ZoraService.fetchAllListTypes, try_catch, bind, Promise_all.
  change (map (fun listType =>
                 ZoraService.fetchExploreTokens (Some listType) (Some count) None)
              ["NEW"; "MOST_VALUABLE"; "TOP_GAINERS"; "FEATURED"])
    with (map (fun lt => ZoraService.fetchExploreTokens (S := App) (Some lt) (Some count) None)
              all_listTypes).
  rewrite (settle_fetches env count all_listTypes w).
  fold (requests_for count).
  pose proof (first_rejection_spec (arrival env)
                (settlements env (calls w) (requests_for count)) (calls w)) as Hspec.
  destruct (first_rejection (arrival env) (calls w) _) as [[t e] |].
  - destruct Hspec as (j & Hj & _ & Hmin).
    pose proof (Hout j _ Hj) as Hj4.
    rewrite (Hnth j Hj4) in Hj.
    assert (Hj' : settles_to env (calls w + j)
                    (nth j (requests_for count) featured_request) = Throw e)
      by congruence.
    unfold settles_to in Hj'.
    change (upstream env (calls w + j)%nat (nth j (requests_for count) featured_request))
      with (answer j) in Hj'.
    destruct (answer j) as [b | msg'] eqn:Ej; [discriminate |].
    assert (He : e = Error ("Failed to fetch " ++ nth j all_listTypes "" ++
                            " tokens: " ++ msg'))
      by (rewrite <- (Hlt j Hj4); congruence).
    subst e. clear Hj Hj'.
    eexists. eexists. split; [reflexivity |].
    split; [apply sent_all_trace |]. split; [exact Hcap |]. split.
    + intros Hall. destruct (Hall j Hj4) as [b Hb]. congruence.
    + intros i msg Hi Hrej. exists j, msg'. split; [exact Hj4 |].
      split; [exact Ej |]. split; [| reflexivity].
      apply (Hmin i (Error ("Failed to fetch " ++ nth i all_listTypes "" ++
                            " tokens: " ++ msg))).
      rewrite (Hnth i Hi). unfold settles_to.
      change (upstream env (calls w + i)%nat (nth i (requests_for count) featured_request))
        with (answer i).
      rewrite Hrej, (Hlt i Hi). reflexivity.
  - eexists. eexists. split; [reflexivity |].
    split; [apply sent_all_trace |]. split; [exact Hcap |]. split.
    + intros _.
      assert (Hdata : forall i, (i < 4)%nat -> exists b, answer i = Data b).
      { intros i Hi. destruct (answer i) as [b | msg] eqn:Ei; [eauto |].
        exfalso. apply (Hspec i (Error ("Failed to fetch " ++
                   q_listType (nth i (requests_for count) featured_request) ++
                   " tokens: " ++ msg))).
        rewrite (Hnth i Hi). unfold settles_to.
        change (upstream env (calls w + i)%nat
                  (nth i (requests_for count) featured_request)) with (answer i).
        now rewrite Ei. }
      destruct (Hdata 0%nat ltac:(lia)) as [b0 E0].
      destruct (Hdata 1%nat ltac:(lia)) as [b1 E1].
      destruct (Hdata 2%nat ltac:(lia)) as [b2 E2].
      destruct (Hdata 3%nat ltac:(lia)) as [b3 E3].
      unfold answer in E0, E1, E2, E3. cbn [nth requests_for map all_listTypes] in E0, E1, E2, E3.
      eexists. split; [reflexivity |].
      unfold requests_for, all_listTypes.
      cbn [map settlements]. unfold settles_to.
      replace (calls w + 0)%nat with (calls w) in E0 by lia.
      replace (calls w + 1)%nat with (Nat.succ (calls w)) in E1 by (unfold Nat.succ; lia).
      replace (calls w + 2)%nat with (Nat.succ (Nat.succ (calls w))) in E2
        by (unfold Nat.succ; lia).
      replace (calls w + 3)%nat with (Nat.succ (Nat.succ (Nat.succ (calls w)))) in E3
        by (unfold Nat.succ; lia).
      rewrite E0, E1, E2, E3. cbn [fulfilled combine map fst snd].
      split; [reflexivity |].
      unfold answer.
      constructor;
        [cbn [nth]; replace (calls w + 0)%nat with (calls w) by lia; exact E0 |].
      constructor;
        [cbn [nth]; replace (calls w + 1)%nat with (Nat.succ (calls w))
           by (unfold Nat.succ; lia); exact E1 |].
      constructor;
        [cbn [nth]; replace (calls w + 2)%nat with (Nat.succ (Nat.succ (calls w)))
           by (unfold Nat.succ; lia); exact E2 |].
      constructor; [| constructor].
      cbn [nth].
      replace (calls w + 3)%nat with (Nat.succ (Nat.succ (Nat.succ (calls w))))
        by (unfold Nat.succ; lia).
      exact E3.
    + intros i msg Hi Hrej. exfalso.
      apply (Hspec i (Error ("Failed to fetch " ++
               q_listType (nth i (requests_for count) featured_request) ++
               " tokens: " ++ msg))).
      rewrite (Hnth i Hi). unfold settles_to.
      change (upstream env (calls w + i)%nat
                (nth i (requests_for count) featured_request)) with (answer i).
      now rewrite Hrej.
Qed.

(** The second and the fourth request are rejected, the answer to the
    fourth coming first: its error is the one thrown. *)
Lemma fetchAllListTypes_requests_witness :
  let env := {| clock := ticking 0;
                upstream := fun k _ => if Nat.odd k then Rejected "timeout" else Data JNull;
                arrival := fun k => (10 - k)%nat;
                regexp_i := fun _ => None;
                cast := fun _ _ => None |} in
  let w := fresh {| job := new_job; tokens := [] |} in
  fst (ZoraService.fetchAllListTypes (Some (Fin 100)) env w) =
    Throw (Error "Failed to fetch all list types: Failed to fetch FEATURED tokens: timeout").
Proof.
  cbv zeta.
  set (env := {| clock := ticking 0;
                 upstream := fun k _ => if Nat.odd k then Rejected "timeout" else Data JNull;
                 arrival := fun k => (10 - k)%nat;
                 regexp_i := fun _ => None;
                 cast := fun _ _ => None |}).
  set (w := fresh {| job := new_job; tokens := [] |}).
  destruct (fetchAllListTypes_requests env w (Fin 100))
    as (o & w' & Hrun & _ & _ & _ & Hrej).
  destruct (Hrej 3%nat "timeout" ltac:(lia) eq_refl) as (j & msg' & Hj & Hans & Harr & Ho).
  rewrite Hrun. cbn [fst]. rewrite Ho.
  subst env w.
  destruct j as [| [| [| [| j]]]]; cbn in Harr; try lia.
  cbn in Hans. injection Hans as <-. reflexivity.
Defined.

(* ===================================================================== *)
(** ** The file-backed server *)
(* ===================================================================== *)

Section FileServer.

Variable env : Env.

Lemma entryOf_run (index : Z) (edge : Value) (d : World SimpleServer.Disk) :
  well_formed_edge edge = true ->
  SimpleServer.entryOf index edge env d =
  (Return (entry_at index (prop edge "node") (clock env (reads d))), later 1 d).
Proof.
  unfold well_formed_edge. intros H.
  apply andb_prop in H. destruct H as [H Ha].
  apply andb_prop in H. destruct H as [He Hn].
  apply negb_true_iff in He. apply negb_true_iff in Hn.
  unfold SimpleServer.entryOf.
  rewrite (bind_Return env _ _ _ _ _ (member_run env edge "node" d He)).
  set (node := prop edge "node") in *.
  repeat rewrite (bind_Return env _ _ _ _ _ (member_run env node _ d Hn)).
  assert (Haddr :
    (a <- member node "address" ;;
     if nullish a then ret JUndefined
     else match a with
          | JStr s => ret (JStr (toLowerCase s))
          | _ => throw (TypeError "node.address?.toLowerCase is not a function")
          end) env d = (Return (lowered (prop node "address")), d)).
  { rewrite (bind_Return env _ _ _ _ _ (member_run env node _ d Hn)).
    destruct (prop node "address"); try discriminate; reflexivity. }
  rewrite (bind_Return env _ _ _ _ _ Haddr).
  repeat rewrite (bind_Return env _ _ _ _ _ (member_run env node _ d Hn)).
  reflexivity.
Qed.

Lemma entryOf_throws (index : Z) (edge : Value) (d : World SimpleServer.Disk) :
  well_formed_edge edge = false ->
  exists e, SimpleServer.entryOf index edge env d = (Throw e, d).
Proof.
  unfold well_formed_edge. intros H.
  unfold SimpleServer.entryOf.
  destruct (nullish edge) eqn:He.
  { destruct (member_throws env edge "node" d He) as [msg Hm].
    eexists. apply bind_Throw. exact Hm. }
  rewrite (bind_Return env _ _ _ _ _ (member_run env edge "node" d He)).
  set (node := prop edge "node") in *.
  destruct (nullish node) eqn:Hn.
  { destruct (member_throws env node "name" d Hn) as [msg Hm].
    eexists. apply bind_Throw. exact Hm. }
  cbn in H.
  repeat rewrite (bind_Return env _ _ _ _ _ (member_run env node _ d Hn)).
  eexists. apply bind_Throw.
  rewrite (bind_Return env _ _ _ _ _ (member_run env node _ d Hn)).
  destruct (prop node "address"); try discriminate; reflexivity.
Qed.

Lemma entries_run (items : list Value) :
  forallb well_formed_edge items = true ->
  forall (index : Z) (d : World SimpleServer.Disk),
  SimpleServer.mapM_from SimpleServer.entryOf index items env d =
  (Return (entries_of (clock env) (reads d) index items), later (List.length items) d).
Proof.
  induction items as [| edge r IH]; intros Hwf index d.
  - cbn. rewrite later_0. reflexivity.
  - cbn in Hwf. apply andb_prop in Hwf. destruct Hwf as [He Hr].
    cbn [SimpleServer.mapM_from].
    rewrite (bind_Return env _ _ _ _ _ (entryOf_run index edge d He)).
    rewrite (bind_Return env _ _ _ _ _ (IH Hr (index + 1) (later 1 d))).
    unfold ret. rewrite later_later. cbn [entries_of List.length].
    repeat f_equal. lia.
Qed.

Lemma entries_throw (items : list Value) :
  forallb well_formed_edge items = false ->
  forall (index : Z) (d : World SimpleServer.Disk),
  exists e, SimpleServer.mapM_from SimpleServer.entryOf index items env d =
            (Throw e, later (leading items) d).
Proof.
  induction items as [| edge r IH]; intros H index d; [discriminate |].
  cbn [SimpleServer.mapM_from leading]. cbn in H.
  destruct (well_formed_edge edge) eqn:Hwf.
  - rewrite (bind_Return env _ _ _ _ _ (entryOf_run index edge d Hwf)).
    destruct (IH H (index + 1) (later 1 d)) as (e & Hr).
    rewrite (bind_Throw env _ _ _ _ _ Hr). rewrite later_later.
    replace (leading r + 1)%nat with (Nat.succ (leading r)) by (unfold Nat.succ; lia).
    eauto.
  - destruct (entryOf_throws index edge d Hwf) as [e He].
    rewrite (bind_Throw env _ _ _ _ _ He). exists e. now rewrite later_0.
Qed.

Lemma entries_of_length (clk : nat -> Z) (items : list Value) :
  forall k index, List.length (entries_of clk k index items) = List.length items.
Proof.
  induction items as [| e r IH]; intros k index; cbn; [reflexivity | now rewrite IH].
Qed.

Lemma entries_of_ids (clk : nat -> Z) (items : list Value) :
  forall k index,
  map SimpleServer.id (entries_of clk k index items) =
  map (fun i => index + Z.of_nat i) (seq 1 (List.length items)).
Proof.
  induction items as [| e r IH]; intros k index; [reflexivity |].
  cbn [entries_of map List.length seq SimpleServer.id entry_at].
  f_equal. rewrite IH, <- (seq_shift (List.length r) 1), map_map.
  apply map_ext. intros i. lia.
Qed.

Lemma entries_of_comparable (clk : nat -> Z) (items : list Value) :
  forall k index,
  Forall (fun e => SimpleServer.address e = JUndefined \/
                   exists s, SimpleServer.address e = JStr (toLowerCase s))
         (entries_of clk k index items).
Proof.
  induction items as [| edge r IH]; intros k index; cbn; constructor; [| apply IH].
  cbn. destruct (prop (prop edge "node") "address"); cbn; eauto.
Qed.

(** What [fetchTokens] does on each kind of answer. *)
Lemma fetchTokens_run (d : World SimpleServer.Disk) :
  SimpleServer.fetchTokens env d =
  match upstream env (calls d) simple_request with
  | Rejected _ => (Return None, sent simple_request d)
  | Data body =>
      if nullish (edges_of body) then (Return (Some []), written env 0 [] d)
      else
        match edges_of body with
        | JArr items =>
            if forallb well_formed_edge items
            then (Return (Some (entries_of (clock env) (reads d) 0 items)),
                  written env (List.length items)
                          (entries_of (clock env) (reads d) 0 items) d)
            else (Return None, later (leading items) (sent simple_request d))
        | _ => (Return None, sent simple_request d)
        end
  end.
Proof.
  unfold SimpleServer.fetchTokens, try_catch, bind at 1, http_get.
  fold simple_request.
  destruct (upstream env (calls d) simple_request) as [body | msg]; [| reflexivity].
  fold (edges_of body). fold (sent simple_request d).
  destruct (nullish (edges_of body)) eqn:Hn.
  - destruct d. reflexivity.
  - destruct (edges_of body) as [| | | | | items | |]; try reflexivity;
      try discriminate.
    destruct (forallb well_formed_edge items) eqn:Hwf.
    + rewrite (bind_Return env _ _ _ _ _
                 (entries_run items Hwf 0 (sent simple_request d))).
      destruct d. reflexivity.
    + destruct (entries_throw items Hwf 0 (sent simple_request d)) as (e & Hr).
      rewrite (bind_Throw env _ _ _ _ _ Hr). reflexivity.
Qed.

End FileServer.

Lemma requests_sent {S} (r : Request) (w : World S) :
  requests (trace (sent r w)) = (requests (trace w) + 1)%nat.
Proof. unfold sent. cbn [trace]. rewrite requests_app. reflexivity. Qed.

Lemma fetchTokens_returns (env : Env) (d : World SimpleServer.Disk) :
  exists r d', SimpleServer.fetchTokens env d = (Return r, d').
Proof.
  rewrite fetchTokens_run.
  destruct (upstream env (calls d) simple_request) as [body | msg];
    [| eexists; eexists; reflexivity].
  destruct (nullish (edges_of body)); [eexists; eexists; reflexivity |].
  destruct (edges_of body) as [| | | | | items | |];
    try (eexists; eexists; reflexivity).
  destruct (forallb well_formed_edge items); eexists; eexists; reflexivity.
Qed.

(** [fetchTokens] never throws and sends exactly one request.  It either
    resolves to [null] with the file as it was, or resolves to the tokens
    it wrote: the file then holds exactly those tokens, [count] is their
    number, their ids are 1, 2, ... in order, and every address is absent
    or in lower case. *)
Theorem fetchTokens_outcome :
  forall (env : Env) (d : World SimpleServer.Disk),
    exists r d',
      SimpleServer.fetchTokens env d = (Return r, d') /\
      requests (trace d') = (requests (trace d) + 1)%nat /\
      match r with
      | None => state d' = state d
      | Some toks =>
          exists date,
            state d' = Some {| SimpleServer.tokens := toks;
                              SimpleServer.file_lastUpdated := date;
                              SimpleServer.count := Z.of_nat (List.length toks) |} /\
            map SimpleServer.id toks = map Z.of_nat (seq 1 (List.length toks)) /\
            Forall (fun e => SimpleServer.address e = JUndefined \/
                             exists s, SimpleServer.address e = JStr (toLowerCase s))
                   toks
      end.
Proof.
  intros env d. rewrite fetchTokens_run.
  assert (Hw : forall n toks,
    requests (trace (written env n toks d)) = (requests (trace d) + 1)%nat).
  { intros n toks. unfold written. cbn [trace]. rewrite !requests_app.
    cbn. lia. }
  destruct (upstream env (calls d) simple_request) as [body | msg].
  - destruct (nullish (edges_of body)).
    + eexists. eexists. split; [reflexivity |]. split; [apply Hw |].
      eexists. split; [reflexivity |]. split; [reflexivity | constructor].
    + destruct (edges_of body) as [| | | | | items | |];
        try (eexists; eexists; split; [reflexivity |];
             split; [apply requests_sent | reflexivity]).
      destruct (forallb well_formed_edge items).
      * eexists. eexists. split; [reflexivity |]. split; [apply Hw |].
        eexists. split; [reflexivity |]. split.
        -- rewrite entries_of_ids, entries_of_length. apply map_ext. intros i. lia.
        -- apply entries_of_comparable.
      * eexists. eexists. split; [reflexivity |].
        split; [apply requests_sent | reflexivity].
  - eexists. eexists. split; [reflexivity |].
    split; [apply requests_sent | reflexivity].
Qed.

(** What each kind of answer does to the file.  A response without edges,
    or with an empty list of them, overwrites the file with no token at
    all.  A list of well-formed edges is written as one entry per edge.
    One edge that is not well formed (no node, or an address that is
    neither absent nor a string) discards the batch: [null], and the file
    keeps its content. *)
Theorem fetchTokens_by_answer :
  forall (env : Env) (d : World SimpleServer.Disk) (body : Value),
    upstream env (calls d) simple_request = Data body ->
    (nullish (edges_of body) = true \/ edges_of body = JArr [] ->
     exists d',
       SimpleServer.fetchTokens env d = (Return (Some []), d') /\
       state d' = Some {| SimpleServer.tokens := [];
                         SimpleServer.file_lastUpdated := clock env (reads d);
                         SimpleServer.count := 0 |}) /\
    (forall items,
        edges_of body = JArr items ->
        forallb well_formed_edge items = true ->
        exists toks d',
          SimpleServer.fetchTokens env d = (Return (Some toks), d') /\
          List.length toks = List.length items /\
          Forall2 (fun edge e =>
                     SimpleServer.address e = lowered (prop (prop edge "node") "address") /\
                     SimpleServer.name e =
                       or_else (prop (prop edge "node") "name") (JStr "Unnamed Token"))
                  items toks /\
          option_map SimpleServer.tokens (state d') = Some toks) /\
    (forall items,
        edges_of body = JArr items ->
        forallb well_formed_edge items = false ->
        exists d',
          SimpleServer.fetchTokens env d = (Return None, d') /\
          state d' = state d).
Proof.
  intros env d body Hup. rewrite fetchTokens_run, Hup. split; [| split].
  - intros [Hn | He].
    + rewrite Hn. eexists. split; reflexivity.
    + rewrite He. cbn [nullish forallb entries_of List.length].
      eexists. split; reflexivity.
  - intros items He Hwf. rewrite He, Hwf. cbn [nullish].
    eexists. eexists. split; [reflexivity |].
    split; [apply entries_of_length |]. split; [| reflexivity].
    clear He Hup. generalize (reads d) 0.
    induction items as [| edge r IH]; intros k index; cbn; constructor.
    + split; reflexivity.
    + cbn in Hwf. apply andb_prop in Hwf. apply IH, Hwf.
  - intros items He Hwf. rewrite He, Hwf. cbn [nullish].
    eexists. split; reflexivity.
Qed.

Lemma fetchTokens_by_answer_witness :
  let body := response_of [edge_of (node_of 1 "0xAB"); JObj []] in
  let env := answering body in
  let d := fresh (Some (SimpleServer.mkTokensFile many_entries 1000 45)) in
  exists d',
    SimpleServer.fetchTokens env d = (Return None, d') /\
    state d' = Some (SimpleServer.mkTokensFile many_entries 1000 45).
Proof.
  cbv zeta.
  refine (proj2 (proj2 (fetchTokens_by_answer
            (answering (response_of [edge_of (node_of 1 "0xAB"); JObj []])) _ _ _))
            [edge_of (node_of 1 "0xAB"); JObj []] _ _); reflexivity.
Defined.

(** The manual refresh of the file-backed server answers 200 with
    "Tokens refreshed successfully" whatever happened: rejection, bad
    edge or success. *)
Theorem refresh_always_succeeds :
  forall (env : Env) (d : World SimpleServer.Disk),
    exists d',
      SimpleServer.refresh env d =
        (Return (Ok {| SimpleServer.r_message := "Tokens refreshed successfully" |}), d') /\
      d' = snd (SimpleServer.fetchTokens env d).
Proof.
  intros env d.
  destruct (fetchTokens_returns env d) as (r & d' & Hrun).
  exists d'. unfold SimpleServer.refresh, try_catch.
  rewrite (bind_Return env _ _ _ _ _ Hrun), Hrun. split; reflexivity.
Qed.

(* ===================================================================== *)
(** ** The address route of the file-backed server *)
(* ===================================================================== *)

Lemma findM_same_address (env : Env) (q : string) (d : World SimpleServer.Disk) :
  forall l : list SimpleServer.Entry,
    forallb comparable l = true ->
    findM (SimpleServer.same_address q) l env d = (Return (List.find (answers_to q) l), d).
Proof.
  induction l as [| e r IH]; intros Hc; [reflexivity |].
  cbn in Hc. apply andb_prop in Hc. destruct Hc as [He Hr].
  cbn [findM List.find]. unfold bind.
  unfold SimpleServer.same_address, answers_to, comparable in *.
  destruct (SimpleServer.address e) as [| | b | n | s | l | o | v]; cbn in He |- *;
    try (rewrite (IH Hr); reflexivity);
    try (apply negb_true_iff in He; rewrite He; cbn; rewrite (IH Hr); reflexivity);
    try discriminate.
  destruct (String.eqb s ""); cbn; [apply (IH Hr) |].
  destruct (String.eqb (toLowerCase s) (toLowerCase q)); cbn;
    [reflexivity | apply (IH Hr)].
Qed.

Lemma loadTokens_run (env : Env) (d : World SimpleServer.Disk) :
  SimpleServer.loadTokens env d =
  (Return match state d with
          | Some f => {| SimpleServer.l_tokens := SimpleServer.tokens f;
                         SimpleServer.l_lastUpdated := Some (SimpleServer.file_lastUpdated f) |}
          | None => {| SimpleServer.l_tokens := []; SimpleServer.l_lastUpdated := None |}
          end,
   loaded d).
Proof.
  destruct d as [s tr rd cl].
  unfold SimpleServer.loadTokens, bind, emit, get_state, ret, loaded.
  cbn [state trace reads calls]. destruct s; reflexivity.
Qed.

Lemma getByAddress_run (env : Env) (q : string) (d : World SimpleServer.Disk) :
  (forall f, state d = Some f -> forallb comparable (SimpleServer.tokens f) = true) ->
  SimpleServer.getByAddress q env d =
  (Return match state d with
          | Some f =>
              match List.find (answers_to q) (SimpleServer.tokens f) with
              | Some e => Ok e
              | None => Failed 404 "Token not found" None
              end
          | None => Failed 404 "Token not found" None
          end,
   loaded d).
Proof.
  intros Hc. unfold SimpleServer.getByAddress, try_catch.
  rewrite (bind_Return env _ _ _ _ _ (loadTokens_run env d)).
  assert (Hs : state (loaded d) = state d) by reflexivity.
  destruct (state d) as [f |] eqn:E.
  - cbn [SimpleServer.l_tokens].
    rewrite (bind_Return env _ _ _ _ _
               (findM_same_address env q (loaded d) (SimpleServer.tokens f)
                  (Hc f eq_refl))).
    destruct (List.find _ _); reflexivity.
  - reflexivity.
Qed.

Lemma entries_of_comparable_b (clk : nat -> Z) :
  forall items k index, forallb comparable (entries_of clk k index items) = true.
Proof.
  induction items as [| edge r IH]; intros k index; [reflexivity |].
  cbn [entries_of forallb]. rewrite IH, andb_true_r.
  unfold comparable, entry_at, lowered. cbn.
  destruct (prop (prop edge "node") "address"); reflexivity.
Qed.

Lemma answers_to_spec (q : string) (e : SimpleServer.Entry) :
  answers_to q e = true <->
  exists s, SimpleServer.address e = JStr s /\ s <> "" /\
            toLowerCase s = toLowerCase q.
Proof.
  unfold answers_to. split.
  - destruct (SimpleServer.address e) as [| | b | n | s | l | o | v]; try discriminate.
    intros H. apply andb_prop in H. destruct H as [Hn Hq].
    exists s. split; [reflexivity |]. split.
    + intros ->. discriminate.
    + now apply String.eqb_eq.
  - intros (s & -> & Hn & Hq). apply andb_true_intro. split.
    + apply negb_true_iff. now apply String.eqb_neq.
    + now apply String.eqb_eq.
Qed.

(** The address route of the file-backed server, on a file whose
    addresses are strings or absent (as [fetchTokens] writes them), never
    answers 500 and leaves the file alone.  It answers 200 with the first
    entry whose non-empty address equals the parameter up to case, and 404
    exactly when there is no such entry or no file. *)
Theorem file_address_route :
  forall (env : Env) (q : string) (d : World SimpleServer.Disk),
    (forall f, state d = Some f -> forallb comparable (SimpleServer.tokens f) = true) ->
    exists r,
      SimpleServer.getByAddress q env d = (Return r, loaded d) /\
      match r with
      | Ok e =>
          exists f before after s,
            state d = Some f /\
            SimpleServer.tokens f = (before ++ e :: after)%list /\
            SimpleServer.address e = JStr s /\ s <> "" /\
            toLowerCase s = toLowerCase q /\
            forall e', In e' before -> answers_to q e' = false
      | Failed code _ _ =>
          code = 404 /\
          forall f e s,
            state d = Some f -> In e (SimpleServer.tokens f) ->
            SimpleServer.address e = JStr s -> s <> "" ->
            toLowerCase s <> toLowerCase q
      end.
Proof.
  intros env q d Hc. rewrite (getByAddress_run env q d Hc).
  eexists. split; [reflexivity |].
  destruct (state d) as [f |] eqn:Hs.
  - destruct (List.find (answers_to q) (SimpleServer.tokens f)) as [e |] eqn:Hf.
    + assert (Hsplit : exists before after,
               SimpleServer.tokens f = (before ++ e :: after)%list /\
               forall e', In e' before -> answers_to q e' = false).
      { revert Hf. generalize (SimpleServer.tokens f). clear.
        induction l as [| a r IH]; cbn; [discriminate |].
        destruct (answers_to q a) eqn:Ha.
        - intros [= ->]. exists [], r. split; [reflexivity | intros e' []].
        - intros Hf. destruct (IH Hf) as (b & c & -> & Hb).
          exists (a :: b), c. split; [reflexivity |].
          intros e' [<- | Hin]; [exact Ha | now apply Hb]. }
      destruct Hsplit as (before & after & Htoks & Hbefore).
      apply find_some in Hf. destruct Hf as [_ Ha].
      apply answers_to_spec in Ha. destruct Ha as (s & Hs' & Hn & Hq).
      exists f, before, after, s. repeat split; assumption.
    + split; [reflexivity |].
      intros f' e s [= <-] Hin Ha Hn Hq.
      pose proof (find_none _ _ Hf e Hin) as Hno.
      assert (Hyes : answers_to q e = true).
      { apply answers_to_spec. exists s. repeat split; assumption. }
      congruence.
  - split; [reflexivity |]. intros f e s [=].
Qed.

Lemma file_address_route_witness :
  let env := answering (response_of []) in
  let d := fresh (Some (SimpleServer.mkTokensFile many_entries 1000 45)) in
  exists r, SimpleServer.getByAddress "0xAB" env d = (Return r, loaded d).
Proof.
  cbv zeta.
  destruct (file_address_route (answering (response_of [])) "0xAB"
              (fresh (Some (SimpleServer.mkTokensFile many_entries 1000 45))))
    as (r & Hrun & _).
  - intros f [= <-]. reflexivity.
  - exists r. exact Hrun.
Defined.

(** Fetch, then look up.  After [fetchTokens] stored a list of well-formed
    edges, the address route finds a token for every non-empty address of
    the list, however the parameter is cased: it answers 200 with an entry
    of the file whose address is the lower-case form.  The lookup leaves
    the file as the fetch wrote it. *)
Theorem file_lookup_after_fetch :
  forall (env : Env) (d : World SimpleServer.Disk) (body : Value)
         (items : list Value) (edge : Value) (a q : string),
    upstream env (calls d) simple_request = Data body ->
    edges_of body = JArr items ->
    forallb well_formed_edge items = true ->
    In edge items ->
    prop (prop edge "node") "address" = JStr a ->
    a <> "" ->
    case_variant a q = true ->
    exists toks d1 e,
      SimpleServer.fetchTokens env d = (Return (Some toks), d1) /\
      SimpleServer.getByAddress q env d1 = (Return (Ok e), loaded d1) /\
      In e toks /\
      SimpleServer.address e = JStr (toLowerCase a).
Proof.
  intros env d body items edge a q Hup He Hwf Hin Ha Hne Hq.
  rewrite fetchTokens_run, Hup, He, Hwf.
  assert (Hnn : nullish (JArr items) = false) by reflexivity. rewrite Hnn.
  set (toks := entries_of (clock env) (reads d) 0 items).
  set (d1 := written env (List.length items) toks d).
  assert (Hc : forall f, state d1 = Some f ->
                         forallb comparable (SimpleServer.tokens f) = true).
  { intros f [= <-]. apply entries_of_comparable_b. }
  assert (Hthere : exists e0, In e0 toks /\ answers_to q e0 = true).
  { subst toks. clear Hc d1 Hnn He Hup Hwf. revert Hin.
    generalize (reads d) 0.
    induction items as [| x r IH]; intros k index Hin; [destruct Hin |].
    destruct Hin as [-> | Hin].
    - eexists. split; [left; reflexivity |].
      apply answers_to_spec. exists (toLowerCase a).
      unfold entry_at, lowered. cbn. rewrite Ha. split; [reflexivity |]. split.
      + destruct a; [congruence | discriminate].
      + rewrite toLowerCase_idem. symmetry. now apply case_variant_lower.
    - destruct (IH (Nat.succ k) (index + 1) Hin) as (e0 & Hin0 & H0).
      exists e0. split; [right; exact Hin0 | exact H0]. }
  destruct Hthere as (e0 & Hin0 & H0).
  destruct (List.find (answers_to q) toks) as [e |] eqn:Hf.
  - exists toks, d1, e. split; [reflexivity |].
    rewrite (getByAddress_run env q d1 Hc). cbn [state d1 written].
    cbn [SimpleServer.tokens]. rewrite Hf. split; [reflexivity |].
    apply find_some in Hf. destruct Hf as [Hine Hans]. split; [exact Hine |].
    apply answers_to_spec in Hans. destruct Hans as (s & Hs & _ & Hsq).
    assert (Hlow : exists s', SimpleServer.address e = JStr (toLowerCase s')).
    { pose proof (entries_of_comparable (clock env) items (reads d) 0) as Hall.
      rewrite Forall_forall in Hall. destruct (Hall e Hine) as [Hu | Hl].
      - congruence.
      - exact Hl. }
    destruct Hlow as (s' & Hs'). rewrite Hs' in Hs. injection Hs as <-.
    rewrite Hs'. f_equal. rewrite toLowerCase_idem in Hsq.
    rewrite Hsq. now apply case_variant_lower.
  - pose proof (find_none _ _ Hf e0 Hin0). congruence.
Qed.

Lemma file_lookup_after_fetch_witness :
  let body := response_of [edge_of (node_of 1 "0xAB"); edge_of (node_of 2 "0xCD")] in
  let env := answering body in
  let d := fresh None in
  exists toks d1 e,
    SimpleServer.fetchTokens env d = (Return (Some toks), d1) /\
    SimpleServer.getByAddress "0XcD" env d1 = (Return (Ok e), loaded d1) /\
    In e toks /\
    SimpleServer.address e = JStr (toLowerCase "0xCD").
Proof.
  cbv zeta.
  refine (file_lookup_after_fetch
            (answering (response_of [edge_of (node_of 1 "0xAB"); edge_of (node_of 2 "0xCD")]))
            (fresh None) _ _ (edge_of (node_of 2 "0xCD")) "0xCD" "0XcD" _ _ _ _ _ _ _);
    first [ reflexivity | discriminate | (right; left; reflexivity) ].
Defined.

(* ===================================================================== *)
(** ** The listing and the search of the file-backed server *)
(* ===================================================================== *)

Lemma getFeatured_any (env : Env) (req : Query) (d : World SimpleServer.Disk) :
  SimpleServer.getFeatured req env d =
  let page := parse_param 1 (query_page req) in
  let limit := parse_param 20 (query_limit req) in
  let startIndex := nmul (nsub page (Fin 1)) limit in
  let endIndex := nadd startIndex limit in
  let length := Z.of_nat (List.length (file_entries d)) in
  (Return (Ok {| SimpleServer.f_data := slice (file_entries d) startIndex endIndex;
                 SimpleServer.f_pagination :=
                   {| page := page;
                      limit := limit;
                      total := length;
                      pages := ceil_div (Fin length) limit;
                      hasNext := nlt endIndex (Fin length);
                      hasPrev := ngt page (Fin 1) |};
                 SimpleServer.f_lastUpdated :=
                   option_map SimpleServer.file_lastUpdated (state d) |}),
   loaded d).
Proof.
  unfold SimpleServer.getFeatured, try_catch.
  rewrite (bind_Return env _ _ _ _ _ (loadTokens_run env d)).
  unfold file_entries. destruct (state d); reflexivity.
Qed.

Lemma slice_window {A} (l : list A) (a n : Z) :
  0 <= a -> 0 <= n ->
  slice l (Fin a) (Fin (a + n)) = firstn (Z.to_nat n) (skipn (Z.to_nat a) l).
Proof.
  intros Ha Hn. rewrite slice_fin by lia. cbv zeta.
  set (len := Z.of_nat (List.length l)).
  destruct (Z.le_gt_cases len a) as [Hle | Hgt].
  - rewrite (skipn_all2 (n := Z.to_nat a)) by (subst len; lia).
    rewrite skipn_all2 by (subst len; lia).
    now rewrite !firstn_nil.
  - replace (Z.min a len) with a by lia.
    destruct (Z.le_gt_cases (a + n) len) as [Hle2 | Hgt2].
    + replace (Z.min (a + n) len) with (a + n) by lia.
      f_equal. lia.
    + replace (Z.min (a + n) len) with len by lia.
      rewrite !firstn_all2; [reflexivity | |];
        rewrite length_skipn; subst len; lia.
Qed.

Lemma file_page_window (env : Env) (d : World SimpleServer.Disk) (s l : string)
    (p : nat) (ln : Z) :
  parseInt s = Fin (Z.of_nat p) -> (1 <= p)%nat ->
  parseInt l = Fin ln -> 1 <= ln ->
  file_page_of env s l d =
  firstn (Z.to_nat ln) (skipn ((p - 1) * Z.to_nat ln) (file_entries d)).
Proof.
  intros Hp Hp1 Hl Hln.
  unfold file_page_of. rewrite getFeatured_any. cbv zeta.
  cbn [fst SimpleServer.f_data parse_param query_page query_limit].
  rewrite Hp, Hl. cbn [nsub nmul nadd nneg].
  rewrite slice_window by nia. do 2 f_equal. nia.
Qed.

(** The pages of the file-backed listing partition the file: for a limit
    of at least one, pages 1, 2, ..., n put end to end are the first
    [n * limit] entries of the file in order, and the whole file once
    [n * limit] reaches its length. *)
Theorem file_pages_partition :
  forall (env : Env) (d : World SimpleServer.Disk) (l : string) (ln : Z)
         (numbers : list string),
    parseInt l = Fin ln ->
    1 <= ln ->
    Forall2 (fun p s => parseInt s = Fin (Z.of_nat p))
            (seq 1 (List.length numbers)) numbers ->
    List.concat (map (fun s => file_page_of env s l d) numbers) =
      firstn (List.length numbers * Z.to_nat ln) (file_entries d) /\
    (Z.of_nat (List.length (file_entries d)) <= Z.of_nat (List.length numbers) * ln ->
     List.concat (map (fun s => file_page_of env s l d) numbers) = file_entries d).
Proof.
  intros env d l ln numbers Hl Hln Hnum.
  assert (Hpages : forall start, (1 <= start)%nat ->
    Forall2 (fun p s => parseInt s = Fin (Z.of_nat p))
            (seq start (List.length numbers)) numbers ->
    map (fun s => file_page_of env s l d) numbers =
    map (fun p => firstn (Z.to_nat ln) (skipn ((p - 1) * Z.to_nat ln) (file_entries d)))
        (seq start (List.length numbers))).
  { clear Hnum. induction numbers as [| s r IH]; intros start Hs Hnum; [reflexivity |].
    cbn [List.length seq map] in *. inversion Hnum as [| p s' ps r' Hp Hr]; subst.
    f_equal; [| apply IH; [lia | exact Hr]].
    now apply file_page_window. }
  rewrite (Hpages 1%nat (le_n 1) Hnum), window_concat. split; [reflexivity |].
  intros Hall. apply firstn_all2. nia.
Qed.

Lemma file_pages_partition_witness :
  let env := answering (response_of []) in
  let d := fresh (Some (SimpleServer.mkTokensFile many_entries 1000 45)) in
  List.concat (map (fun s => file_page_of env s "20" d) ["1"; "2"; "3"]) = file_entries d.
Proof.
  cbv zeta.
  refine (proj2 (file_pages_partition _ _ "20" 20 ["1"; "2"; "3"] _ _ _) _).
  - reflexivity.
  - lia.
  - repeat constructor.
  - vm_compute. discriminate.
Defined.

(** The edges of the file-backed listing.  Whatever the query, the route
    answers 200 (never 500) with [total] the number of entries of the
    file, having read the file and nothing else.  Without a file the page
    is empty.  A page or a limit that is not a number gives an empty page
    without [hasNext].  Page 0 gives an empty page whatever the limit.  A
    negative page [p]
    is not refused: it serves [limit] entries counted from the end of the
    file, with [hasNext] and without [hasPrev]. *)
Theorem file_listing_edges :
  forall (env : Env) (req : Query) (d : World SimpleServer.Disk),
    let page := parse_param 1 (query_page req) in
    let limit := parse_param 20 (query_limit req) in
    let len := Z.of_nat (List.length (file_entries d)) in
    exists body,
      SimpleServer.getFeatured req env d = (Return (Ok body), loaded d) /\
      total (SimpleServer.f_pagination body) = len /\
      (state d = None -> SimpleServer.f_data body = [] /\ len = 0) /\
      (page = NaN \/ limit = NaN ->
       SimpleServer.f_data body = [] /\
       hasNext (SimpleServer.f_pagination body) = false) /\
      (forall ln,
          page = Fin 0 -> limit = Fin ln ->
          SimpleServer.f_data body = [] /\
          hasPrev (SimpleServer.f_pagination body) = false) /\
      (forall pn ln,
          page = Fin pn -> limit = Fin ln -> pn < 0 -> 1 <= ln ->
          (1 - pn) * ln <= len ->
          SimpleServer.f_data body =
            firstn (Z.to_nat ln)
                   (skipn (Z.to_nat (len - (1 - pn) * ln)) (file_entries d)) /\
          hasNext (SimpleServer.f_pagination body) = true /\
          hasPrev (SimpleServer.f_pagination body) = false).
Proof.
  intros env req d page limit len. rewrite getFeatured_any. cbv zeta.
  fold page limit len. eexists. split; [reflexivity |].
  cbn [SimpleServer.f_data SimpleServer.f_pagination total hasNext hasPrev].
  split; [reflexivity |]. split; [| split; [| split]].
  - intros Hs. subst len. unfold file_entries. rewrite Hs. split; [| reflexivity].
    unfold slice. now rewrite skipn_nil, firstn_nil.
  - intros [Hp | Hl].
    + rewrite Hp. cbn. split; reflexivity.
    + rewrite Hl. destruct page; cbn; split; reflexivity.
  - intros ln Hp Hl. rewrite Hp, Hl. cbn [nsub nneg nadd nmul ngt nlt Z.opp].
    split; [| reflexivity].
    unfold slice, rel_index. fold len.
    assert (Hlen : 0 <= len) by (subst len; lia).
    destruct (Z.ltb_spec ((0 + -1) * ln + ln) 0); [lia |].
    destruct (Z.ltb_spec ((0 + -1) * ln) 0);
      match goal with
      | |- firstn ?n _ = [] => replace n with 0%nat by lia
      end; reflexivity.
  - intros pn ln Hp Hl Hpn Hln Hlen. rewrite Hp, Hl.
    cbn [nsub nneg nadd nmul ngt nlt Z.opp]. split; [| split].
    + unfold slice, rel_index. fold len.
      destruct (Z.ltb_spec ((pn + -1) * ln) 0); [| nia].
      destruct (Z.ltb_spec ((pn + -1) * ln + ln) 0); [| nia].
      f_equal; [| f_equal]; nia.
    + apply Z.ltb_lt. nia.
    + apply Z.ltb_ge. lia.
Qed.

(** With forty-five entries and a limit of twenty, page -1 serves the
    sixth to the twenty-fifth entry. *)
Lemma file_listing_edges_witness :
  let env := answering (response_of []) in
  let d := fresh (Some (SimpleServer.mkTokensFile many_entries 1000 45)) in
  exists body,
    SimpleServer.getFeatured (mkQuery None (Some "-1") (Some "20") None) env d =
      (Return (Ok body), loaded d) /\
    SimpleServer.f_data body = firstn 20 (skipn 5 many_entries).
Proof.
  cbv zeta.
  destruct (file_listing_edges (answering (response_of []))
              (mkQuery None (Some "-1") (Some "20") None)
              (fresh (Some (SimpleServer.mkTokensFile many_entries 1000 45))))
    as (body & Hrun & _ & _ & _ & _ & Hneg).
  exists body. split; [exact Hrun |].
  refine (proj1 (Hneg (-1) 20 _ _ _ _ _));
    first [ reflexivity | lia | (vm_compute; discriminate) ].
Defined.

Lemma filterM_searchable (env : Env) (test : string -> bool)
    (d : World SimpleServer.Disk) :
  forall l : list SimpleServer.Entry,
    forallb searchable l = true ->
    SimpleServer.filterM
      (fun token =>
         a <- SimpleServer.matches test (SimpleServer.name token) ;;
         if a then ret true
         else (b <- SimpleServer.matches test (SimpleServer.symbol token) ;;
               if b then ret true
               else SimpleServer.matches test (SimpleServer.description token)))
      l env d =
    (Return (filter (entry_hit test) l), d).
Proof.
  assert (Hm : forall v, matchable v = true ->
                 SimpleServer.matches test v env d =
                 (Return (TokenModel.field_matches test v), d)).
  { intros v Hv. unfold SimpleServer.matches.
    destruct v; try discriminate; reflexivity. }
  induction l as [| e r IH]; intros Hs; [reflexivity |].
  cbn [forallb] in Hs. apply andb_prop in Hs. destruct Hs as [He Hr].
  unfold searchable in He. apply andb_prop in He. destruct He as [He Hd].
  apply andb_prop in He. destruct He as [Hn Hy].
  cbn [SimpleServer.filterM filter].
  assert (Hp :
    (a <- SimpleServer.matches test (SimpleServer.name e) ;;
     if a then ret true
     else (b <- SimpleServer.matches test (SimpleServer.symbol e) ;;
           if b then ret true
           else SimpleServer.matches test (SimpleServer.description e))) env d =
    (Return (entry_hit test e), d)).
  { rewrite (bind_Return env _ _ _ _ _ (Hm _ Hn)). unfold entry_hit.
    destruct (TokenModel.field_matches test (SimpleServer.name e)); [reflexivity |].
    rewrite (bind_Return env _ _ _ _ _ (Hm _ Hy)).
    destruct (TokenModel.field_matches test (SimpleServer.symbol e)); [reflexivity |].
    cbn [orb]. apply Hm, Hd. }
  rewrite (bind_Return env _ _ _ _ _ Hp).
  rewrite (bind_Return env _ _ _ _ _ (IH Hr)).
  reflexivity.
Qed.

(** The search of the file-backed server, for a query of two code units
    or more.  A query that is not a regular expression is answered 500.
    Otherwise, on a file whose names, symbols and descriptions are strings
    or absent, the answer is 200 with the entries one of whose three
    fields passes the expression, in the order of the file, cut by
    [slice(0, limit)]: the first [limit] hits for a limit of zero or more,
    all but the last [-limit] hits for a negative limit, and none for a
    limit that is not a number; [count] is the number of entries
    returned.  The file is read and never written. *)
Theorem file_search_results :
  forall (env : Env) (q : string) (l : option string) (d : World SimpleServer.Disk),
    2 <= strlen q ->
    let req := mkQuery (Some q) None l None in
    let limit := parse_param 20 l in
    (regexp_i env q = None ->
     exists msg,
       SimpleServer.search req env d =
         (Return (Failed 500 "Failed to search tokens" (Some msg)), loaded d)) /\
    (forall test,
        regexp_i env q = Some test ->
        forallb searchable (file_entries d) = true ->
        let hits := filter (entry_hit test) (file_entries d) in
        exists results,
          SimpleServer.search req env d =
            (Return (Ok {| SimpleServer.s_data := results;
                           SimpleServer.s_query := q;
                           SimpleServer.s_count := Z.of_nat (List.length results) |}),
             loaded d) /\
          (forall ln, limit = Fin ln -> 0 <= ln -> results = firstn (Z.to_nat ln) hits) /\
          (forall ln, limit = Fin ln -> ln < 0 ->
                      results = firstn (List.length hits - Z.to_nat (- ln)) hits) /\
          (limit = NaN -> results = [])).
Proof.
  intros env q l d Hq req limit.
  assert (Hlong : no_query (Some q) || (strlen (text (Some q)) <? 2) = false).
  { apply orb_false_iff. split.
    - cbn. apply String.eqb_neq. intros ->. cbn in Hq. lia.
    - apply Z.ltb_ge. exact Hq. }
  assert (Hload : SimpleServer.loadTokens env d =
                  (Return {| SimpleServer.l_tokens := file_entries d;
                             SimpleServer.l_lastUpdated :=
                               option_map SimpleServer.file_lastUpdated (state d) |},
                   loaded d)).
  { rewrite loadTokens_run. unfold file_entries. destruct (state d); reflexivity. }
  split.
  - intros Hre. eexists. unfold SimpleServer.search, try_catch.
    rewrite (bind_Return env _ _ _ _ _ Hload).
    subst req. cbn [query_q query_limit]. rewrite Hlong.
    rewrite (bind_Return env ask _ (loaded d) (loaded d) env eq_refl).
    cbn [text]. rewrite Hre. reflexivity.
  - intros test Hre Hs hits.
    eexists. split; [| split; [| split]].
    + unfold SimpleServer.search, try_catch.
      rewrite (bind_Return env _ _ _ _ _ Hload).
      subst req. cbn [query_q query_limit]. rewrite Hlong.
      rewrite (bind_Return env ask _ (loaded d) (loaded d) env eq_refl).
      cbn [text SimpleServer.l_tokens]. rewrite Hre.
      rewrite (bind_Return env _ _ _ _ _
                 (filterM_searchable env test (loaded d) (file_entries d) Hs)).
      reflexivity.
    + intros ln Hl Hln. fold limit. rewrite Hl.
      unfold slice, rel_index. fold hits. cbn [Z.ltb Z.compare].
      replace (Z.min 0 (Z.of_nat (List.length hits))) with 0 by lia.
      cbn [Z.to_nat skipn]. rewrite Z.sub_0_r.
      destruct (Z.ltb_spec ln 0); [lia |].
      destruct (Z.le_gt_cases ln (Z.of_nat (List.length hits))).
      * f_equal. lia.
      * rewrite !firstn_all2; [reflexivity | lia | lia].
    + intros ln Hl Hln. fold limit. rewrite Hl.
      unfold slice, rel_index. fold hits. cbn [Z.ltb Z.compare].
      replace (Z.min 0 (Z.of_nat (List.length hits))) with 0 by lia.
      cbn [Z.to_nat skipn]. rewrite Z.sub_0_r.
      destruct (Z.ltb_spec ln 0); [| lia].
      f_equal. lia.
    + intros Hl. fold limit. rewrite Hl.
      unfold slice, rel_index. fold hits. cbn [Z.ltb Z.compare].
      replace (Z.min 0 (Z.of_nat (List.length hits))) with 0 by lia.
      reflexivity.
Qed.

Lemma file_search_results_witness :
  let env := answering (response_of []) in
  let d := fresh (Some (SimpleServer.mkTokensFile many_entries 1000 45)) in
  exists results,
    SimpleServer.search (mkQuery (Some "Tok") None (Some "-40") None) env d =
      (Return (Ok {| SimpleServer.s_data := results;
                     SimpleServer.s_query := "Tok";
                     SimpleServer.s_count := Z.of_nat (List.length results) |}),
       loaded d) /\
    results = firstn 5 many_entries.
Proof.
  cbv zeta.
  destruct (proj2 (file_search_results (answering (response_of [])) "Tok" (Some "-40")
              (fresh (Some (SimpleServer.mkTokensFile many_entries 1000 45)))
              ltac:(vm_compute; discriminate))
              (fun _ => true) eq_refl eq_refl)
    as (results & Hrun & _ & Hneg & _).
  exists results. split; [exact Hrun |].
  refine (Hneg (-40) _ _); first [ reflexivity | lia ].
Defined.
